(** * BoltGuard policy engine: a shallow embedding and its properties

    The development follows the Go packages of the repository:
    [facts] (the fact model), [policy] (schema, validation, typed access to
    the configuration bag, loading), [rules] (registry, orchestrator and
    the six built-in evaluators) and [report] (aggregation and the text
    rendering).

    Go strings are byte strings and are modelled by [string]; Go's [int]
    and [int64] are modelled by [Z]; Go maps are [gmap]s; [float64] is
    IEEE 754 binary64 as specified by the standard library's [SpecFloat]. *)

From Stdlib Require Import ZArith String Ascii List Bool Lia.
From Stdlib Require Import Floats.SpecFloat.
From stdpp Require Import gmap strings pretty.

Set Warnings "-register-all".
Local Open Scope Z_scope.

(** ** Go library functions used by the program *)

(** Functions of Go's standard library that the program calls and whose
    implementation is outside the repository: the regular expression engine
    ([regexp.Compile], [Regexp.MatchString]), the Unicode case mappings of
    [strings], and the RFC 3339 rendering of a [time.Time].  An [error] is
    modelled by its message ([err.Error()]). *)
Class GoLib := {
  Regexp : Type;
  regexp_Compile : string -> Regexp + string;
  regexp_MatchString : Regexp -> string -> bool;
  strings_ToLower : string -> string;
  strings_ToUpper : string -> string;
  Time : Type;
  time_Format_RFC3339 : Time -> string;
}.

Module gostrings.

(** [strings.HasPrefix s prefix] *)
Definition HasPrefix (s prefix : string) : bool := String.prefix prefix s.

(** [strings.Contains s substr] *)
Fixpoint Contains (s substr : string) : bool :=
  String.prefix substr s ||
  match s with
  | EmptyString => false
  | String _ s' => Contains s' substr
  end.

(** [strings.Join elems sep] *)
Fixpoint Join (elems : list string) (sep : string) : string :=
  match elems with
  | [] => ""
  | [x] => x
  | x :: rest => x +:+ sep +:+ Join rest sep
  end.

(** [strings.SplitN(s, "=", 2)[0]]: the bytes before the first ['='],
    the whole string when there is none. *)
Fixpoint SplitN2_eq_0 (s : string) : string :=
  match s with
  | EmptyString => ""
  | String c s' =>
      if Ascii.eqb c "="%char then "" else String c (SplitN2_eq_0 s')
  end.

(** [strings.SplitN(s, "=", 2)[1]] when it exists: the bytes after the
    first ['=']. *)
Fixpoint SplitN2_eq_1 (s : string) : option string :=
  match s with
  | EmptyString => None
  | String c s' =>
      if Ascii.eqb c "="%char then Some s' else SplitN2_eq_1 s'
  end.

(** [fmt.Sprintf("%d", n)] *)
Definition fmt_d (n : Z) : string := pretty n.

End gostrings.

(** ** float64 *)

Module float64.

Definition prec : Z := 53.
Definition emax : Z := 1024.

(** [float64(n)] for an integer [n]: round to nearest, ties to even. *)
Definition of_int (n : Z) : spec_float := binary_normalize prec emax n 0 false.

(** [x / y] *)
Definition div (x y : spec_float) : spec_float := SFdiv prec emax x y.

(** The result of [int(x)] when [x] is outside the range of [int]: Go
    leaves it implementation-specific; on amd64 the conversion
    instruction yields the smallest integer. *)
Definition int_indefinite : Z := - 2 ^ 63.

(** [int(x)]: the fraction is discarded (truncation towards zero). *)
Definition to_int (x : spec_float) : Z :=
  match x with
  | S754_zero _ => 0
  | S754_finite s m e =>
      let mag := if 0 <=? e then Z.pos m * 2 ^ e else Z.pos m / 2 ^ (- e) in
      let v := if s then - mag else mag in
      if (- 2 ^ 63 <=? v) && (v <? 2 ^ 63) then v else int_indefinite
  | S754_infinity _ | S754_nan => int_indefinite
  end.

End float64.

(** ** Package facts *)

Module facts.
Section facts.
Context `{L : GoLib}.

Record LayerFact := {
  Digest : string;
  LayerSize : Z;
  CreatedBy : string;
}.

(** [v1.History] of the image library: only carried along. *)
Record History := {
  HAuthor : string;
  HCreated : Time;
  HCreatedBy : string;
  HComment : string;
  HEmptyLayer : bool;
}.

Record Facts := {
  BaseImage : string;
  Size : Z;
  Created : Time;
  Architecture : string;
  OS : string;
  User : string;
  RunsAsRoot : bool;
  HasSetuidBit : bool;
  Labels : gmap string string;
  Env : list string;
  ExposedPorts : list string;
  Entrypoint : list string;
  Cmd : list string;
  WorkingDir : string;
  LayerCount : Z;
  Layers : list LayerFact;
  FHistory : list History;
}.

Definition GetLabel (f : Facts) (key : string) : string :=
  default "" (Labels f !! key).

Definition HasLabel (f : Facts) (key : string) : bool :=
  bool_decide (is_Some (Labels f !! key)).

(** [strings.TrimPrefix] when the prefix is known to be present. *)
Fixpoint drop_bytes (n : nat) (s : string) : string :=
  match n, s with
  | O, _ => s
  | S n', String _ s' => drop_bytes n' s'
  | S _, EmptyString => ""
  end.

Fixpoint GetEnvVar_loop (prefix : string) (env : list string) : string :=
  match env with
  | [] => ""
  | e :: rest =>
      if gostrings.HasPrefix e prefix
      then drop_bytes (String.length prefix) e
      else GetEnvVar_loop prefix rest
  end.

Definition GetEnvVar (f : Facts) (key : string) : string :=
  GetEnvVar_loop (key +:+ "=") (Env f).

Definition HasEnvVar (f : Facts) (key : string) : bool :=
  existsb (fun e => gostrings.HasPrefix e (key +:+ "=")) (Env f).

(** [float64(f.Size) / (1024 * 1024)] *)
Definition SizeMB (f : Facts) : spec_float :=
  float64.div (float64.of_int (Size f)) (float64.of_int (1024 * 1024)).

Definition SizeGB (f : Facts) : spec_float :=
  float64.div (float64.of_int (Size f)) (float64.of_int (1024 * 1024 * 1024)).

End facts.
End facts.

Arguments facts.Facts {L}.
Arguments facts.History {L}.

(** ** Package policy *)

Module policy.

(** The dynamic values a YAML document decodes to in an [interface{}]
    position of the configuration bag. *)
Inductive Value :=
| VNil
| VBool (b : bool)
| VInt (n : Z)
| VInt64 (n : Z)
| VUint64 (n : Z)
| VFloat64 (x : spec_float)
| VString (s : string)
| VStringSlice (l : list string)
| VSlice (l : list Value)
| VMap (m : list (string * Value))
| VOther (dyntype : string).

Record Settings := {
  FailOnError : bool;
  MinSeverity : string;
}.

(** [Config] is [None] for a nil map. *)
Record Rule := {
  ID : string;
  Name : string;
  Description : string;
  Severity : string;
  Kind : string;
  Config : option (gmap string Value);
  FailFast : bool;
}.

Record Policy := {
  PName : string;
  PDescription : string;
  Version : string;
  PSettings : Settings;
  Rules : list Rule;
}.

(** The checks of [Validate] on the rule at index [i]: [None] when the
    rule passes, the error message otherwise. *)
Definition validate_rule (i : Z) (rule : Rule) : option string :=
  if String.eqb (ID rule) "" then
    Some ("rule " +:+ gostrings.fmt_d i +:+ " missing ID")
  else if String.eqb (Name rule) "" then
    Some ("rule " +:+ ID rule +:+ " missing name")
  else if String.eqb (Kind rule) "" then
    Some ("rule " +:+ ID rule +:+ " missing kind")
  else if String.eqb (Severity rule) "critical"
       || String.eqb (Severity rule) "high"
       || String.eqb (Severity rule) "medium"
       || String.eqb (Severity rule) "low"
       || String.eqb (Severity rule) "info" then
    None
  else
    Some ("rule " +:+ ID rule +:+ " has invalid severity: " +:+ Severity rule).

(** The [for i, rule := range p.Rules] loop of [Validate], from index [i]. *)
Fixpoint Validate_loop (i : Z) (rules : list Rule) : option string :=
  match rules with
  | [] => None
  | rule :: rest =>
      match validate_rule i rule with
      | Some err => Some err
      | None => Validate_loop (i + 1) rest
      end
  end.

(** [Validate] returns [None] for Go's nil error and [Some msg] for an
    error with message [msg]. *)
Definition Validate (p : Policy) : option string :=
  if String.eqb (PName p) "" then Some "policy must have a name"
  else if Nat.eqb (length (Rules p)) 0 then
    Some "policy must have at least one rule"
  else Validate_loop 0 (Rules p).

Definition GetConfigString (r : Rule) (key : string) : string :=
  match Config r with
  | None => ""
  | Some cfg =>
      match cfg !! key with
      | None => ""
      | Some val => match val with VString str => str | _ => "" end
      end
  end.

Definition GetConfigInt (r : Rule) (key : string) : Z :=
  match Config r with
  | None => 0
  | Some cfg =>
      match cfg !! key with
      | None => 0
      | Some val =>
          match val with
          | VInt v => v
          | VInt64 v => v
          | VFloat64 v => float64.to_int v
          | _ => 0
          end
      end
  end.

Definition GetConfigBool (r : Rule) (key : string) : bool :=
  match Config r with
  | None => false
  | Some cfg =>
      match cfg !! key with
      | None => false
      | Some val => match val with VBool b => b | _ => false end
      end
  end.

(** The loop over a [[]interface{}] value: [result] grows by the items
    that are strings. *)
Fixpoint GetConfigStringSlice_loop (v : list Value) (result : list string)
  : list string :=
  match v with
  | [] => result
  | item :: rest =>
      match item with
      | VString str => GetConfigStringSlice_loop rest (result ++ [str])
      | _ => GetConfigStringSlice_loop rest result
      end
  end.

Definition GetConfigStringSlice (r : Rule) (key : string) : list string :=
  match Config r with
  | None => []
  | Some cfg =>
      match cfg !! key with
      | None => []
      | Some val =>
          match val with
          | VStringSlice v => v
          | VSlice v => GetConfigStringSlice_loop v []
          | _ => []
          end
      end
  end.

(** *** Loading

    The loaders call the operating system ([os.ReadFile]), the embedded
    file system and the YAML decoder.  To speak about which steps a load
    performs and in which order, each call is recorded in a log. *)

Inductive Step :=
| StepReadFile (path : string)
| StepReadEmbedded (path : string)
| StepUnmarshal
| StepValidate.

Section loading.
(** [os.ReadFile path]: the file's bytes or an error. *)
Variable os_ReadFile : string -> string + string.
(** [defaultPolicyFS.ReadFile path] *)
Variable defaultPolicyFS_ReadFile : string -> string + string.
(** [yaml.Unmarshal data &p] into a fresh [Policy]. *)
Variable yaml_Unmarshal : string -> Policy + string.

(** A load returns the steps it performed and a policy or an error. *)
Definition Load : Type := list Step * (Policy + string).

Definition LoadFromFile (path : string) : Load :=
  match os_ReadFile path with
  | inr err =>
      ([StepReadFile path], inr ("failed to read policy file: " +:+ err))
  | inl data =>
      match yaml_Unmarshal data with
      | inr err =>
          ([StepReadFile path; StepUnmarshal],
           inr ("failed to parse policy YAML: " +:+ err))
      | inl p =>
          match Validate p with
          | Some err =>
              ([StepReadFile path; StepUnmarshal; StepValidate],
               inr ("invalid policy: " +:+ err))
          | None =>
              ([StepReadFile path; StepUnmarshal; StepValidate], inl p)
          end
      end
  end.

Definition LoadDefault : Load :=
  match defaultPolicyFS_ReadFile "defaults/default.yaml" with
  | inr err =>
      ([StepReadEmbedded "defaults/default.yaml"],
       inr ("failed to read embedded default policy: " +:+ err))
  | inl data =>
      match yaml_Unmarshal data with
      | inr err =>
          ([StepReadEmbedded "defaults/default.yaml"; StepUnmarshal],
           inr ("failed to parse default policy: " +:+ err))
      | inl p =>
          ([StepReadEmbedded "defaults/default.yaml"; StepUnmarshal], inl p)
      end
  end.
End loading.

End policy.

(** ** Package rules *)

Module rules.
Section rules.
Context `{L : GoLib}.
Import facts policy.

Record Result := {
  RuleID : string;
  RuleName : string;
  Severity : string;
  Passed : bool;
  Message : string;
  Description : string;
}.

(** The literal [&Result{Passed: passed, Message: message}] the evaluators
    build: the other fields have their zero value. *)
Definition mkResult (passed : bool) (message : string) : Result :=
  {| RuleID := ""; RuleName := ""; Severity := ""; Passed := passed;
     Message := message; Description := "" |}.

(** What [Evaluate(f, r)] of an evaluator returns: the pair of a
    [*Result] ([None] for nil) and an [error] ([None] for nil). *)
Definition EvalReturn : Type := option Result * option string.

Definition Evaluator : Type := Facts -> Rule -> EvalReturn.

Record Engine := {
  evaluators : gmap string Evaluator;
}.

Definition UserEvaluator : Evaluator := fun f r =>
  let allowRoot := GetConfigBool r "allow_root" in
  if RunsAsRoot f && negb allowRoot then
    (Some (mkResult false ("image runs as root (user=" +:+ User f +:+ ")")),
     None)
  else
    (Some (mkResult true ("runs as user: " +:+ User f)), None).

Definition SizeEvaluator : Evaluator := fun f r =>
  let maxMB := GetConfigInt r "max_mb" in
  let warnMB := GetConfigInt r "warn_mb" in
  let sizeMB := float64.to_int (SizeMB f) in
  if (0 <? maxMB) && (maxMB <? sizeMB) then
    (Some (mkResult false
       ("image size " +:+ gostrings.fmt_d sizeMB +:+ "MB exceeds maximum "
        +:+ gostrings.fmt_d maxMB +:+ "MB")), None)
  else if (0 <? warnMB) && (warnMB <? sizeMB) then
    (Some (mkResult true
       ("image size " +:+ gostrings.fmt_d sizeMB
        +:+ "MB exceeds warning threshold "
        +:+ gostrings.fmt_d warnMB +:+ "MB")), None)
  else
    (Some (mkResult true
       ("image size: " +:+ gostrings.fmt_d sizeMB +:+ "MB")), None).

Fixpoint LabelEvaluator_loop (f : Facts) (required missing : list string)
  : list string :=
  match required with
  | [] => missing
  | label :: rest =>
      if negb (HasLabel f label)
      then LabelEvaluator_loop f rest (missing ++ [label])
      else LabelEvaluator_loop f rest missing
  end.

Definition LabelEvaluator : Evaluator := fun f r =>
  let required := GetConfigStringSlice r "required" in
  let missing := LabelEvaluator_loop f required [] in
  if (0 <? Z.of_nat (length missing)) then
    (Some (mkResult false
       ("missing required labels: " +:+ gostrings.Join missing ", ")), None)
  else
    (Some (mkResult true
       ("all required labels present ("
        +:+ gostrings.fmt_d (Z.of_nat (size (Labels f)))
        +:+ " total labels)")), None).

(** The inner loop of the environment evaluator: one compiled pattern
    against every raw entry, in order. *)
Fixpoint EnvEvaluator_entries (re : Regexp) (pattern : string)
    (envs : list string) (violations : list string) : list string :=
  match envs with
  | [] => violations
  | env :: rest =>
      if regexp_MatchString re env then
        let key := gostrings.SplitN2_eq_0 env in
        EnvEvaluator_entries re pattern rest
          (violations ++
           ["env var " +:+ key +:+ " matches pattern " +:+ pattern])
      else EnvEvaluator_entries re pattern rest violations
  end.

(** The outer loop: the patterns in order; a pattern that does not
    compile ends the evaluator with an error. *)
Fixpoint EnvEvaluator_patterns (denyPatterns : list string)
    (envs : list string) (violations : list string)
  : list string + string :=
  match denyPatterns with
  | [] => inl violations
  | pattern :: rest =>
      match regexp_Compile pattern with
      | inr err =>
          inr ("invalid regex pattern " +:+ pattern +:+ ": " +:+ err)
      | inl re =>
          EnvEvaluator_patterns rest envs
            (EnvEvaluator_entries re pattern envs violations)
      end
  end.

Definition EnvEvaluator : Evaluator := fun f r =>
  let denyPatterns := GetConfigStringSlice r "deny_patterns" in
  match EnvEvaluator_patterns denyPatterns (Env f) [] with
  | inr err => (None, Some err)
  | inl violations =>
      if (0 <? Z.of_nat (length violations)) then
        (Some (mkResult false
           ("found suspicious env vars: "
            +:+ gostrings.Join violations "; ")), None)
      else
        (Some (mkResult true
           ("no suspicious env vars detected ("
            +:+ gostrings.fmt_d (Z.of_nat (length (Env f)))
            +:+ " total)")), None)
  end.

Definition BaseEvaluator : Evaluator := fun f r =>
  let allowedPrefixes := GetConfigStringSlice r "allowed_prefixes" in
  let allowUnknown := GetConfigBool r "allow_unknown" in
  if String.eqb (BaseImage f) "" || String.eqb (BaseImage f) "unknown" then
    if allowUnknown then
      (Some (mkResult true "base image unknown (allowed by policy)"), None)
    else
      (Some (mkResult false "could not determine base image"), None)
  else if existsb
            (fun prefix =>
               gostrings.HasPrefix (strings_ToLower (BaseImage f))
                                   (strings_ToLower prefix))
            allowedPrefixes then
    (Some (mkResult true ("base image: " +:+ BaseImage f)), None)
  else if allowUnknown then
    (Some (mkResult true
       ("base image " +:+ BaseImage f +:+ " not in recommended list")), None)
  else
    (Some (mkResult false
       ("base image " +:+ BaseImage f +:+ " not allowed")), None).

Definition LayersEvaluator : Evaluator := fun f r =>
  let maxLayers := GetConfigInt r "max_layers" in
  let warnLayers := GetConfigInt r "warn_layers" in
  let count := LayerCount f in
  if (0 <? maxLayers) && (maxLayers <? count) then
    (Some (mkResult false
       ("layer count " +:+ gostrings.fmt_d count +:+ " exceeds maximum "
        +:+ gostrings.fmt_d maxLayers)), None)
  else if (0 <? warnLayers) && (warnLayers <? count) then
    (Some (mkResult true
       ("layer count " +:+ gostrings.fmt_d count
        +:+ " exceeds warning threshold " +:+ gostrings.fmt_d warnLayers)),
     None)
  else
    (Some (mkResult true ("layer count: " +:+ gostrings.fmt_d count)), None).

Definition Register (e : Engine) (kind : string) (eval : Evaluator) : Engine :=
  {| evaluators := <[kind := eval]> (evaluators e) |}.

Definition NewEngine : Engine :=
  let e := {| evaluators := ∅ |} in
  let e := Register e "user" UserEvaluator in
  let e := Register e "size" SizeEvaluator in
  let e := Register e "label" LabelEvaluator in
  let e := Register e "env" EnvEvaluator in
  let e := Register e "base" BaseEvaluator in
  let e := Register e "layers" LayersEvaluator in
  e.

(** One iteration of the loop of [Evaluate]: the result appended for
    [rule], or [None] when the iteration dereferences a nil [*Result]
    (an evaluator that returned neither a result nor an error). *)
Definition Evaluate_rule (e : Engine) (f : Facts) (rule : Rule)
  : option Result :=
  match (evaluators e !! Kind rule : option Evaluator) with
  | None =>
      Some {| RuleID := ID rule; RuleName := Name rule;
              Severity := policy.Severity rule; Passed := false;
              Message := "unknown rule kind: " +:+ Kind rule;
              Description := "" |}
  | Some evaluator =>
      match evaluator f rule with
      | (_, Some err) =>
          Some {| RuleID := ID rule; RuleName := Name rule;
                  Severity := policy.Severity rule; Passed := false;
                  Message := "evaluation error: " +:+ err;
                  Description := "" |}
      | (Some result, None) =>
          Some {| RuleID := ID rule; RuleName := Name rule;
                  Severity := policy.Severity rule;
                  Passed := Passed result;
                  Message := Message result;
                  Description := policy.Description rule |}
      | (None, None) => None
      end
  end.

Fixpoint Evaluate_loop (e : Engine) (f : Facts) (rules : list Rule)
    (results : list Result) : option (list Result) :=
  match rules with
  | [] => Some results
  | rule :: rest =>
      match Evaluate_rule e f rule with
      | None => None
      | Some result => Evaluate_loop e f rest (results ++ [result])
      end
  end.

(** [Evaluate] returns the results, or [None] when the run panics. *)
Definition Evaluate (e : Engine) (f : Facts) (p : Policy)
  : option (list Result) :=
  Evaluate_loop e f (Rules p) [].

Fixpoint CountFailures_loop (results : list Result) (count : Z) : Z :=
  match results with
  | [] => count
  | r :: rest =>
      if negb (Passed r) then CountFailures_loop rest (count + 1)
      else CountFailures_loop rest count
  end.

Definition CountFailures (results : list Result) : Z :=
  CountFailures_loop results 0.

Fixpoint CountBySeverity_loop (results : list Result)
    (counts : gmap string Z) : gmap string Z :=
  match results with
  | [] => counts
  | r :: rest =>
      if negb (Passed r) then
        CountBySeverity_loop rest
          (<[Severity r := default 0 (counts !! Severity r) + 1]> counts)
      else CountBySeverity_loop rest counts
  end.

Definition CountBySeverity (results : list Result) : gmap string Z :=
  let counts : gmap string Z :=
    <["critical" := 0]> (<["high" := 0]> (<["medium" := 0]>
      (<["low" := 0]> (<["info" := 0]> ∅)))) in
  CountBySeverity_loop results counts.

Definition HasCriticalFailures (results : list Result) : bool :=
  existsb (fun r => negb (Passed r) && String.eqb (Severity r) "critical")
          results.

End rules.
End rules.

Arguments rules.Engine {L}.
Arguments rules.Evaluator {L}.

(** ** Package report *)

Module report.
Section report.
Context `{L : GoLib}.
Import facts policy rules.

Definition nl : string := String (Ascii.ascii_of_nat 10) "".

Record Report := {
  ImageName : string;
  RFacts : Facts;
  Results : list Result;
  RPolicy : Policy;
  Timestamp : Time;
  TotalRules : Z;
  RPassed : Z;
  RFailed : Z;
  BySeverity : gmap string Z;
}.

(** The counting loop of [New]: [(r.Passed, r.Failed)] after the loop. *)
Fixpoint New_loop (results : list Result) (passed failed : Z) : Z * Z :=
  match results with
  | [] => (passed, failed)
  | res :: rest =>
      if Passed res then New_loop rest (passed + 1) failed
      else New_loop rest passed (failed + 1)
  end.

(** [New]; [now] is the reading of the clock by [time.Now()]. *)
Definition New (now : Time) (imageName : string) (f : Facts)
    (results : list Result) (p : Policy) : Report :=
  let '(passed, failed) := New_loop results 0 0 in
  {| ImageName := imageName; RFacts := f; Results := results; RPolicy := p;
     Timestamp := now;
     TotalRules := Z.of_nat (length results);
     RPassed := passed; RFailed := failed;
     BySeverity := CountBySeverity results |}.

(** [m[key]] on a [map[string]int]: zero for a missing key. *)
Definition index (m : gmap string Z) (key : string) : Z :=
  default 0 (m !! key).

(** [Text] writes to an [io.Writer] and ignores write errors; the model
    gives the bytes written, section by section, one line of the model
    for each [Fprintf]. *)
Definition Text_header (r : Report) : string :=
  "BoltGuard Report" +:+ nl
  +:+ "================" +:+ nl +:+ nl
  +:+ "Image:    " +:+ ImageName r +:+ nl
  +:+ "Policy:   " +:+ PName (RPolicy r)
      +:+ " (v" +:+ Version (RPolicy r) +:+ ")" +:+ nl
  +:+ "Scanned:  " +:+ time_Format_RFC3339 (Timestamp r) +:+ nl +:+ nl.

Definition Text_summary (r : Report) : string :=
  "Summary" +:+ nl
  +:+ "-------" +:+ nl
  +:+ "Total checks: " +:+ gostrings.fmt_d (TotalRules r) +:+ nl
  +:+ "  Passed:     " +:+ gostrings.fmt_d (RPassed r) +:+ nl
  +:+ "  Failed:     " +:+ gostrings.fmt_d (RFailed r) +:+ nl +:+ nl.

(** One line of the breakdown, written only for a positive count. *)
Definition Text_severity_line (r : Report) (key label : string) : string :=
  if 0 <? index (BySeverity r) key
  then label +:+ gostrings.fmt_d (index (BySeverity r) key) +:+ nl
  else "".

Definition Text_severity (r : Report) : string :=
  if 0 <? RFailed r then
    "Failures by severity:" +:+ nl
    +:+ Text_severity_line r "critical" "  Critical: "
    +:+ Text_severity_line r "high" "  High:     "
    +:+ Text_severity_line r "medium" "  Medium:   "
    +:+ Text_severity_line r "low" "  Low:      "
    +:+ nl
  else "".

Definition Text_failure (res : Result) : string :=
  "[" +:+ strings_ToUpper (Severity res) +:+ "] " +:+ RuleName res +:+ nl
  +:+ "  ID:      " +:+ RuleID res +:+ nl
  +:+ "  Message: " +:+ Message res +:+ nl
  +:+ (if negb (String.eqb (Description res) "")
       then "  Detail:  " +:+ Description res +:+ nl
       else "")
  +:+ nl.

Fixpoint Text_failures_loop (results : list Result) : string :=
  match results with
  | [] => ""
  | res :: rest =>
      (if negb (Passed res) then Text_failure res else "")
      +:+ Text_failures_loop rest
  end.

Definition Text_failures (r : Report) : string :=
  if 0 <? RFailed r then
    "Failures" +:+ nl
    +:+ "--------" +:+ nl
    +:+ Text_failures_loop (Results r)
  else "".

Fixpoint Text_passed_loop (results : list Result) : string :=
  match results with
  | [] => ""
  | res :: rest =>
      (if Passed res
       then "✓ " +:+ RuleName res +:+ ": " +:+ Message res +:+ nl
       else "")
      +:+ Text_passed_loop rest
  end.

Definition Text_passed (r : Report) : string :=
  if 0 <? RPassed r then
    "Passed Checks" +:+ nl
    +:+ "-------------" +:+ nl
    +:+ Text_passed_loop (Results r)
    +:+ nl
  else "".

Definition Text_verdict (r : Report) : string :=
  if RFailed r =? 0 then "✓ All checks passed" +:+ nl
  else "✗ " +:+ gostrings.fmt_d (RFailed r) +:+ " check(s) failed" +:+ nl.

Definition Text (r : Report) : string :=
  Text_header r +:+ Text_summary r +:+ Text_severity r +:+ Text_failures r
  +:+ Text_passed r +:+ Text_verdict r.

Definition severityToLevel (severity : string) : string :=
  if String.eqb severity "critical" || String.eqb severity "high" then "error"
  else if String.eqb severity "medium" then "warning"
  else if String.eqb severity "low" then "note"
  else "none".

End report.
End report.

Arguments report.Report {L}.

(** ** A library instance for running the model

    [asciilib] instantiates [GoLib] on the fragment needed to run the
    model on concrete ASCII inputs:
    - an ASCII pattern without regular expression metacharacters,
      optionally preceded by the flag group [(?i)], compiles, and matches
      an ASCII subject exactly when the literal occurs in it (up to the
      case of letters under the flag), as in Go;
    - an ASCII pattern of literal bytes and opening parentheses that are
      never closed is a compile error, with Go's message;
    - every other pattern is outside the fragment, and this instance
      reports it as an error of its own;
    - the case mappings act on ASCII letters, as Go's do on ASCII strings;
    - a time is represented by its RFC 3339 rendering. *)

Module asciilib.

Definition lower_ascii (c : ascii) : ascii :=
  let n := nat_of_ascii c in
  if (Nat.leb 65 n && Nat.leb n 90)%bool then ascii_of_nat (n + 32) else c.

Definition upper_ascii (c : ascii) : ascii :=
  let n := nat_of_ascii c in
  if (Nat.leb 97 n && Nat.leb n 122)%bool then ascii_of_nat (n - 32) else c.

Fixpoint map_string (g : ascii -> ascii) (s : string) : string :=
  match s with
  | EmptyString => EmptyString
  | String c s' => String (g c) (map_string g s')
  end.

Definition ToLower : string -> string := map_string lower_ascii.
Definition ToUpper : string -> string := map_string upper_ascii.

Definition is_meta (c : ascii) : bool :=
  existsb (Ascii.eqb c)
    ["\"%char; "."%char; "+"%char; "*"%char; "?"%char; "("%char; ")"%char;
     "|"%char; "["%char; "]"%char; "{"%char; "}"%char; "^"%char; "$"%char].

Fixpoint no_meta (s : string) : bool :=
  match s with
  | EmptyString => true
  | String c s' => negb (is_meta c) && no_meta s'
  end.

Record Literal := {
  fold_case : bool;
  text : string;
}.

(** Literal bytes and at least one opening parenthesis, none closed:
    Go's parser reports [missing closing )] with the whole pattern. *)
Fixpoint only_open_parens (s : string) : bool :=
  match s with
  | EmptyString => true
  | String c s' =>
      (Ascii.eqb c "("%char || negb (is_meta c)) && only_open_parens s'
  end.

Definition Compile (pattern : string) : Literal + string :=
  let '(fold, body) :=
    if String.prefix "(?i)" pattern
    then (true, String.substring 4 (String.length pattern - 4) pattern)
    else (false, pattern) in
  if no_meta body then inl {| fold_case := fold; text := body |}
  else if only_open_parens body then
    inr ("error parsing regexp: missing closing ): `" +:+ pattern +:+ "`")
  else inr ("error parsing regexp: outside the literal fragment: `"
            +:+ pattern +:+ "`").

Definition MatchString (re : Literal) (s : string) : bool :=
  if fold_case re
  then gostrings.Contains (ToLower s) (ToLower (text re))
  else gostrings.Contains s (text re).

#[global] Instance lib : GoLib := {|
  Regexp := Literal;
  regexp_Compile := Compile;
  regexp_MatchString := MatchString;
  strings_ToLower := ToLower;
  strings_ToUpper := ToUpper;
  Time := string;
  time_Format_RFC3339 := fun t => t;
|}.

End asciilib.

(** ** Concrete inputs used to run the model *)

Module examples.
Import facts policy rules report.

Definition image (size : Z) (env : list string) : Facts :=
  {| BaseImage := "alpine:3.19"; Size := size;
     Created := "2024-01-01T00:00:00Z";
     Architecture := "amd64"; OS := "linux";
     User := "root"; RunsAsRoot := true; HasSetuidBit := false;
     Labels := {[ "maintainer" := "ops" ]};
     Env := env;
     ExposedPorts := []; Entrypoint := []; Cmd := []; WorkingDir := "";
     LayerCount := 3; Layers := []; FHistory := [] |}.

(** An image of exactly 2100 MB with a secret in its environment. *)
Definition f0 : Facts :=
  image (2100 * 1048576) ["PATH=/bin"; "DB_PASSWORD=hunter2"].

Definition rule (id severity kind : string)
    (cfg : option (gmap string Value)) : Rule :=
  {| ID := id; Name := "check " +:+ id;
     policy.Description := "why " +:+ id +:+ " matters";
     policy.Severity := severity; Kind := kind; Config := cfg;
     FailFast := false |}.

Definition with_rules (rs : list Rule) : Policy :=
  {| PName := "example"; PDescription := ""; Version := "1.0.0";
     PSettings := {| FailOnError := false; MinSeverity := "" |};
     Rules := rs |}.

Definition r_user := rule "r1" "critical" "user" None.
Definition r_size :=
  rule "r2" "medium" "size" (Some {[ "max_mb" := VInt 2048 ]}).
Definition r_label :=
  rule "r3" "low" "label"
    (Some {[ "required" :=
               VSlice [VString "maintainer"; VInt 3; VString "version"] ]}).
Definition r_env :=
  rule "r4" "critical" "env"
    (Some {[ "deny_patterns" := VSlice [VString "(?i)password"] ]}).
Definition r_badregex :=
  rule "r5" "high" "env"
    (Some {[ "deny_patterns" := VSlice [VString "PATH"; VString "("] ]}).
Definition r_unknown := rule "r6" "high" "totally-made-up" None.
Definition r_base :=
  rule "r7" "info" "base"
    (Some {[ "allowed_prefixes" := VStringSlice ["Alpine"] ]}).
Definition r_layers :=
  rule "r8" "info" "layers"
    (Some {[ "max_layers" := VFloat64 (float64.of_int 2) ]}).

Definition p0 : Policy :=
  with_rules [r_user; r_size; r_label; r_env; r_badregex; r_unknown;
              r_base; r_layers].

(** An image whose only environment entry holds a weak password. *)
Definition f_weak : Facts := image 0 ["DB_PASSWORD=password"].

(** The document [{}] decodes to the zero policy; the toy decoder knows
    no other document. *)
Definition zero_policy : Policy :=
  {| PName := ""; PDescription := ""; Version := "";
     PSettings := {| FailOnError := false; MinSeverity := "" |};
     Rules := [] |}.

Definition decode (data : string) : Policy + string :=
  if String.eqb data "{}" then inl zero_policy
  else inr "yaml: document not supported".

Definition embedded (path : string) : string + string :=
  if String.eqb path "defaults/default.yaml" then inl "{}"
  else inr ("open " +:+ path +:+ ": file does not exist").

Definition disk (path : string) : string + string :=
  if String.eqb path "policy.yaml" then inl "{}"
  else inr ("open " +:+ path +:+ ": no such file or directory").

Definition r_wrong_types :=
  rule "r9" "high" "user"
    (Some {[ "allow_root" := VString "true" ]}).

End examples.

(** * Vocabulary of the statements *)

Module spec.
Section spec.
Context `{L : GoLib}.
Import facts policy rules report.

(** No registered evaluator returns a nil result together with a nil
    error. *)
Definition engine_total (e : Engine) : Prop :=
  forall kind ev f r,
    evaluators e !! kind = Some ev -> ev f r <> (None, None).

(** Two fact values agree on every field a built-in evaluator reads. *)
Definition same_read_facts (f1 f2 : Facts) : Prop :=
  User f1 = User f2 /\ RunsAsRoot f1 = RunsAsRoot f2 /\
  Size f1 = Size f2 /\ Labels f1 = Labels f2 /\ Env f1 = Env f2 /\
  BaseImage f1 = BaseImage f2 /\ LayerCount f1 = LayerCount f2.

(** The policy [p] with the rule list [rs]. *)
Definition set_rules (p : Policy) (rs : list Rule) : Policy :=
  {| PName := PName p; PDescription := PDescription p;
     Version := Version p; PSettings := PSettings p; Rules := rs |}.

Definition compiles (pattern : string) : Prop :=
  exists re, regexp_Compile pattern = inl re.

(** [rule_fault e f rule msg]: rule [rule] cannot be evaluated, and [msg]
    is the message the orchestrator reports for it: its kind is not
    registered, or its evaluator returns an error, in particular the
    environment evaluator meeting a deny pattern that does not compile. *)
Inductive rule_fault (e : Engine) (f : Facts) (rule : Rule)
  : string -> Prop :=
  | fault_unknown_kind :
    evaluators e !! Kind rule = None ->
    rule_fault e f rule ("unknown rule kind: " +:+ Kind rule)
  | fault_evaluator_error (ev : Evaluator) o err :
    (evaluators e !! Kind rule : option Evaluator) = Some ev ->
    ev f rule = (o, Some err) ->
    rule_fault e f rule ("evaluation error: " +:+ err)
  | fault_deny_pattern before pattern after err :
    evaluators e !! Kind rule = Some EnvEvaluator ->
    GetConfigStringSlice rule "deny_patterns" = before ++ pattern :: after ->
    Forall compiles before ->
    regexp_Compile pattern = inr err ->
    rule_fault e f rule
      ("evaluation error: invalid regex pattern " +:+ pattern +:+ ": "
       +:+ err).

(** The failed results of severity [sev]. *)
Definition failed_with (sev : string) (results : list Result)
  : list Result :=
  List.filter (fun r => negb (Passed r) && String.eqb (Severity r) sev)
              results.

Definition five_severities : list string :=
  ["critical"; "high"; "medium"; "low"; "info"].

(** The report line of the environment evaluator for an entry [env]
    matched by [pattern]: it names the entry's key and the pattern. *)
Definition violation (pattern env : string) : string :=
  "env var " +:+ gostrings.SplitN2_eq_0 env +:+ " matches pattern "
  +:+ pattern.

(** [pattern] compiles and matches the raw entry [env]. *)
Definition matches (pattern env : string) : bool :=
  match regexp_Compile pattern with
  | inl re => regexp_MatchString re env
  | inr _ => false
  end.

(** The report lines of all matches: pattern by pattern, and for each
    pattern entry by entry. *)
Definition violations_of (patterns envs : list string) : list string :=
  flat_map
    (fun pattern =>
       List.map (violation pattern) (List.filter (matches pattern) envs))
    patterns.

(** The dynamic type of a configuration value. *)
Definition is_bool (v : Value) : bool :=
  match v with VBool _ => true | _ => false end.
Definition is_number (v : Value) : bool :=
  match v with VInt _ | VInt64 _ | VFloat64 _ => true | _ => false end.
Definition is_string (v : Value) : bool :=
  match v with VString _ => true | _ => false end.
Definition is_sequence (v : Value) : bool :=
  match v with VStringSlice _ | VSlice _ => true | _ => false end.

(** The rule [r] with [key] removed from its configuration. *)
Definition without_key (r : Rule) (key : string) : Rule :=
  {| ID := ID r; Name := Name r; policy.Description := policy.Description r;
     policy.Severity := policy.Severity r; Kind := Kind r;
     Config := delete key <$> Config r; FailFast := FailFast r |}.

(** The string elements of a sequence, in order. *)
Definition string_items (items : list Value) : list string :=
  omap (fun v => match v with VString s => Some s | _ => None end) items.

(** A rule that passes the per-rule checks of [Validate]. *)
Definition rule_well_formed (rule : Rule) : Prop :=
  ID rule <> "" /\ Name rule <> "" /\ Kind rule <> "" /\
  In (policy.Severity rule) five_severities.

(** How many times a load ran the validation. *)
Definition validations (steps : list Step) : nat :=
  length (List.filter
            (fun s => match s with StepValidate => true | _ => false end)
            steps).

(** The text made of the given lines, each ended by a newline. *)
Definition unlines (ls : list string) : string :=
  fold_right (fun l acc => l +:+ nl +:+ acc) "" ls.

End spec.
End spec.

(** * The rest of the program

    The definitions below embed the functions around the evaluation
    engine: the image model and its size, the extraction of facts, the
    findings of the static-analysis rendering, and the choice of the
    policy source. *)

(** ** Package image *)

Module image.
Section image.
Context `{L : GoLib}.

(** [v1.Hash] of the image library and its [String] method. *)
Record Hash := {
  Algorithm : string;
  Hex : string;
}.

Definition Hash_String (h : Hash) : string :=
  Algorithm h +:+ ":" +:+ Hex h.

(** A [v1.Layer], by what its methods [Digest()] and [Size()] return: a
    value and an error ([None] for nil). *)
Record Layer := {
  Layer_Digest : Hash * option string;
  Layer_Size : Z * option string;
}.

(** The fields of [v1.Config] and [v1.ConfigFile] the program reads.
    [ExposedPorts] holds the keys of the Go map in the order the [range]
    statement yields them; [Labels] is [None] for a nil map. *)
Record ContainerConfig := {
  CUser : string;
  CLabels : option (gmap string string);
  CEnv : list string;
  CExposedPorts : list string;
  CEntrypoint : list string;
  CCmd : list string;
  CWorkingDir : string;
}.

Record ConfigFile := {
  CFCreated : Time;
  CFArchitecture : string;
  CFOS : string;
  CFConfig : ContainerConfig;
  CFHistory : list facts.History;
  CFRootFSType : string;
  CFDiffIDs : list Hash;
}.

(** [v1.Manifest]: the digests of its layer descriptors. *)
Record Manifest := {
  MLayerDigests : list Hash;
}.

Record Image := {
  Reference : string;
  Config : option ConfigFile;
  IManifest : option Manifest;
  Layers : list Layer;
  manifest : option Manifest;
  config : option ConfigFile;
}.

(** Addition on [int64] wraps around. *)
Definition wrap64 (x : Z) : Z := (x + 2 ^ 63) mod 2 ^ 64 - 2 ^ 63.

(** The loop of [Size]: [total] so far; the first layer whose [Size()]
    fails ends it with that error. *)
Fixpoint Size_loop (layers : list Layer) (total : Z) : Z + string :=
  match layers with
  | [] => inl total
  | layer :: rest =>
      match Layer_Size layer with
      | (_, Some err) => inr err
      | (size, None) => Size_loop rest (wrap64 (total + size))
      end
  end.

(** [Size] returns the total, or the error (with a total of 0). *)
Definition Size (i : Image) : Z + string := Size_loop (Layers i) 0.

Definition DiffIDs (i : Image) : list Hash + string :=
  match config i with
  | None => inr "no config available"
  | Some cfg => inl (CFDiffIDs cfg)
  end.

End image.
End image.

Arguments image.ConfigFile {L}.
Arguments image.Image {L}.

(** ** Package facts: extraction *)

Module extraction.
Section extraction.
Context `{L : GoLib}.
Import facts.

(** [fromRegex.FindStringSubmatch] for the pattern compiled in
    [inferBaseImage], which is [(?i)FROM\s+([^\s]+)]: the whole match and
    the group, or no element. *)
Variable fromRegex_FindStringSubmatch : string -> list string.
(** [strings.Fields] *)
Variable strings_Fields : string -> list string.

(** The loop over the fields of a history entry: the field that follows
    the first field equal to [from] up to case, when there is one. *)
Fixpoint inferBaseImage_parts (parts : list string) : option string :=
  match parts with
  | [] => None
  | part :: rest =>
      if String.eqb (strings_ToLower part) "from" then
        match rest with
        | next :: _ => Some next
        | [] => None
        end
      else inferBaseImage_parts rest
  end.

Fixpoint inferBaseImage_loop (history : list History) : string :=
  match history with
  | [] => "unknown"
  | h :: rest =>
      if String.eqb (HCreatedBy h) "" then inferBaseImage_loop rest
      else
        let matches := fromRegex_FindStringSubmatch (HCreatedBy h) in
        if (1 <? length matches)%nat then nth 1 matches ""
        else if gostrings.Contains (strings_ToLower (HCreatedBy h)) "from"
        then
          match inferBaseImage_parts (strings_Fields (HCreatedBy h)) with
          | Some base => base
          | None => inferBaseImage_loop rest
          end
        else inferBaseImage_loop rest
  end.

Definition inferBaseImage (history : list History) : string :=
  if Nat.eqb (length history) 0 then "unknown"
  else inferBaseImage_loop history.

(** The loop over the layers in [Extract]: errors of [Digest()] and
    [Size()] are dropped and the returned values kept. *)
Fixpoint Extract_layers (layers : list image.Layer)
    (acc : list LayerFact) : list LayerFact :=
  match layers with
  | [] => acc
  | layer :: rest =>
      Extract_layers rest
        (acc ++ [{| Digest := image.Hash_String (fst (image.Layer_Digest layer));
                    LayerSize := fst (image.Layer_Size layer);
                    CreatedBy := "" |}])
  end.

Definition Extract (img : image.Image) : Facts + string :=
  match image.Config img with
  | None => inr "image has no config"
  | Some cfg =>
      let user := image.CUser (image.CFConfig cfg) in
      match image.Size img with
      | inr err => inr ("failed to calculate size: " +:+ err)
      | inl size =>
          inl {| BaseImage := inferBaseImage (image.CFHistory cfg);
                 Size := size;
                 Created := image.CFCreated cfg;
                 Architecture := image.CFArchitecture cfg;
                 OS := image.CFOS cfg;
                 User := user;
                 RunsAsRoot := String.eqb user "" || String.eqb user "root"
                               || String.eqb user "0";
                 HasSetuidBit := false;
                 Labels := default ∅ (image.CLabels (image.CFConfig cfg));
                 Env := image.CEnv (image.CFConfig cfg);
                 ExposedPorts := image.CExposedPorts (image.CFConfig cfg);
                 Entrypoint := image.CEntrypoint (image.CFConfig cfg);
                 Cmd := image.CCmd (image.CFConfig cfg);
                 WorkingDir := image.CWorkingDir (image.CFConfig cfg);
                 LayerCount := Z.of_nat (length (image.Layers img));
                 Layers := Extract_layers (image.Layers img) [];
                 FHistory := image.CFHistory cfg |}
      end
  end.

End extraction.
End extraction.

(** ** Package report: the findings of the SARIF rendering *)

Module sarif.

(** The values [SARIF] hands to the JSON encoder: strings, slices and map
    literals.  A map literal is given by its entries, as written in the
    source. *)
Inductive JSON :=
| JString (s : string)
| JArray (items : list JSON)
| JObject (entries : list (string * JSON)).

(** The entry of an object under [key]. *)
Fixpoint entry (key : string) (entries : list (string * JSON)) : option JSON :=
  match entries with
  | [] => None
  | (k, v) :: rest => if String.eqb k key then Some v else entry key rest
  end.

Definition get (key : string) (v : JSON) : option JSON :=
  match v with
  | JObject entries => entry key entries
  | _ => None
  end.

Section sarif.
Context `{L : GoLib}.
Import policy rules report.

Definition sarifRule (rule : Rule) : JSON :=
  JObject
    [("id", JString (ID rule));
     ("name", JString (Name rule));
     ("shortDescription", JObject [("text", JString (Name rule))]);
     ("fullDescription",
      JObject [("text", JString (policy.Description rule))]);
     ("defaultConfiguration",
      JObject [("level", JString (severityToLevel (policy.Severity rule)))])].

Fixpoint buildSarifRules_loop (rules : list Rule) (sarifRules : list JSON)
  : list JSON :=
  match rules with
  | [] => sarifRules
  | rule :: rest => buildSarifRules_loop rest (sarifRules ++ [sarifRule rule])
  end.

Definition buildSarifRules (r : Report) : list JSON :=
  buildSarifRules_loop (Rules (RPolicy r)) [].

Definition sarifResult (imageName : string) (res : Result) : JSON :=
  JObject
    [("ruleId", JString (RuleID res));
     ("level", JString (severityToLevel (Severity res)));
     ("message", JObject [("text", JString (Message res))]);
     ("locations",
      JArray
        [JObject
           [("physicalLocation",
             JObject
               [("artifactLocation",
                 JObject [("uri", JString imageName)])])]])].

Fixpoint buildSarifResults_loop (imageName : string) (results : list Result)
    (sarifResults : list JSON) : list JSON :=
  match results with
  | [] => sarifResults
  | res :: rest =>
      if Passed res then buildSarifResults_loop imageName rest sarifResults
      else buildSarifResults_loop imageName rest
             (sarifResults ++ [sarifResult imageName res])
  end.

Definition buildSarifResults (r : Report) : list JSON :=
  buildSarifResults_loop (ImageName r) (Results r) [].

(** The document [SARIF] encodes. *)
Definition SARIF_document (r : Report) : JSON :=
  JObject
    [("version", JString "2.1.0");
     ("$schema", JString "https://json.schemastore.org/sarif-2.1.0.json");
     ("runs",
      JArray
        [JObject
           [("tool",
             JObject
               [("driver",
                 JObject
                   [("name", JString "BoltGuard");
                    ("informationUri",
                     JString "https://github.com/R00TKI11/boltguard");
                    ("version", JString "0.1.0");
                    ("semanticVersion", JString "0.1.0");
                    ("rules", JArray (buildSarifRules r))])]);
            ("artifacts",
             JArray
               [JObject
                  [("location", JObject [("uri", JString (ImageName r))]);
                   ("description",
                    JObject
                      [("text",
                        JString ("Container image: " +:+ ImageName r))])]]);
            ("results", JArray (buildSarifResults r))]])].

End sarif.
End sarif.

(** ** Package main: the choice of the policy source *)

Module main.
Section main.
Import policy.

Variable os_ReadFile : string -> string + string.
Variable defaultPolicyFS_ReadFile : string -> string + string.
Variable yaml_Unmarshal : string -> Policy + string.
(** [os.Stat path] returns a nil error. *)
Variable os_Stat_ok : string -> bool.
(** [os.Getenv] and [filepath.Join] *)
Variable os_Getenv : string -> string.
Variable filepath_Join : list string -> string.

Definition candidates : list string :=
  ["policies/default.yaml";
   "/etc/boltguard/default.yaml";
   filepath_Join [os_Getenv "HOME"; ".config"; "boltguard"; "default.yaml"]].

(** The loop over the candidates, ending with the embedded default. *)
Fixpoint loadPolicy_loop (cs : list string) : Load :=
  match cs with
  | [] => LoadDefault defaultPolicyFS_ReadFile yaml_Unmarshal
  | candidate :: rest =>
      if os_Stat_ok candidate
      then LoadFromFile os_ReadFile yaml_Unmarshal candidate
      else loadPolicy_loop rest
  end.

Definition loadPolicy (path : string) : Load :=
  if negb (String.eqb path "")
  then LoadFromFile os_ReadFile yaml_Unmarshal path
  else loadPolicy_loop candidates.

End main.
End main.

(** ** Text functions for running the extraction

    [strings.Fields] and the matcher of the pattern of [inferBaseImage] on
    ASCII text, byte by byte. *)

Module asciitext.

(** [unicode.IsSpace] on ASCII: tab, line feed, vertical tab, form feed,
    carriage return and space. *)
Definition is_space (c : ascii) : bool :=
  let n := nat_of_ascii c in
  (Nat.leb 9 n && Nat.leb n 13) || Nat.eqb n 32.

(** The class [\s] of the regular expression syntax: as [is_space],
    without the vertical tab. *)
Definition is_space_re (c : ascii) : bool :=
  is_space c && negb (Nat.eqb (nat_of_ascii c) 11).

(** The fields of [s]; [cur] holds the bytes of the field being read, in
    reverse. *)
Fixpoint Fields_loop (s : string) (cur : list ascii) : list string :=
  match s with
  | EmptyString =>
      match cur with
      | [] => []
      | _ => [string_of_list_ascii (rev cur)]
      end
  | String c s' =>
      if is_space c then
        match cur with
        | [] => Fields_loop s' []
        | _ => string_of_list_ascii (rev cur) :: Fields_loop s' []
        end
      else Fields_loop s' (c :: cur)
  end.

Definition Fields (s : string) : list string := Fields_loop s [].

(** The longest prefix of [s] whose bytes satisfy [p], and what follows
    it. *)
Fixpoint span (p : ascii -> bool) (s : string) : string * string :=
  match s with
  | EmptyString => ("", "")
  | String c s' =>
      if p c then let '(a, b) := span p s' in (String c a, b)
      else ("", s)
  end.

(** A match of [(?i)FROM\s+([^\s]+)] at the start of [s]: the match and
    its group.  Both repetitions are greedy, and neither can give back a
    byte to let the rest match. *)
Definition match_here (s : string) : option (string * string) :=
  let word := String.substring 0 4 s in
  if String.eqb (asciilib.ToLower word) "from" then
    let rest := String.substring 4 (String.length s - 4) s in
    let '(blank, after) := span is_space_re rest in
    let '(group, _) := span (fun c => negb (is_space_re c)) after in
    if String.eqb blank "" || String.eqb group "" then None
    else Some (word +:+ blank +:+ group, group)
  else None.

(** [FindStringSubmatch]: the leftmost match. *)
Fixpoint FindStringSubmatch (s : string) : list string :=
  match match_here s with
  | Some (whole, group) => [whole; group]
  | None =>
      match s with
      | EmptyString => []
      | String _ s' => FindStringSubmatch s'
      end
  end.

End asciitext.

(** ** An image, a file system and a decoder for running the extraction
    and the choice of the policy *)

Module scenario.
Import facts policy.

Definition layer (hex : string) (size : Z) (err : option string)
  : image.Layer :=
  {| image.Layer_Digest := ({| image.Algorithm := "sha256"; image.Hex := hex |}, None);
     image.Layer_Size := (size, err) |}.

Definition history (createdBy : string) : History :=
  {| HAuthor := ""; HCreated := "2024-01-01T00:00:00Z";
     HCreatedBy := createdBy; HComment := ""; HEmptyLayer := false |}.

Definition config_file (user : string) : image.ConfigFile :=
  {| image.CFCreated := "2024-01-01T00:00:00Z";
     image.CFArchitecture := "amd64"; image.CFOS := "linux";
     image.CFConfig :=
       {| image.CUser := user;
          image.CLabels := None;
          image.CEnv := ["PATH=/usr/bin"; "MODE=a=b"];
          image.CExposedPorts := ["8080/tcp"];
          image.CEntrypoint := ["/srv/app"];
          image.CCmd := [];
          image.CWorkingDir := "/srv" |};
     image.CFHistory :=
       [history "";
        history "/bin/sh -c #(nop) ADD file:1f4 in /";
        history "COPY --from=build /out/app /srv/app # buildkit";
        history "LABEL stage=final from golang:1.22"];
     image.CFRootFSType := "layers";
     image.CFDiffIDs := [] |}.

(** An image of three layers whose user is [user]. *)
Definition with_user (user : string) : image.Image :=
  {| image.Reference := "registry.example/app:1";
     image.Config := Some (config_file user);
     image.IManifest := None;
     image.Layers := [layer "aa" 5000000 None; layer "bb" 0 None;
                      layer "cc" 1234567 None];
     image.manifest := None;
     image.config := Some (config_file user) |}.

Definition Extract (img : image.Image) : Facts + string :=
  extraction.Extract asciitext.FindStringSubmatch asciitext.Fields img.

(** Facts of an image of [size] bytes in [layers] layers. *)
Definition facts_with (size layers : Z) : Facts :=
  {| BaseImage := "golang:1.22"; Size := size;
     Created := "2024-01-01T00:00:00Z";
     Architecture := "amd64"; OS := "linux";
     User := "app"; RunsAsRoot := false; HasSetuidBit := false;
     Labels := ∅;
     Env := ["PATH=/usr/bin"; "MODE=a=b"];
     ExposedPorts := []; Entrypoint := []; Cmd := []; WorkingDir := "";
     LayerCount := layers; Layers := []; FHistory := [] |}.

(** Only the system-wide candidate exists; it holds a document the
    decoder reads as the example policy. *)
Definition os_Stat_ok (path : string) : bool :=
  String.eqb path "/etc/boltguard/default.yaml".

Definition os_ReadFile (path : string) : string + string :=
  if String.eqb path "/etc/boltguard/default.yaml" then inl "example"
  else examples.disk path.

Definition yaml_Unmarshal (data : string) : Policy + string :=
  if String.eqb data "example" then inl examples.p0
  else examples.decode data.

Definition os_Getenv (name : string) : string :=
  if String.eqb name "HOME" then "/home/ops" else "".

(** [filepath.Join] on non-empty clean elements. *)
Definition filepath_Join (elems : list string) : string :=
  gostrings.Join elems "/".

Definition loadPolicy (path : string) : Load :=
  main.loadPolicy os_ReadFile examples.embedded yaml_Unmarshal
    os_Stat_ok os_Getenv filepath_Join path.

End scenario.

(** ** Vocabulary of the further properties *)

Module spec2.
Section spec2.
Context `{L : GoLib}.
Import facts policy rules report.

(** The kinds [NewEngine] registers. *)
Definition builtin_kinds : list string :=
  ["user"; "size"; "label"; "env"; "base"; "layers"].

(** The result the orchestrator synthesizes for a rule of unknown kind. *)
Definition unknown_kind_result (rule : Rule) : Result :=
  {| RuleID := ID rule; RuleName := Name rule;
     Severity := policy.Severity rule; Passed := false;
     Message := "unknown rule kind: " +:+ Kind rule;
     Description := "" |}.

(** The sum of the counts of the five severities. *)
Definition five_sum (m : gmap string Z) : Z :=
  index m "critical" + index m "high" + index m "medium" + index m "low"
  + index m "info".

(** The sum of the sizes recorded in layer facts, over the integers. *)
Definition sum_sizes (layers : list LayerFact) : Z :=
  fold_right (fun l acc => LayerSize l + acc) 0 layers.

(** The sum of the sizes the layers of an image report, over the
    integers. *)
Definition layer_sizes (layers : list image.Layer) : Z :=
  fold_right (fun l acc => fst (image.Layer_Size l) + acc) 0 layers.

(** The layer's [Size()] returns an error. *)
Definition layer_fails (l : image.Layer) : Prop :=
  snd (image.Layer_Size l) <> None.

Variable fromRegex_FindStringSubmatch : string -> list string.
Variable strings_Fields : string -> list string.

(** What one history entry yields as base image, if anything: the group
    of the pattern's match, else the field after a field [from]. *)
Definition history_candidate (h : History) : option string :=
  if String.eqb (HCreatedBy h) "" then None
  else
    let matches := fromRegex_FindStringSubmatch (HCreatedBy h) in
    if (1 <? length matches)%nat then Some (nth 1 matches "")
    else if gostrings.Contains (strings_ToLower (HCreatedBy h)) "from"
    then extraction.inferBaseImage_parts (strings_Fields (HCreatedBy h))
    else None.

End spec2.
End spec2.

(** ** Package rules, with the memory and the surroundings of a run

    The same orchestrator and evaluators as in [rules], written with what
    a Go function can reach beside its arguments made explicit: the
    clock, the other state of the process, and the heap in which the
    [*Result] values live.  A function of this model may read the clock,
    read and write the state, and hand out a pointer it handed out
    before; whether the code does so is then a matter of proof. *)

Module stateful.
Section stateful.
Context `{L : GoLib}.
Import facts policy.


Record World := {
  (** what [time.Now()] returns *)
  clock : Z;
  (** package-level variables, the process environment and whatever else
      outlives a call *)
  globals : gmap string string;
  (** the [Result] values allocated so far; a [*Result] that is not nil
      is the index of its value, a [nat] *)
  heap : list rules.Result;
}.

(** A computation in a world; [None] when it panics. *)
Definition M (A : Type) : Type := World -> option (A * World).

Definition ret {A : Type} (a : A) : M A := fun w => Some (a, w).

Definition bind {A B : Type} (m : M A) (k : A -> M B) : M B :=
  fun w => match m w with
           | None => None
           | Some (a, w') => k a w'
           end.

Definition panic {A : Type} : M A := fun _ => None.

(** [time.Now()] *)
Definition time_Now : M Z := fun w => Some (clock w, w).

(** [&Result{...}]: a new cell, at the end of the heap. *)
Definition new (res : rules.Result) : M nat :=
  fun w => Some (length (heap w),
                 {| clock := clock w; globals := globals w;
                    heap := heap w ++ [res] |}).

(** An assignment to a field through a pointer: [g] sets the field. *)
Definition assign (p : nat) (g : rules.Result -> rules.Result) : M unit :=
  fun w => match heap w !! p with
           | None => None
           | Some res =>
               Some (tt, {| clock := clock w; globals := globals w;
                            heap := <[p := g res]> (heap w) |})
           end.

Definition set_RuleID (v : string) (r : rules.Result) : rules.Result :=
  {| rules.RuleID := v; rules.RuleName := rules.RuleName r;
     rules.Severity := rules.Severity r; rules.Passed := rules.Passed r;
     rules.Message := rules.Message r;
     rules.Description := rules.Description r |}.

Definition set_RuleName (v : string) (r : rules.Result) : rules.Result :=
  {| rules.RuleID := rules.RuleID r; rules.RuleName := v;
     rules.Severity := rules.Severity r; rules.Passed := rules.Passed r;
     rules.Message := rules.Message r;
     rules.Description := rules.Description r |}.

Definition set_Severity (v : string) (r : rules.Result) : rules.Result :=
  {| rules.RuleID := rules.RuleID r; rules.RuleName := rules.RuleName r;
     rules.Severity := v; rules.Passed := rules.Passed r;
     rules.Message := rules.Message r;
     rules.Description := rules.Description r |}.

Definition set_Description (v : string) (r : rules.Result) : rules.Result :=
  {| rules.RuleID := rules.RuleID r; rules.RuleName := rules.RuleName r;
     rules.Severity := rules.Severity r; rules.Passed := rules.Passed r;
     rules.Message := rules.Message r; rules.Description := v |}.

(** What [Evaluate(f, r)] of an evaluator returns: a [*Result] ([None]
    for nil) and an [error] ([None] for nil). *)
Definition Evaluator : Type := Facts -> Rule -> M (option nat * option string).

Record Engine := {
  evaluators : gmap string Evaluator;
}.

(** [return &Result{Passed: passed, Message: message}, nil] *)
Definition return_new (passed : bool) (message : string)
  : M (option nat * option string) :=
  bind (new (rules.mkResult passed message))
       (fun result => ret (Some result, None)).

(** [return nil, err] *)
Definition return_error (err : string) : M (option nat * option string) :=
  ret (None, Some err).

Definition UserEvaluator : Evaluator := fun f r =>
  let allowRoot := GetConfigBool r "allow_root" in
  if RunsAsRoot f && negb allowRoot then
    return_new false ("image runs as root (user=" +:+ User f +:+ ")")
  else
    return_new true ("runs as user: " +:+ User f).

Definition SizeEvaluator : Evaluator := fun f r =>
  let maxMB := GetConfigInt r "max_mb" in
  let warnMB := GetConfigInt r "warn_mb" in
  let sizeMB := float64.to_int (SizeMB f) in
  if (0 <? maxMB) && (maxMB <? sizeMB) then
    return_new false
      ("image size " +:+ gostrings.fmt_d sizeMB +:+ "MB exceeds maximum "
       +:+ gostrings.fmt_d maxMB +:+ "MB")
  else if (0 <? warnMB) && (warnMB <? sizeMB) then
    return_new true
      ("image size " +:+ gostrings.fmt_d sizeMB
       +:+ "MB exceeds warning threshold "
       +:+ gostrings.fmt_d warnMB +:+ "MB")
  else
    return_new true ("image size: " +:+ gostrings.fmt_d sizeMB +:+ "MB").

(** The loops of the label and environment evaluators work on local
    slices of strings only: they are those of [rules]. *)
Definition LabelEvaluator : Evaluator := fun f r =>
  let required := GetConfigStringSlice r "required" in
  let missing := rules.LabelEvaluator_loop f required [] in
  if (0 <? Z.of_nat (length missing)) then
    return_new false
      ("missing required labels: " +:+ gostrings.Join missing ", ")
  else
    return_new true
      ("all required labels present ("
       +:+ gostrings.fmt_d (Z.of_nat (size (Labels f)))
       +:+ " total labels)").

Definition EnvEvaluator : Evaluator := fun f r =>
  let denyPatterns := GetConfigStringSlice r "deny_patterns" in
  match rules.EnvEvaluator_patterns denyPatterns (Env f) [] with
  | inr err => return_error err
  | inl violations =>
      if (0 <? Z.of_nat (length violations)) then
        return_new false
          ("found suspicious env vars: " +:+ gostrings.Join violations "; ")
      else
        return_new true
          ("no suspicious env vars detected ("
           +:+ gostrings.fmt_d (Z.of_nat (length (Env f)))
           +:+ " total)")
  end.

Definition BaseEvaluator : Evaluator := fun f r =>
  let allowedPrefixes := GetConfigStringSlice r "allowed_prefixes" in
  let allowUnknown := GetConfigBool r "allow_unknown" in
  if String.eqb (BaseImage f) "" || String.eqb (BaseImage f) "unknown" then
    if allowUnknown then
      return_new true "base image unknown (allowed by policy)"
    else
      return_new false "could not determine base image"
  else if existsb
            (fun prefix =>
               gostrings.HasPrefix (strings_ToLower (BaseImage f))
                                   (strings_ToLower prefix))
            allowedPrefixes then
    return_new true ("base image: " +:+ BaseImage f)
  else if allowUnknown then
    return_new true
      ("base image " +:+ BaseImage f +:+ " not in recommended list")
  else
    return_new false ("base image " +:+ BaseImage f +:+ " not allowed").

Definition LayersEvaluator : Evaluator := fun f r =>
  let maxLayers := GetConfigInt r "max_layers" in
  let warnLayers := GetConfigInt r "warn_layers" in
  let count := LayerCount f in
  if (0 <? maxLayers) && (maxLayers <? count) then
    return_new false
      ("layer count " +:+ gostrings.fmt_d count +:+ " exceeds maximum "
       +:+ gostrings.fmt_d maxLayers)
  else if (0 <? warnLayers) && (warnLayers <? count) then
    return_new true
      ("layer count " +:+ gostrings.fmt_d count
       +:+ " exceeds warning threshold " +:+ gostrings.fmt_d warnLayers)
  else
    return_new true ("layer count: " +:+ gostrings.fmt_d count).

Definition Register (e : Engine) (kind : string) (eval : Evaluator) : Engine :=
  {| evaluators := <[kind := eval]> (evaluators e) |}.

Definition NewEngine : Engine :=
  let e := {| evaluators := ∅ |} in
  let e := Register e "user" UserEvaluator in
  let e := Register e "size" SizeEvaluator in
  let e := Register e "label" LabelEvaluator in
  let e := Register e "env" EnvEvaluator in
  let e := Register e "base" BaseEvaluator in
  let e := Register e "layers" LayersEvaluator in
  e.

(** One iteration of the loop of [Evaluate]: the pointer appended for
    [rule].  The four assignments go through the pointer the evaluator
    returned; the first of them panics on nil. *)
Definition Evaluate_rule (e : Engine) (f : Facts) (rule : Rule) : M nat :=
  match (evaluators e !! Kind rule : option Evaluator) with
  | None =>
      new {| rules.RuleID := ID rule; rules.RuleName := Name rule;
             rules.Severity := policy.Severity rule; rules.Passed := false;
             rules.Message := "unknown rule kind: " +:+ Kind rule;
             rules.Description := "" |}
  | Some evaluator =>
      bind (evaluator f rule) (fun '(result, err) =>
        match err with
        | Some msg =>
            new {| rules.RuleID := ID rule; rules.RuleName := Name rule;
                   rules.Severity := policy.Severity rule;
                   rules.Passed := false;
                   rules.Message := "evaluation error: " +:+ msg;
                   rules.Description := "" |}
        | None =>
            match result with
            | None => panic
            | Some result =>
                bind (assign result (set_RuleID (ID rule))) (fun _ =>
                bind (assign result (set_RuleName (Name rule))) (fun _ =>
                bind (assign result (set_Severity (policy.Severity rule)))
                     (fun _ =>
                bind (assign result
                        (set_Description (policy.Description rule)))
                     (fun _ =>
                ret result))))
            end
        end)
  end.

Fixpoint Evaluate_loop (e : Engine) (f : Facts) (rules : list Rule)
    (results : list nat) : M (list nat) :=
  match rules with
  | [] => ret results
  | rule :: rest =>
      bind (Evaluate_rule e f rule) (fun result =>
        Evaluate_loop e f rest (results ++ [result]))
  end.

Definition Evaluate (e : Engine) (f : Facts) (p : Policy) : M (list nat) :=
  Evaluate_loop e f (Rules p) [].

(** The values behind a slice of pointers; [None] if one of them points
    nowhere. *)
Definition values (w : World) (results : list nat)
  : option (list rules.Result) :=
  mapM (fun p => heap w !! p) results.

End stateful.
End stateful.

Arguments stateful.Engine {L}.
Arguments stateful.Evaluator {L}.

(** ** Evaluators that are not pure functions, for comparison *)

Module impure.
Import facts policy stateful.

(** An evaluator that puts the reading of the clock in its message. *)
Definition ClockEvaluator : Evaluator := fun f r =>
  bind time_Now (fun now =>
    return_new true ("checked at " +:+ gostrings.fmt_d now)).

(** An evaluator that allocates one [Result] the first time and hands out
    the same pointer ever after. *)
Definition CachingEvaluator : Evaluator := fun f r w =>
  match heap w with
  | [] => return_new true "ok" w
  | _ => ret (Some 0%nat, None) w
  end.

Definition world (now : Z) : World :=
  {| clock := now; globals := ∅; heap := [] |}.

Definition clock_policy : Policy :=
  examples.with_rules [examples.rule "t1" "low" "clock" None].

Definition caching_policy : Policy :=
  examples.with_rules [examples.rule "k1" "low" "cache" None;
                       examples.rule "k2" "high" "cache" None].

End impure.

(** ** Vocabulary of the statement on repeated evaluation *)

Module spec_stateful.
Section spec_stateful.
Context `{L : GoLib}.
Import facts policy stateful.

(** The world [w] with one more [Result] allocated. *)
Definition allocated (w : World) (res : rules.Result) : World :=
  {| clock := clock w; globals := globals w; heap := heap w ++ [res] |}.

(** The evaluator [ev] is the function [g] of the facts and of the rule:
    whatever the clock, the state and the heap, it returns what [g] gives,
    the result in a new cell, and changes nothing else. *)
Definition computes (ev : Evaluator) (g : rules.Evaluator) : Prop :=
  forall f r w,
    ev f r w
    = match g f r with
      | (Some res, err) => Some ((Some (length (heap w)), err), allocated w res)
      | (None, err) => Some ((None, err), w)
      end.

(** The two registries hold evaluators under the same kinds, and each
    evaluator of the first is the function registered in the second. *)
Definition engine_computes (e : Engine) (g : rules.Engine) : Prop :=
  forall kind,
    match (evaluators e !! kind : option Evaluator),
          (rules.evaluators g !! kind : option rules.Evaluator) with
    | Some ev, Some gev => computes ev gev
    | None, None => True
    | _, _ => False
    end.

(** Between two runs the clock moves and the state of the process
    changes in any way; what was allocated stays. *)
Definition later (w w' : World) : Prop :=
  exists more, heap w' = heap w ++ more.

End spec_stateful.
End spec_stateful.

(** * Properties *)

(** ** The orchestrator *)

Section orchestrator.
Context `{L : GoLib}.
Import facts policy rules report spec.

Lemma Evaluate_loop_acc e f rs acc :
  Evaluate_loop e f rs acc = (fun l => acc ++ l) <$> Evaluate_loop e f rs [].
Proof.
  revert acc. induction rs as [|rule rest IH]; intros acc; simpl.
  - by rewrite app_nil_r.
  - destruct (Evaluate_rule e f rule) as [res|]; [|done].
    rewrite (IH (acc ++ [res])), (IH [res]).
    destruct (Evaluate_loop e f rest []) as [l|]; simpl; [|done].
    by rewrite <- app_assoc.
Qed.

Lemma Evaluate_loop_mapM e f rs :
  Evaluate_loop e f rs [] = mapM (Evaluate_rule e f) rs.
Proof.
  induction rs as [|rule rest IH]; [done|]. simpl.
  destruct (Evaluate_rule e f rule) as [res|]; [|done]. simpl.
  rewrite Evaluate_loop_acc, IH.
  by destruct (mapM (Evaluate_rule e f) rest).
Qed.

Lemma Evaluate_rule_total e f rule :
  engine_total e -> is_Some (Evaluate_rule e f rule).
Proof.
  intros He. unfold Evaluate_rule.
  destruct (evaluators e !! Kind rule) as [ev|] eqn:Hk; [|by eexists].
  specialize (He _ _ f rule Hk).
  destruct (ev f rule) as [[res|] [err|]]; try done; by eexists.
Qed.

Lemma Evaluate_total e f p :
  engine_total e ->
  exists results,
    Evaluate e f p = Some results /\
    Forall2 (fun rule res => Evaluate_rule e f rule = Some res)
            (Rules p) results.
Proof.
  intros He. unfold Evaluate. rewrite Evaluate_loop_mapM.
  destruct (mapM (Evaluate_rule e f) (Rules p)) as [results|] eqn:Hm.
  - exists results. split; [done|]. by apply mapM_Some.
  - exfalso. apply mapM_None in Hm. apply Exists_exists in Hm.
    destruct Hm as (rule & _ & Hnone).
    destruct (Evaluate_rule_total e f rule He) as [res Hres]. congruence.
Qed.


(** The six built-in evaluators are the only ones [NewEngine] holds. *)
Lemma NewEngine_lookup kind ev :
  evaluators NewEngine !! kind = Some ev ->
  ev = UserEvaluator \/ ev = SizeEvaluator \/ ev = LabelEvaluator \/
  ev = EnvEvaluator \/ ev = BaseEvaluator \/ ev = LayersEvaluator.
Proof.
  unfold NewEngine, Register; simpl. intros H.
  repeat (apply lookup_insert_Some in H as [[_ <-]|[_ H]]; [tauto|]).
  by rewrite lookup_empty in H.
Qed.

Ltac builtin_cases H :=
  destruct H as [->|[->|[->|[->|[->| ->]]]]].

Lemma builtin_total ev f r :
  ev = UserEvaluator \/ ev = SizeEvaluator \/ ev = LabelEvaluator \/
  ev = EnvEvaluator \/ ev = BaseEvaluator \/ ev = LayersEvaluator ->
  ev f r <> (None, None).
Proof.
  intros H. builtin_cases H.
  - unfold UserEvaluator. by case_match.
  - unfold SizeEvaluator. by repeat case_match.
  - unfold LabelEvaluator. by case_match.
  - unfold EnvEvaluator. by repeat case_match.
  - unfold BaseEvaluator. by repeat case_match.
  - unfold LayersEvaluator. by repeat case_match.
Qed.

Lemma NewEngine_total : engine_total NewEngine.
Proof.
  intros kind ev f r Hk. apply builtin_total. by eapply NewEngine_lookup.
Qed.

(** Registering an evaluator that returns a result or an error keeps the
    engine total. *)
Lemma Register_total e kind (ev : Evaluator) :
  engine_total e -> (forall f r, ev f r <> (None, None)) ->
  engine_total (Register e kind ev).
Proof.
  intros He Hev k ev' f r. unfold Register; simpl.
  rewrite lookup_insert_Some. intros [[_ <-]|[_ Hk]]; [apply Hev|].
  by eapply He.
Qed.

Lemma builtin_reads ev f f' r :
  ev = UserEvaluator \/ ev = SizeEvaluator \/ ev = LabelEvaluator \/
  ev = EnvEvaluator \/ ev = BaseEvaluator \/ ev = LayersEvaluator ->
  same_read_facts f f' -> ev f r = ev f' r.
Proof.
  intros H (Hu & Hr & Hs & Hl & He & Hb & Hc). builtin_cases H.
  - unfold UserEvaluator. by rewrite Hu, Hr.
  - unfold SizeEvaluator, SizeMB. by rewrite Hs.
  - unfold LabelEvaluator.
    assert (forall req acc, LabelEvaluator_loop f req acc
                            = LabelEvaluator_loop f' req acc) as ->.
    { induction req as [|x req IH]; intros acc; simpl; [done|].
      unfold HasLabel. rewrite Hl. by rewrite !IH. }
    by rewrite Hl.
  - unfold EnvEvaluator. by rewrite He.
  - unfold BaseEvaluator. by rewrite Hb.
  - unfold LayersEvaluator. by rewrite Hc.
Qed.

Lemma Evaluate_rule_reads f f' rule :
  same_read_facts f f' ->
  Evaluate_rule NewEngine f rule = Evaluate_rule NewEngine f' rule.
Proof.
  intros Hf. unfold Evaluate_rule.
  destruct (evaluators NewEngine !! Kind rule) as [ev|] eqn:Hk; [|done].
  by rewrite (builtin_reads ev f f' rule (NewEngine_lookup _ _ Hk) Hf).
Qed.

(** C4. A rule whose kind is not registered, or whose evaluator returns an
    error (such as a deny pattern that does not compile), yields exactly
    one failing result carrying the corresponding message, and the rules
    before and after it are evaluated as they are on their own. *)
Theorem Evaluate_fault_is_one_failing_result
    (e : Engine) (f : Facts) (p : Policy)
    (before : list Rule) (rule : Rule) (after : list Rule) (msg : string) :
  engine_total e ->
  Rules p = before ++ rule :: after ->
  rule_fault e f rule msg ->
  exists rb bad ra,
    Evaluate e f p = Some (rb ++ bad :: ra) /\
    Evaluate e f (set_rules p before) = Some rb /\
    Evaluate e f (set_rules p after) = Some ra /\
    length rb = length before /\ length ra = length after /\
    Passed bad = false /\ Message bad = msg /\ RuleID bad = ID rule.
Proof.
  intros He Hrules Hfault.
  destruct (Evaluate_total e f p He) as (results & Hev & Hall).
  rewrite Hrules in Hall.
  apply Forall2_app_inv_l in Hall as (rb & rest & Hb & Hrest & ->).
  apply Forall2_cons_inv_l in Hrest as (bad & ra & Hbad & Ha & ->).
  exists rb, bad, ra. split; [done|].
  unfold Evaluate; simpl. rewrite !Evaluate_loop_mapM.
  split; [by apply mapM_Some|]. split; [by apply mapM_Some|].
  split; [symmetry; by eapply Forall2_length|].
  split; [symmetry; by eapply Forall2_length|].
  simpl in Hbad. unfold Evaluate_rule in Hbad.
  destruct Hfault as [Hk|ev o err Hk Herr|pre pattern post err Hk Hcfg Hpre Hc].
  - rewrite Hk in Hbad. by inversion Hbad.
  - rewrite Hk, Herr in Hbad. destruct o; by inversion Hbad.
  - rewrite Hk in Hbad.
    assert (forall acc, EnvEvaluator_patterns (pre ++ pattern :: post)
              (Env f) acc
            = inr ("invalid regex pattern " +:+ pattern +:+ ": " +:+ err))
      as Hloop.
    { clear -Hpre Hc. induction Hpre as [|q pre [re Hq] _ IH]; intros acc.
      - simpl. by rewrite Hc.
      - simpl. rewrite Hq. apply IH. }
    unfold EnvEvaluator in Hbad. rewrite Hcfg, Hloop in Hbad.
    by inversion Hbad.
Qed.

End orchestrator.

Section orchestrator_metadata.
Context `{L : GoLib}.
Import facts policy rules spec.

(** What the orchestrator copies into a result: id, name and severity on
    every path; the description on the path where the evaluator
    returned a result. *)
Lemma Evaluate_rule_metadata e f rule res :
  Evaluate_rule e f rule = Some res ->
  RuleID res = ID rule /\ RuleName res = Name rule /\
  Severity res = policy.Severity rule /\
  (Description res = policy.Description rule \/ Description res = "").
Proof.
  unfold Evaluate_rule. intros H.
  destruct (evaluators e !! Kind rule) as [ev|].
  - destruct (ev f rule) as [[r|] [err|]]; inversion H; subst; simpl; tauto.
  - inversion H; subst; simpl; tauto.
Qed.

Lemma Evaluate_rule_description e f rule (ev : Evaluator) result :
  (evaluators e !! Kind rule : option Evaluator) = Some ev ->
  ev f rule = (Some result, None) ->
  exists res, Evaluate_rule e f rule = Some res /\
              Description res = policy.Description rule /\
              Passed res = Passed result /\ Message res = Message result.
Proof.
  intros Hk Hev. unfold Evaluate_rule. rewrite Hk, Hev. by eexists.
Qed.

End orchestrator_metadata.


Section determinism.
Context `{L : GoLib}.
Import facts policy spec spec_stateful.

Ltac split_conditions :=
  repeat match goal with
         | |- context [if ?c then _ else _] => destruct c
         end.

Lemma builtin_computes :
  computes stateful.UserEvaluator rules.UserEvaluator /\
  computes stateful.SizeEvaluator rules.SizeEvaluator /\
  computes stateful.LabelEvaluator rules.LabelEvaluator /\
  computes stateful.EnvEvaluator rules.EnvEvaluator /\
  computes stateful.BaseEvaluator rules.BaseEvaluator /\
  computes stateful.LayersEvaluator rules.LayersEvaluator.
Proof.
  repeat split; intros f r w.
  - unfold stateful.UserEvaluator, rules.UserEvaluator.
    split_conditions; reflexivity.
  - unfold stateful.SizeEvaluator, rules.SizeEvaluator.
    split_conditions; reflexivity.
  - unfold stateful.LabelEvaluator, rules.LabelEvaluator.
    split_conditions; reflexivity.
  - unfold stateful.EnvEvaluator, rules.EnvEvaluator.
    destruct (rules.EnvEvaluator_patterns _ _ _); [|reflexivity].
    split_conditions; reflexivity.
  - unfold stateful.BaseEvaluator, rules.BaseEvaluator.
    split_conditions; reflexivity.
  - unfold stateful.LayersEvaluator, rules.LayersEvaluator.
    split_conditions; reflexivity.
Qed.

Lemma Register_computes e g kind ev gev :
  engine_computes e g -> computes ev gev ->
  engine_computes (stateful.Register e kind ev) (rules.Register g kind gev).
Proof.
  intros He Hev k. unfold stateful.Register, rules.Register; simpl.
  destruct (decide (kind = k)) as [->|Hne].
  - by rewrite !lookup_insert_eq.
  - rewrite !lookup_insert_ne by done. apply He.
Qed.

Lemma NewEngine_computes :
  engine_computes stateful.NewEngine rules.NewEngine.
Proof.
  destruct builtin_computes as (Hu & Hs & Hl & He & Hb & Hy).
  unfold stateful.NewEngine, rules.NewEngine.
  repeat (apply Register_computes; [|done]).
  intros k. simpl. by rewrite !lookup_empty.
Qed.

Lemma assign_last h c gl (res : rules.Result) g :
  stateful.assign (length h) g
    {| stateful.clock := c; stateful.globals := gl;
       stateful.heap := h ++ [res] |}
  = Some (tt, {| stateful.clock := c; stateful.globals := gl;
                 stateful.heap := h ++ [g res] |}).
Proof.
  unfold stateful.assign; simpl.
  rewrite lookup_app_r by lia. rewrite Nat.sub_diag. simpl.
  rewrite insert_app_r_alt by lia. by rewrite Nat.sub_diag.
Qed.

(** One iteration: the pointer appended is new, the cell behind it holds
    the result of [rules.Evaluate_rule], and nothing but the heap
    changes, by growing. *)
Lemma Evaluate_rule_computes e g f rule w :
  engine_computes e g ->
  match rules.Evaluate_rule g f rule with
  | Some res =>
      exists l w',
        stateful.Evaluate_rule e f rule w = Some (l, w') /\
        stateful.clock w' = stateful.clock w /\
        stateful.globals w' = stateful.globals w /\
        later w w' /\
        stateful.heap w' !! l = Some res /\
        (length (stateful.heap w) <= l)%nat
  | None => stateful.Evaluate_rule e f rule w = None
  end.
Proof.
  intros He. specialize (He (Kind rule)).
  unfold rules.Evaluate_rule, stateful.Evaluate_rule.
  destruct (stateful.evaluators e !! Kind rule) as [ev|];
    destruct (rules.evaluators g !! Kind rule) as [gev|]; try done.
  - unfold stateful.bind. rewrite (He f rule w).
    destruct (gev f rule) as [[res|] [err|]]; simpl.
    + eexists _, _. split; [reflexivity|]. simpl.
      split; [done|]. split; [done|]. split.
      * eexists. by rewrite <- app_assoc.
      * rewrite length_app. simpl. split; [|lia].
        rewrite lookup_app_r by (rewrite length_app; simpl; lia).
        rewrite length_app. simpl.
        by replace (length (stateful.heap w) + 1 - (length (stateful.heap w) + 1))%nat
          with 0%nat by lia.
    + unfold allocated. rewrite !assign_last. simpl.
      eexists _, _. split; [reflexivity|]. simpl.
      split; [done|]. split; [done|]. split; [by eexists|].
      split; [|lia]. rewrite lookup_app_r by lia.
      by rewrite Nat.sub_diag.
    + eexists _, _. split; [reflexivity|]. simpl.
      split; [done|]. split; [done|]. split; [by eexists|].
      split; [|lia]. rewrite lookup_app_r by lia.
      by rewrite Nat.sub_diag.
    + done.
  - eexists _, _. split; [reflexivity|]. simpl.
    split; [done|]. split; [done|]. split; [by eexists|].
    split; [|lia]. rewrite lookup_app_r by lia.
    by rewrite Nat.sub_diag.
Qed.

Lemma later_trans w1 w2 w3 : later w1 w2 -> later w2 w3 -> later w1 w3.
Proof.
  intros [m1 H1] [m2 H2]. exists (m1 ++ m2). by rewrite H2, H1, <- app_assoc.
Qed.

Lemma later_lookup w w' l (res : rules.Result) :
  later w w' -> stateful.heap w !! l = Some res ->
  stateful.heap w' !! l = Some res.
Proof. intros [more ->] Hl. by apply lookup_app_l_Some. Qed.

Lemma later_values w w' ptrs results :
  later w w' -> stateful.values w ptrs = Some results ->
  stateful.values w' ptrs = Some results.
Proof.
  intros Hlater. unfold stateful.values. rewrite !mapM_Some.
  intros Hall. eapply Forall2_impl; [exact Hall|].
  intros l res. by apply later_lookup.
Qed.

(** The loop: the pointers appended are those of the iterations, in
    order, and behind them are the results of [rules.Evaluate]. *)
Lemma Evaluate_loop_computes e g f rs :
  engine_computes e g ->
  forall acc w,
    match mapM (rules.Evaluate_rule g f) rs with
    | Some results =>
        exists ptrs w',
          stateful.Evaluate_loop e f rs acc w = Some (acc ++ ptrs, w') /\
          stateful.clock w' = stateful.clock w /\
          stateful.globals w' = stateful.globals w /\
          later w w' /\
          stateful.values w' ptrs = Some results
    | None => stateful.Evaluate_loop e f rs acc w = None
    end.
Proof.
  intros He. induction rs as [|rule rest IH]; intros acc w.
  - simpl. exists [], w. rewrite app_nil_r.
    split; [done|]. split; [done|]. split; [done|].
    split; [exists []; by rewrite app_nil_r|done].
  - cbn [mapM stateful.Evaluate_loop]. unfold stateful.bind.
    pose proof (Evaluate_rule_computes e g f rule w He) as Hrule.
    destruct (rules.Evaluate_rule g f rule) as [res|]; simpl.
    2: { by rewrite Hrule. }
    destruct Hrule as (l & w1 & Hrun & Hc & Hg & Hlater & Hl & _).
    rewrite Hrun. specialize (IH (acc ++ [l]) w1).
    destruct (mapM (rules.Evaluate_rule g f) rest) as [results|]; simpl.
    2: { done. }
    destruct IH as (ptrs & w' & Hloop & Hc' & Hg' & Hlater' & Hvalues).
    exists (l :: ptrs), w'. rewrite Hloop, <- app_assoc.
    split; [done|]. split; [congruence|]. split; [congruence|].
    split; [by eapply later_trans|].
    unfold stateful.values in *. cbn [mapM].
    rewrite (later_lookup w1 w' l res Hlater' Hl). simpl.
    by rewrite Hvalues.
Qed.

(** C2.  Evaluating the same facts and policy twice gives the same
    sequence of results.  The orchestrator and the evaluators run in a
    world that holds the clock, the state of the process and the heap of
    the results, all of which a Go function could read or change.  For an
    engine whose evaluators each compute a function of the facts and of
    the rule and return their result in a new cell (the six built-in
    ones do), there is one sequence [results], fixed by the engine, the
    facts and the policy alone, such that every run, in whatever world,
    returns pointers to exactly these values: the run reads neither the
    clock nor the state, changes neither, and keeps every value allocated
    before; and when the same pair is evaluated again, after the clock
    and the state have changed in any way, the second run returns the
    same values and leaves those of the first run as they were.  With the
    built-in engine the values depend only on the fields of the facts
    the evaluators read and on the rule list: not on the creation time
    of the image, the only time the inputs hold. *)
Theorem Evaluate_deterministic
    (e : stateful.Engine) (g : rules.Engine) (f f' : Facts) (p p' : Policy) :
  (engine_computes e g -> engine_total g ->
   exists results,
     rules.Evaluate g f p = Some results /\
     forall w, exists ptrs w1,
       stateful.Evaluate e f p w = Some (ptrs, w1) /\
       stateful.values w1 ptrs = Some results /\
       stateful.clock w1 = stateful.clock w /\
       stateful.globals w1 = stateful.globals w /\
       later w w1 /\
       forall w', later w1 w' ->
         exists ptrs' w2,
           stateful.Evaluate e f p w' = Some (ptrs', w2) /\
           stateful.values w2 ptrs' = Some results /\
           stateful.values w2 ptrs = Some results) /\
  (same_read_facts f f' -> Rules p = Rules p' ->
   forall w w', exists results ptrs ptrs' w1 w1',
     stateful.Evaluate stateful.NewEngine f p w = Some (ptrs, w1) /\
     stateful.Evaluate stateful.NewEngine f' p' w' = Some (ptrs', w1') /\
     stateful.values w1 ptrs = Some results /\
     stateful.values w1' ptrs' = Some results).
Proof.
  assert (forall e0 g0 f0 p0 results w,
            engine_computes e0 g0 ->
            rules.Evaluate g0 f0 p0 = Some results ->
            exists ptrs w1,
              stateful.Evaluate e0 f0 p0 w = Some (ptrs, w1) /\
              stateful.values w1 ptrs = Some results /\
              stateful.clock w1 = stateful.clock w /\
              stateful.globals w1 = stateful.globals w /\
              later w w1) as Hrun.
  { intros e0 g0 f0 p0 results w He Hev.
    unfold rules.Evaluate in Hev. rewrite Evaluate_loop_mapM in Hev.
    pose proof (Evaluate_loop_computes e0 g0 f0 (Rules p0) He [] w) as Hloop.
    rewrite Hev in Hloop.
    destruct Hloop as (ptrs & w1 & Hloop & Hc & Hg & Hlater & Hvalues).
    by exists ptrs, w1. }
  split.
  - intros He Ht.
    destruct (Evaluate_total g f p Ht) as (results & Hev & _).
    exists results. split; [done|]. intros w.
    destruct (Hrun e g f p results w He Hev)
      as (ptrs & w1 & Hw & Hvalues & Hc & Hg & Hlater).
    exists ptrs, w1. repeat (split; [done|]).
    intros w' Hw'.
    destruct (Hrun e g f p results w' He Hev)
      as (ptrs' & w2 & Hw2 & Hvalues' & _ & _ & Hlater').
    exists ptrs', w2. split; [done|]. split; [done|].
    apply (later_values w1 w2); [|done]. by eapply later_trans.
  - intros Hf Hrules w w'.
    destruct (Evaluate_total rules.NewEngine f p NewEngine_total)
      as (results & Hev & _).
    assert (rules.Evaluate rules.NewEngine f' p' = Some results) as Hev'.
    { rewrite <- Hev. unfold rules.Evaluate.
      rewrite <- Hrules, !Evaluate_loop_mapM.
      apply mapM_ext. intros rule. symmetry. by apply Evaluate_rule_reads. }
    destruct (Hrun _ _ f p results w NewEngine_computes Hev)
      as (ptrs & w1 & Hw & Hvalues & _).
    destruct (Hrun _ _ f' p' results w' NewEngine_computes Hev')
      as (ptrs' & w1' & Hw' & Hvalues' & _).
    by exists results, ptrs, ptrs', w1, w1'.
Qed.

End determinism.

(** Witness of C2: the built-in engine on the example image and policy,
    and on the same image with another creation time, architecture and
    working directory. *)
Lemma Evaluate_deterministic_witness :
  let f' := {| facts.BaseImage := "alpine:3.19";
               facts.Size := 2100 * 1048576;
               facts.Created := "2031-07-09T10:11:12Z";
               facts.Architecture := "arm64"; facts.OS := "linux";
               facts.User := "root"; facts.RunsAsRoot := true;
               facts.HasSetuidBit := true;
               facts.Labels := {[ "maintainer" := "ops" ]};
               facts.Env := ["PATH=/bin"; "DB_PASSWORD=hunter2"];
               facts.ExposedPorts := ["80/tcp"]; facts.Entrypoint := [];
               facts.Cmd := ["sh"]; facts.WorkingDir := "/srv";
               facts.LayerCount := 3; facts.Layers := [];
               facts.FHistory := [] |} in
  spec_stateful.engine_computes stateful.NewEngine rules.NewEngine /\
  spec.engine_total rules.NewEngine /\
  spec.same_read_facts examples.f0 f' /\
  policy.Rules examples.p0 = policy.Rules examples.p0 /\
  (exists results,
     rules.Evaluate rules.NewEngine examples.f0 examples.p0 = Some results /\
     forall w, exists ptrs w1,
       stateful.Evaluate stateful.NewEngine examples.f0 examples.p0 w
       = Some (ptrs, w1) /\
       stateful.values w1 ptrs = Some results /\
       stateful.clock w1 = stateful.clock w /\
       stateful.globals w1 = stateful.globals w /\
       spec_stateful.later w w1 /\
       forall w', spec_stateful.later w1 w' ->
         exists ptrs' w2,
           stateful.Evaluate stateful.NewEngine examples.f0 examples.p0 w'
           = Some (ptrs', w2) /\
           stateful.values w2 ptrs' = Some results /\
           stateful.values w2 ptrs = Some results) /\
  (forall w w', exists results ptrs ptrs' w1 w1',
     stateful.Evaluate stateful.NewEngine examples.f0 examples.p0 w
     = Some (ptrs, w1) /\
     stateful.Evaluate stateful.NewEngine f' examples.p0 w'
     = Some (ptrs', w1') /\
     stateful.values w1 ptrs = Some results /\
     stateful.values w1' ptrs' = Some results).
Proof.
  intros f'.
  assert (spec.same_read_facts examples.f0 f') as Hf
    by (repeat split; reflexivity).
  split; [exact NewEngine_computes|]. split; [exact NewEngine_total|].
  split; [exact Hf|]. split; [reflexivity|].
  destruct (Evaluate_deterministic stateful.NewEngine rules.NewEngine
              examples.f0 f' examples.p0 examples.p0) as [Hsame Hframe].
  split; [exact (Hsame NewEngine_computes NewEngine_total)|].
  exact (Hframe Hf eq_refl).
Defined.

(** The statement is not true of every engine of the model.  An
    evaluator that reads the clock gives one message at one time and
    another at another time. *)
Example ClockEvaluator_depends_on_the_clock :
  let e := stateful.Register stateful.NewEngine "clock" impure.ClockEvaluator in
  (exists ptrs w1,
     stateful.Evaluate e examples.f0 impure.clock_policy (impure.world 1)
     = Some (ptrs, w1) /\
     option_map (map rules.Message) (stateful.values w1 ptrs)
     = Some ["checked at 1"]) /\
  (exists ptrs w1,
     stateful.Evaluate e examples.f0 impure.clock_policy (impure.world 2)
     = Some (ptrs, w1) /\
     option_map (map rules.Message) (stateful.values w1 ptrs)
     = Some ["checked at 2"]).
Proof.
  intros e. split; eexists _, _; split; reflexivity.
Qed.

(** An evaluator that hands out one pointer for every rule: the
    assignments of the second iteration go to the cell of the first, and
    both results carry the second rule's id and severity. *)
Example CachingEvaluator_shares_its_result :
  let e := stateful.Register stateful.NewEngine "cache" impure.CachingEvaluator in
  exists w1,
    stateful.Evaluate e examples.f0 impure.caching_policy (impure.world 0)
    = Some ([0%nat; 0%nat], w1) /\
    option_map (map (fun r => (rules.RuleID r, rules.Severity r)))
               (stateful.values w1 [0%nat; 0%nat])
    = Some [("k2", "high"); ("k2", "high")].
Proof.
  intros e. eexists. split; reflexivity.
Qed.

(** C3 (the code departs from the claim on the description).  On the
    example image, a rule of an unregistered kind and a rule whose
    evaluator returns an error each give a result that carries the rule's
    id, name and severity but an empty description, although both rules
    have a description. *)
Theorem Evaluate_fault_drops_description :
  exists r1 r2,
    rules.Evaluate rules.NewEngine examples.f0
      (examples.with_rules [examples.r_unknown; examples.r_badregex])
    = Some [r1; r2] /\
    rules.RuleID r1 = policy.ID examples.r_unknown /\
    rules.RuleName r1 = policy.Name examples.r_unknown /\
    rules.Severity r1 = policy.Severity examples.r_unknown /\
    rules.Message r1 = "unknown rule kind: totally-made-up" /\
    policy.Description examples.r_unknown = "why r6 matters" /\
    rules.Description r1 = "" /\
    rules.RuleID r2 = policy.ID examples.r_badregex /\
    rules.RuleName r2 = policy.Name examples.r_badregex /\
    rules.Severity r2 = policy.Severity examples.r_badregex /\
    rules.Message r2
    = "evaluation error: invalid regex pattern (: error parsing regexp: missing closing ): `(`" /\
    policy.Description examples.r_badregex = "why r5 matters" /\
    rules.Description r2 = "".
Proof.
  eexists _, _. split; [vm_compute; reflexivity|].
  repeat split.
Qed.

(** Witness of C4: in the example policy the fifth rule holds the deny
    pattern ["("], which does not compile. *)
Lemma Evaluate_fault_is_one_failing_result_witness :
  let before := [examples.r_user; examples.r_size; examples.r_label;
                 examples.r_env] in
  let after := [examples.r_unknown; examples.r_base; examples.r_layers] in
  let msg := "evaluation error: invalid regex pattern (: error parsing regexp: missing closing ): `(`" in
  spec.engine_total rules.NewEngine /\
  policy.Rules examples.p0 = before ++ examples.r_badregex :: after /\
  spec.rule_fault rules.NewEngine examples.f0 examples.r_badregex msg /\
  exists rb bad ra,
    rules.Evaluate rules.NewEngine examples.f0 examples.p0
    = Some (rb ++ bad :: ra) /\
    rules.Evaluate rules.NewEngine examples.f0
      (spec.set_rules examples.p0 before) = Some rb /\
    rules.Evaluate rules.NewEngine examples.f0
      (spec.set_rules examples.p0 after) = Some ra /\
    length rb = length before /\ length ra = length after /\
    rules.Passed bad = false /\ rules.Message bad = msg /\
    rules.RuleID bad = policy.ID examples.r_badregex.
Proof.
  intros before after msg.
  assert (spec.rule_fault rules.NewEngine examples.f0 examples.r_badregex msg)
    as Hfault.
  { apply (spec.fault_deny_pattern rules.NewEngine examples.f0
             examples.r_badregex ["PATH"] "(" []
             "error parsing regexp: missing closing ): `(`").
    - reflexivity.
    - reflexivity.
    - constructor; [|constructor]. eexists. reflexivity.
    - reflexivity. }
  split; [exact NewEngine_total|]. split; [reflexivity|].
  split; [exact Hfault|].
  exact (Evaluate_fault_is_one_failing_result rules.NewEngine examples.f0
           examples.p0 before examples.r_badregex after msg
           NewEngine_total eq_refl Hfault).
Defined.

(** ** The report *)

Section report_counts.
Context `{L : GoLib}.
Import facts policy rules report spec.

Lemma New_loop_counts results passed failed :
  New_loop results passed failed
  = (passed + Z.of_nat (length (List.filter Passed results)),
     failed + Z.of_nat (length (List.filter (fun x => negb (Passed x))
                                            results))).
Proof.
  revert passed failed.
  induction results as [|res rest IH]; intros passed failed; simpl.
  - f_equal; lia.
  - destruct (Passed res); simpl; rewrite IH; f_equal; lia.
Qed.

Lemma filter_length_split (results : list Result) :
  (length (List.filter Passed results)
   + length (List.filter (fun x => negb (Passed x)) results))%nat
  = length results.
Proof.
  induction results as [|res rest IH]; [done|]. simpl.
  destruct (Passed res); simpl; lia.
Qed.

Lemma CountBySeverity_loop_keys results (counts : gmap string Z) key :
  is_Some (counts !! key) ->
  is_Some (CountBySeverity_loop results counts !! key).
Proof.
  revert counts. induction results as [|res rest IH]; intros counts Hk.
  - done.
  - simpl. destruct (Passed res); simpl; apply IH; [done|].
    rewrite lookup_insert_is_Some. destruct (decide (Severity res = key));
      [by left|by right].
Qed.

Lemma CountBySeverity_loop_index results (counts : gmap string Z) sev :
  index (CountBySeverity_loop results counts) sev
  = index counts sev + Z.of_nat (length (failed_with sev results)).
Proof.
  revert counts. induction results as [|res rest IH]; intros counts; simpl.
  - lia.
  - destruct (Passed res); simpl; [apply IH|].
    rewrite IH. unfold index at 1.
    destruct (String.eqb_spec (Severity res) sev) as [->|Hne]; simpl.
    + rewrite lookup_insert_eq. simpl. unfold index. lia.
    + rewrite lookup_insert_ne by done. unfold index. lia.
Qed.

(** C9. The report built from a result sequence has [TotalRules] equal to
    the length of the sequence, [Passed + Failed = TotalRules], a
    by-severity map that holds all five severities, and for every
    severity a count equal to the number of failed results of that
    severity: a failed result adds one to its own severity and a passed
    result adds nothing. *)
Theorem New_counts (now : Time) (img : string) (f : Facts)
    (results : list Result) (p : Policy) :
  let r := New now img f results p in
  TotalRules r = Z.of_nat (length results) /\
  RPassed r + RFailed r = TotalRules r /\
  RPassed r = Z.of_nat (length (List.filter Passed results)) /\
  RFailed r
  = Z.of_nat (length (List.filter (fun x => negb (Passed x)) results)) /\
  Forall (fun sev => is_Some (BySeverity r !! sev)) five_severities /\
  (forall sev : string,
     index (BySeverity r) sev
     = Z.of_nat (length (failed_with sev results))) /\
  (forall (res : Result) (sev : string),
     index (BySeverity (New now img f (results ++ [res]) p)) sev
     = index (BySeverity r) sev
       + (if negb (Passed res) && String.eqb (Severity res) sev
          then 1 else 0)).
Proof.
  unfold New. rewrite New_loop_counts. simpl.
  pose proof (filter_length_split results) as Hsplit.
  split; [done|]. split; [lia|]. split; [lia|]. split; [lia|].
  split; [|split].
  - unfold five_severities, CountBySeverity.
    repeat (apply Forall_cons; split;
            [apply CountBySeverity_loop_keys; exists 0; reflexivity|]).
    apply Forall_nil_2.
  - intros sev. unfold CountBySeverity.
    rewrite CountBySeverity_loop_index.
    match goal with |- index ?m sev + _ = _ =>
      assert (index m sev = 0) as -> end; [|lia].
    unfold index.
    repeat (rewrite lookup_insert; case_decide; [done|]).
    by rewrite lookup_empty.
  - intros res sev. rewrite New_loop_counts. simpl.
    unfold CountBySeverity. rewrite !CountBySeverity_loop_index.
    unfold failed_with. rewrite List.filter_app, length_app. simpl.
    destruct (negb (Passed res) && String.eqb (Severity res) sev);
      simpl; lia.
Qed.

End report_counts.

(** C8 (the code departs from the claim on the severity info).  The
    example image fails a layers rule of severity info; the report counts
    one info failure, but the severity breakdown of the text rendering
    holds no line for it: only critical, high, medium and low are ever
    written. *)
Theorem Text_omits_info_failures :
  let p := examples.with_rules [examples.r_layers] in
  exists res,
    rules.Evaluate rules.NewEngine examples.f0 p = Some [res] /\
    rules.Severity res = "info" /\ rules.Passed res = false /\
    let r := report.New "2024-01-01T00:00:00Z" "img" examples.f0 [res] p in
    report.RFailed r = 1 /\
    report.index (report.BySeverity r) "info" = 1 /\
    report.Text_severity r = spec.unlines ["Failures by severity:"; ""] /\
    report.Text r
    = spec.unlines
        ["BoltGuard Report";
         "================";
         "";
         "Image:    img";
         "Policy:   example (v1.0.0)";
         "Scanned:  2024-01-01T00:00:00Z";
         "";
         "Summary";
         "-------";
         "Total checks: 1";
         "  Passed:     0";
         "  Failed:     1";
         "";
         "Failures by severity:";
         "";
         "Failures";
         "--------";
         "[INFO] check r8";
         "  ID:      r8";
         "  Message: layer count 3 exceeds maximum 2";
         "  Detail:  why r8 matters";
         "";
         "✗ 1 check(s) failed"].
Proof.
  intros p. eexists. split; [vm_compute; reflexivity|].
  repeat split; vm_compute; reflexivity.
Qed.

(** ** Arithmetic of the size in MB *)

Section float64_arith.

Lemma digits2_pos_bounds p :
  2 ^ (Z.pos (digits2_pos p) - 1) <= Z.pos p < 2 ^ Z.pos (digits2_pos p).
Proof.
  assert (forall d, 0 < d -> 2 ^ d = 2 * 2 ^ (d - 1)) as Hpow.
  { intros d Hd. rewrite <- Z.pow_succ_r by lia. f_equal. lia. }
  induction p as [p IH|p IH|]; simpl digits2_pos; [| |simpl; lia].
  all: rewrite Pos2Z.inj_succ.
  all: pose proof (Hpow (Z.pos (digits2_pos p)) ltac:(lia)) as Hd.
  all: replace (Z.succ (Z.pos (digits2_pos p)) - 1)
         with (Z.pos (digits2_pos p)) by lia.
  all: rewrite Z.pow_succ_r by lia; lia.
Qed.

Lemma iter_xO_spec p k :
  Z.pos (Pos.iter xO p k) = Z.pos p * 2 ^ Z.pos k /\
  digits2_pos (Pos.iter xO p k) = (digits2_pos p + k)%positive.
Proof.
  induction k as [|k IH] using Pos.peano_ind.
  - simpl. split; lia.
  - rewrite Pos.iter_succ. destruct IH as [IH1 IH2]. split.
    + rewrite Pos2Z.inj_xO, IH1, Pos2Z.inj_succ, Z.pow_succ_r by lia. lia.
    + simpl. rewrite IH2. lia.
Qed.

Lemma shr_fexp_0 m e l :
  Z.pos (digits2_pos m) = 53 -> -1074 <= e ->
  shr_fexp 53 1024 (Z.pos m) e l = (shr_record_of_loc (Z.pos m) l, e).
Proof.
  intros Hd He. unfold shr_fexp, fexp, emin. cbn [Zdigits2]. rewrite Hd.
  replace (Z.max (53 + e - 53) (3 - 1024 - 53) - e) with 0 by lia.
  reflexivity.
Qed.

Lemma shr_fexp_1 m e :
  Z.pos (digits2_pos m) = 53 -> -1075 <= e ->
  shr_fexp 53 1024 (Z.pos m~0) e loc_Exact
  = ({| shr_m := Z.pos m; shr_r := false; shr_s := false |}, e + 1).
Proof.
  intros Hd He. unfold shr_fexp, fexp, emin. cbn [Zdigits2 digits2_pos].
  rewrite Pos2Z.inj_succ, Hd.
  replace (Z.max (Z.succ 53 + e - 53) (3 - 1024 - 53) - e) with 1 by lia.
  reflexivity.
Qed.

Lemma round_canonical s m e :
  Z.pos (digits2_pos m) = 53 -> -1074 <= e <= 971 ->
  binary_round_aux 53 1024 s (Z.pos m) e loc_Exact = S754_finite s m e.
Proof.
  intros Hd He. unfold binary_round_aux.
  rewrite shr_fexp_0 by lia.
  cbn [shr_record_of_loc loc_of_shr_record round_nearest_even shr_m].
  rewrite shr_fexp_0 by lia.
  cbn [shr_record_of_loc shr_m].
  destruct (Z.leb_spec e (1024 - 53)); [done|lia].
Qed.

Lemma round_one_extra s m e :
  Z.pos (digits2_pos m) = 53 -> -1075 <= e <= 970 ->
  binary_round_aux 53 1024 s (Z.pos m~0) e loc_Exact = S754_finite s m (e + 1).
Proof.
  intros Hd He. unfold binary_round_aux.
  rewrite shr_fexp_1 by lia.
  cbn [shr_record_of_loc loc_of_shr_record round_nearest_even shr_m].
  rewrite shr_fexp_0 by lia.
  cbn [shr_record_of_loc shr_m].
  destruct (Z.leb_spec (e + 1) (1024 - 53)); [done|lia].
Qed.

Lemma round_small s p :
  Z.pos p < 2 ^ 53 ->
  exists m e, binary_round 53 1024 s p 0 = S754_finite s m e /\
    Z.pos (digits2_pos m) = 53 /\ -52 <= e <= 0 /\
    Z.pos m = Z.pos p * 2 ^ (- e).
Proof.
  intros Hp. pose proof (digits2_pos_bounds p) as [Hlo Hhi].
  assert (Z.pos (digits2_pos p) <= 53) as Hd.
  { destruct (Z.le_gt_cases (Z.pos (digits2_pos p)) 53) as [|Hgt]; [done|].
    assert (2 ^ 53 <= 2 ^ (Z.pos (digits2_pos p) - 1))
      by (apply Z.pow_le_mono_r; lia).
    lia. }
  unfold binary_round, shl_align, fexp, emin.
  replace (Z.max (Z.pos (digits2_pos p) + 0 - 53) (3 - 1024 - 53) - 0)
    with (Z.pos (digits2_pos p) - 53) by lia.
  replace (Z.max (Z.pos (digits2_pos p) + 0 - 53) (3 - 1024 - 53))
    with (Z.pos (digits2_pos p) - 53) by lia.
  destruct (Z.pos (digits2_pos p) - 53) as [|k|k] eqn:Hk; try lia.
  - exists p, 0. rewrite round_canonical by lia.
    repeat split; try lia.
  - destruct (iter_xO_spec p k) as [Hv Hdig].
    exists (Pos.iter xO p k), (Z.neg k).
    rewrite round_canonical by lia.
    repeat split; try lia. exact Hv.
Qed.

Lemma of_int_two_20 :
  float64.of_int 1048576 = S754_finite false 4503599627370496 (-32).
Proof. reflexivity. Qed.

Lemma div_two_20 s m e :
  Z.pos (digits2_pos m) = 53 -> -52 <= e <= 0 ->
  float64.div (S754_finite s m e) (float64.of_int 1048576)
  = S754_finite s m (e - 20).
Proof.
  intros Hd He. rewrite of_int_two_20.
  unfold float64.div, float64.prec, float64.emax, SFdiv, SFdiv_core_binary.
  cbn [Zdigits2]. rewrite Hd.
  change (Z.pos (digits2_pos 4503599627370496)) with 53.
  unfold fexp, emin.
  replace (Z.min (Z.max (53 + e - (53 + -32) - 53) (3 - 1024 - 53)) (e - -32))
    with (e - 21) by lia.
  replace (e - -32 - (e - 21)) with 53 by lia.
  rewrite Z.shiftl_mul_pow2 by lia.
  replace (Z.pos m * 2 ^ 53) with (Z.pos m~0 * 4503599627370496) by lia.
  assert (Z.div_eucl (Z.pos m~0 * 4503599627370496) 4503599627370496
          = (Z.pos m~0, 0)) as ->.
  { pose proof (Z.div_eucl_eq (Z.pos m~0 * 4503599627370496) 4503599627370496
                  ltac:(lia)) as Heq.
    pose proof (Z.mod_pos_bound (Z.pos m~0 * 4503599627370496)
                  4503599627370496 ltac:(lia)) as Hb.
    unfold Z.modulo in Hb.
    destruct (Z.div_eucl _ _) as [q r]. f_equal; lia. }
  change (new_location 4503599627370496 0) with loc_Exact.
  rewrite xorb_false_r. rewrite round_one_extra by lia.
  f_equal. lia.
Qed.

Lemma to_int_scaled s m e P :
  -52 <= e <= 0 -> Z.pos m = Z.pos P * 2 ^ (- e) -> Z.pos P < 2 ^ 53 ->
  float64.to_int (S754_finite s m (e - 20))
  = Z.quot (if s then Z.neg P else Z.pos P) 1048576.
Proof.
  intros He Hm HP. unfold float64.to_int, float64.int_indefinite.
  destruct (Z.leb_spec 0 (e - 20)); [lia|].
  replace (- (e - 20)) with (- e + 20) by lia.
  rewrite Z.pow_add_r, Hm by lia.
  rewrite Z.mul_comm, Z.div_mul_cancel_l by lia.
  change (2 ^ 20) with 1048576.
  assert (0 <= Z.pos P / 1048576 < 2 ^ 53) as Hq.
  { split; [apply Z.div_pos; lia|].
    apply Z.div_lt_upper_bound; lia. }
  assert (Z.quot (Z.pos P) 1048576 = Z.pos P / 1048576) as Hquot
    by (apply Z.quot_div_nonneg; lia).
  destruct s.
  - change (Z.neg P) with (- Z.pos P). rewrite Z.quot_opp_l, Hquot by lia.
    destruct (Z.leb_spec (- 2 ^ 63) (- (Z.pos P / 1048576)));
      destruct (Z.ltb_spec (- (Z.pos P / 1048576)) (2 ^ 63)); simpl; lia.
  - rewrite Hquot.
    destruct (Z.leb_spec (- 2 ^ 63) (Z.pos P / 1048576));
      destruct (Z.ltb_spec (Z.pos P / 1048576) (2 ^ 63)); simpl; lia.
Qed.

(** Below 2^53 bytes the conversion to [float64] is exact, the division
    by 2^20 only changes the exponent, and the conversion to [int]
    discards the fraction. *)
Lemma to_int_div_two_20 n :
  - 2 ^ 53 < n < 2 ^ 53 ->
  float64.to_int (float64.div (float64.of_int n) (float64.of_int 1048576))
  = Z.quot n 1048576.
Proof.
  intros Hn. destruct n as [|p|p].
  - reflexivity.
  - unfold float64.of_int at 1, float64.prec, float64.emax, binary_normalize.
    destruct (round_small false p) as (m & e & -> & Hd & He & Hm); [lia|].
    rewrite div_two_20 by done.
    apply (to_int_scaled false m e p); [done|done|lia].
  - unfold float64.of_int at 1, float64.prec, float64.emax, binary_normalize.
    destruct (round_small true p) as (m & e & -> & Hd & He & Hm); [lia|].
    rewrite div_two_20 by done.
    apply (to_int_scaled true m e p); [done|done|lia].
Qed.

(** Above 2^53 bytes the conversion to [float64] rounds first: the
    largest [int64] is displayed as 2^43 MB, one more than its quotient by
    2^20. *)
Example to_int_div_two_20_large :
  float64.to_int (float64.div (float64.of_int (2 ^ 63 - 1))
                              (float64.of_int 1048576)) = 2 ^ 43 /\
  Z.quot (2 ^ 63 - 1) 1048576 = 2 ^ 43 - 1.
Proof. split; reflexivity. Qed.

End float64_arith.

(** ** The built-in evaluators *)

Section size_evaluator.
Context `{L : GoLib}.
Import facts policy rules spec.

(** C6. The size evaluator compares and displays one whole number of
    MB, [int(f.SizeMB())] (below 2^53 bytes: the size in bytes divided by
    2^20, the fraction discarded): it fails exactly when [max_mb] is
    positive and that number exceeds it, naming both numbers; otherwise
    it passes, with a warning message when [warn_mb] is positive and
    exceeded.  An image of 2100 MB with [max_mb] 2048 fails with a message
    containing 2100 and 2048, and with [max_mb] 0 the rule passes. *)
Theorem SizeEvaluator_whole_MB (f : Facts) (r : Rule) :
  let maxMB := GetConfigInt r "max_mb" in
  let warnMB := GetConfigInt r "warn_mb" in
  let sizeMB := float64.to_int (SizeMB f) in
  exists res,
    SizeEvaluator f r = (Some res, None) /\
    (Passed res = false <-> 0 < maxMB /\ maxMB < sizeMB) /\
    (Passed res = false ->
     Message res = "image size " +:+ gostrings.fmt_d sizeMB
                   +:+ "MB exceeds maximum " +:+ gostrings.fmt_d maxMB
                   +:+ "MB") /\
    (Passed res = true -> 0 < warnMB /\ warnMB < sizeMB ->
     Message res = "image size " +:+ gostrings.fmt_d sizeMB
                   +:+ "MB exceeds warning threshold "
                   +:+ gostrings.fmt_d warnMB +:+ "MB") /\
    (Passed res = true -> ~ (0 < warnMB /\ warnMB < sizeMB) ->
     Message res = "image size: " +:+ gostrings.fmt_d sizeMB +:+ "MB") /\
    (maxMB = 0 -> Passed res = true) /\
    (- 2 ^ 53 < Size f < 2 ^ 53 -> sizeMB = Z.quot (Size f) 1048576) /\
    (Size f = 2100 * 1048576 -> maxMB = 2048 ->
     Passed res = false /\
     Message res = "image size 2100MB exceeds maximum 2048MB" /\
     gostrings.Contains (Message res) "2100" = true /\
     gostrings.Contains (Message res) "2048" = true).
Proof.
  intros maxMB warnMB sizeMB. unfold SizeEvaluator.
  fold maxMB warnMB sizeMB.
  assert (Size f = 2100 * 1048576 -> sizeMB = 2100) as Hex.
  { intros Hs. unfold sizeMB, SizeMB. rewrite Hs. by vm_compute. }
  assert (- 2 ^ 53 < Size f < 2 ^ 53 -> sizeMB = Z.quot (Size f) 1048576)
    as Hquot by (intros Hs; by apply to_int_div_two_20).
  destruct (0 <? maxMB) eqn:H1; destruct (maxMB <? sizeMB) eqn:H2; simpl;
    try (destruct (0 <? warnMB) eqn:H3; destruct (warnMB <? sizeMB) eqn:H4;
         simpl);
    eexists; (split; [reflexivity|]); simpl;
    repeat match goal with
           | H : (_ <? _) = true |- _ => apply Z.ltb_lt in H
           | H : (_ <? _) = false |- _ => apply Z.ltb_ge in H
           end;
    repeat split; try done; try lia; intros;
    try (exfalso; lia);
    try (rewrite Hex by done; match goal with
                              | H : maxMB = _ |- _ => rewrite H
                              end; by vm_compute);
    try (specialize (Hex ltac:(done)); exfalso; lia).
Qed.

End size_evaluator.

(** Witness of C6: the example image (2100 MB) against [max_mb: 2048]. *)
Lemma SizeEvaluator_whole_MB_witness :
  facts.Size examples.f0 = 2100 * 1048576 /\
  policy.GetConfigInt examples.r_size "max_mb" = 2048 /\
  - 2 ^ 53 < facts.Size examples.f0 < 2 ^ 53 /\
  float64.to_int (facts.SizeMB examples.f0)
  = Z.quot (facts.Size examples.f0) 1048576 /\
  exists res,
    rules.SizeEvaluator examples.f0 examples.r_size = (Some res, None) /\
    rules.Passed res = false /\
    rules.Message res = "image size 2100MB exceeds maximum 2048MB".
Proof.
  assert (- 2 ^ 53 < facts.Size examples.f0 < 2 ^ 53) as Hrange
    by (split; reflexivity).
  split; [reflexivity|]. split; [reflexivity|]. split; [exact Hrange|].
  destruct (SizeEvaluator_whole_MB examples.f0 examples.r_size)
    as (res & Hres & _ & _ & _ & _ & _ & Hquot & Hex).
  split; [exact (Hquot Hrange)|].
  exists res. split; [exact Hres|].
  destruct (Hex eq_refl eq_refl) as (Hp & Hm & _). split; [exact Hp|exact Hm].
Defined.

Section gostrings_facts.

Lemma prefix_append b c : String.prefix b (b +:+ c) = true.
Proof.
  induction b as [|x b IH]; [by destruct c|].
  change (String.prefix (String x b) (String x (b +:+ c)) = true).
  simpl. destruct (Ascii.ascii_dec x x); [done|congruence].
Qed.

Lemma Contains_unfold s sub :
  gostrings.Contains s sub
  = String.prefix sub s ||
    match s with EmptyString => false | String _ s' => gostrings.Contains s' sub end.
Proof. by destruct s. Qed.

Lemma Contains_append a b c : gostrings.Contains (a +:+ b +:+ c) b = true.
Proof.
  induction a as [|x a IH].
  - change ("" +:+ b +:+ c) with (b +:+ c).
    by rewrite Contains_unfold, prefix_append.
  - change (String x a +:+ b +:+ c) with (String x (a +:+ b +:+ c)).
    rewrite Contains_unfold, IH. apply orb_true_r.
Qed.

Lemma append_assoc (a b c : string) : (a +:+ b) +:+ c = a +:+ b +:+ c.
Proof.
  induction a as [|x a IH]; [done|].
  change (String x ((a +:+ b) +:+ c) = String x (a +:+ b +:+ c)).
  by rewrite IH.
Qed.

Lemma append_empty_r (a : string) : a +:+ "" = a.
Proof.
  induction a as [|x a IH]; [done|].
  change (String x (a +:+ "") = String x a). by rewrite IH.
Qed.

Lemma Join_In x l sep :
  In x l -> exists a c, gostrings.Join l sep = a +:+ x +:+ c.
Proof.
  induction l as [|y rest IH]; [done|].
  intros [->|Hin].
  - destruct rest as [|z rest'].
    + exists "", "". change (x = x +:+ ""). by rewrite append_empty_r.
    + exists "", (sep +:+ gostrings.Join (z :: rest') sep). done.
  - destruct (IH Hin) as (a & c & Heq).
    destruct rest as [|z rest']; [done|].
    exists (y +:+ sep +:+ a), c.
    change (gostrings.Join (y :: z :: rest') sep)
      with (y +:+ sep +:+ gostrings.Join (z :: rest') sep).
    rewrite Heq. by rewrite !append_assoc.
Qed.

End gostrings_facts.

Section env_evaluator.
Context `{L : GoLib}.
Import facts policy rules spec.

Lemma EnvEvaluator_entries_spec re pattern envs acc :
  EnvEvaluator_entries re pattern envs acc
  = acc ++ List.map (violation pattern)
                    (List.filter (regexp_MatchString re) envs).
Proof.
  revert acc. induction envs as [|env rest IH]; intros acc; simpl.
  - by rewrite app_nil_r.
  - destruct (regexp_MatchString re env); simpl; rewrite IH; [|done].
    by rewrite <- app_assoc.
Qed.

Lemma EnvEvaluator_patterns_spec patterns envs acc :
  Forall compiles patterns ->
  EnvEvaluator_patterns patterns envs acc
  = inl (acc ++ violations_of patterns envs).
Proof.
  intros Hall. revert acc.
  induction Hall as [|pattern rest [re Hre] _ IH]; intros acc; simpl.
  - by rewrite app_nil_r.
  - rewrite Hre, IH, EnvEvaluator_entries_spec. f_equal.
    rewrite <- app_assoc. do 2 f_equal.
    unfold matches. rewrite Hre. done.
Qed.

Lemma violations_of_In patterns envs pattern env :
  In pattern patterns -> In env envs -> matches pattern env = true ->
  In (violation pattern env) (violations_of patterns envs).
Proof.
  intros Hp He Hm. unfold violations_of. apply in_flat_map.
  exists pattern. split; [done|]. apply in_map. apply filter_In. done.
Qed.

Lemma violations_of_nonempty patterns envs :
  violations_of patterns envs <> [] <->
  exists pattern env,
    In pattern patterns /\ In env envs /\ matches pattern env = true.
Proof.
  split.
  - intros Hne. destruct (violations_of patterns envs) as [|v vs] eqn:Hv;
      [done|].
    assert (In v (violations_of patterns envs)) as Hin
      by (rewrite Hv; by left).
    apply in_flat_map in Hin as (pattern & Hp & Hin).
    apply in_map_iff in Hin as (env & _ & Hin).
    apply filter_In in Hin as [He Hm]. by exists pattern, env.
  - intros (pattern & env & Hp & He & Hm) Hnil.
    pose proof (violations_of_In _ _ _ _ Hp He Hm) as Hin.
    by rewrite Hnil in Hin.
Qed.

(** The report lines of one pattern depend on the entries only through
    their keys and through which of them the pattern matches. *)
Lemma violations_by_keys pattern envs envs' :
  List.map gostrings.SplitN2_eq_0 envs'
  = List.map gostrings.SplitN2_eq_0 envs ->
  List.map (matches pattern) envs' = List.map (matches pattern) envs ->
  List.map (violation pattern) (List.filter (matches pattern) envs')
  = List.map (violation pattern) (List.filter (matches pattern) envs).
Proof.
  revert envs'. induction envs as [|env rest IH]; intros [|env' rest'];
    simpl; try done.
  intros [= Hk Hks] [= Hm Hms]. rewrite Hm.
  destruct (matches pattern env); simpl; [|by apply IH].
  unfold violation at 1 3. rewrite Hk. f_equal. by apply IH.
Qed.

Lemma violations_of_by_keys patterns envs envs' :
  List.map gostrings.SplitN2_eq_0 envs'
  = List.map gostrings.SplitN2_eq_0 envs ->
  (forall pattern, In pattern patterns ->
     List.map (matches pattern) envs' = List.map (matches pattern) envs) ->
  violations_of patterns envs' = violations_of patterns envs.
Proof.
  intros Hk Hm. unfold violations_of.
  induction patterns as [|pattern rest IH]; simpl; [done|].
  rewrite IH by (intros q Hq; apply Hm; by right).
  f_equal. apply violations_by_keys; [done|]. apply Hm. by left.
Qed.

(** C7, amended.  When every deny pattern compiles, the environment
    evaluator fails exactly when some pattern matches some raw entry; its
    message then is the fixed heading followed by one line per match
    (pattern by pattern, entry by entry) naming the entry's key and the
    pattern.  The message is built from keys and patterns only: entries
    with the same keys that match the same patterns give the same result
    whatever their values.  With the deny pattern [(?i)password] and the
    entry [DB_PASSWORD=hunter2] the rule fails with a message that
    contains [DB_PASSWORD] and not [hunter2]. *)
Theorem EnvEvaluator_reports_keys (f : Facts) (r : Rule) :
  let patterns := GetConfigStringSlice r "deny_patterns" in
  Forall compiles patterns ->
  exists res,
    EnvEvaluator f r = (Some res, None) /\
    (Passed res = false <->
     exists pattern env,
       In pattern patterns /\ In env (Env f) /\
       matches pattern env = true) /\
    (Passed res = false ->
     Message res = "found suspicious env vars: "
                   +:+ gostrings.Join (violations_of patterns (Env f)) "; ") /\
    (forall pattern env,
       In pattern patterns -> In env (Env f) ->
       matches pattern env = true ->
       In (violation pattern env) (violations_of patterns (Env f)) /\
       gostrings.Contains (Message res) (violation pattern env) = true) /\
    (forall f' : Facts,
       List.map gostrings.SplitN2_eq_0 (Env f')
       = List.map gostrings.SplitN2_eq_0 (Env f) ->
       (forall pattern, In pattern patterns ->
          List.map (matches pattern) (Env f')
          = List.map (matches pattern) (Env f)) ->
       EnvEvaluator f' r = EnvEvaluator f r) /\
    (patterns = ["(?i)password"] -> Env f = ["DB_PASSWORD=hunter2"] ->
     matches "(?i)password" "DB_PASSWORD=hunter2" = true ->
     Passed res = false /\
     Message res = "found suspicious env vars: env var DB_PASSWORD matches pattern (?i)password" /\
     gostrings.Contains (Message res) "DB_PASSWORD" = true /\
     gostrings.Contains (Message res) "hunter2" = false).
Proof.
  intros patterns Hall.
  assert (forall f0 : Facts,
            EnvEvaluator f0 r
            = if 0 <? Z.of_nat (length (violations_of patterns (Env f0)))
              then (Some (mkResult false
                      ("found suspicious env vars: "
                       +:+ gostrings.Join
                             (violations_of patterns (Env f0)) "; ")),
                    None)
              else (Some (mkResult true
                      ("no suspicious env vars detected ("
                       +:+ gostrings.fmt_d (Z.of_nat (length (Env f0)))
                       +:+ " total)")), None)) as Hshape.
  { intros f0. unfold EnvEvaluator. fold patterns.
    by rewrite (EnvEvaluator_patterns_spec patterns (Env f0) [] Hall). }
  pose proof (violations_of_nonempty patterns (Env f)) as Hne.
  assert (forall f' : Facts,
            List.map gostrings.SplitN2_eq_0 (Env f')
            = List.map gostrings.SplitN2_eq_0 (Env f) ->
            (forall pattern, In pattern patterns ->
               List.map (matches pattern) (Env f')
               = List.map (matches pattern) (Env f)) ->
            EnvEvaluator f' r = EnvEvaluator f r) as Hindep.
  { intros f' Hk Hm. rewrite !Hshape.
    rewrite (violations_of_by_keys patterns (Env f) (Env f') Hk Hm).
    assert (length (Env f') = length (Env f)) as ->; [|done].
    rewrite <- (length_map gostrings.SplitN2_eq_0 (Env f')), Hk.
    by rewrite length_map. }
  assert (forall pattern env,
            In pattern patterns -> In env (Env f) ->
            matches pattern env = true ->
            In (violation pattern env) (violations_of patterns (Env f)))
    as HIn by (intros; by apply violations_of_In).
  rewrite Hshape.
  destruct (0 <? Z.of_nat (length (violations_of patterns (Env f))))
    eqn:Hlen.
  - pose proof Hlen as Hif. apply Z.ltb_lt in Hlen.
    assert (violations_of patterns (Env f) <> []) as Hnonempty.
    { intros Hnil. rewrite Hnil in Hlen. simpl in Hlen. lia. }
    eexists. split; [reflexivity|].
    cbn [Passed Message mkResult].
    split; [split; [intros _; by apply Hne|done]|].
    split; [done|]. split.
    { intros pattern env Hp He Hm. split; [by apply HIn|].
      destruct (Join_In _ _ "; " (HIn _ _ Hp He Hm)) as (a & c & ->).
      rewrite <- append_assoc. apply Contains_append. }
    split; [intros f' Hk Hm; by rewrite (Hindep f' Hk Hm), Hshape, Hif|].
    intros Hp He Hm. rewrite Hp, He. unfold violations_of. simpl.
    rewrite Hm. simpl. repeat split; by vm_compute.
  - pose proof Hlen as Hif. apply Z.ltb_ge in Hlen.
    assert (violations_of patterns (Env f) = []) as Hnil.
    { destruct (violations_of patterns (Env f)); [done|].
      simpl in Hlen. lia. }
    eexists. split; [reflexivity|].
    cbn [Passed Message mkResult].
    split; [split; [done|]|].
    { intros Hex. apply Hne in Hex. done. }
    split; [done|]. split.
    { intros pattern env Hp He Hm. exfalso.
      pose proof (HIn _ _ Hp He Hm) as Hin. by rewrite Hnil in Hin. }
    split; [intros f' Hk Hm; by rewrite (Hindep f' Hk Hm), Hshape, Hif|].
    intros Hp He Hm. exfalso. apply Hne; [|done].
    exists "(?i)password", "DB_PASSWORD=hunter2".
    rewrite Hp, He. repeat split; try done; by left.
Qed.

End env_evaluator.

(** Witness of C7: the example image and its environment rule. *)
Lemma EnvEvaluator_reports_keys_witness :
  Forall spec.compiles
         (policy.GetConfigStringSlice examples.r_env "deny_patterns") /\
  exists res,
    rules.EnvEvaluator examples.f0 examples.r_env = (Some res, None) /\
    rules.Passed res = false /\
    rules.Message res
    = "found suspicious env vars: env var DB_PASSWORD matches pattern (?i)password".
Proof.
  assert (Forall spec.compiles
            (policy.GetConfigStringSlice examples.r_env "deny_patterns"))
    as Hall.
  { constructor; [|constructor]. eexists. reflexivity. }
  split; [exact Hall|].
  destruct (EnvEvaluator_reports_keys examples.f0 examples.r_env Hall)
    as (res & Hres & Hfail & Hmsg & _).
  exists res. split; [exact Hres|].
  assert (rules.Passed res = false) as Hp.
  { apply Hfail. exists "(?i)password", "DB_PASSWORD=hunter2".
    split; [by left|]. split; [right; by left|reflexivity]. }
  split; [exact Hp|]. rewrite (Hmsg Hp). reflexivity.
Defined.

(** C7 as stated does not hold: with the deny pattern [(?i)password] and
    the entry [DB_PASSWORD=password] every pattern compiles, the rule
    fails, and the message contains the entry's value [password] (it is
    part of the reported pattern). *)
Lemma EnvEvaluator_message_contains_value :
  Forall spec.compiles
         (policy.GetConfigStringSlice examples.r_env "deny_patterns") /\
  exists res env value,
    rules.EnvEvaluator examples.f_weak examples.r_env = (Some res, None) /\
    rules.Passed res = false /\
    In env (facts.Env examples.f_weak) /\
    gostrings.SplitN2_eq_1 env = Some value /\
    gostrings.Contains (rules.Message res) value = true.
Proof.
  split.
  - constructor; [|constructor]. eexists. reflexivity.
  - eexists _, "DB_PASSWORD=password", "password".
    split; [vm_compute; reflexivity|].
    repeat split; try reflexivity. by left.
Qed.

(** ** The configuration bag *)

Section config.
Import policy spec.

Lemma GetConfigStringSlice_loop_spec items result :
  GetConfigStringSlice_loop items result = result ++ string_items items.
Proof.
  revert result. induction items as [|item rest IH]; intros result; simpl.
  - by rewrite app_nil_r.
  - destruct item; rewrite IH; try done.
    simpl. by rewrite <- app_assoc.
Qed.

Lemma string_items_In items s :
  In s (string_items items) <-> In (VString s) items.
Proof.
  unfold string_items. rewrite <- !list_elem_of_In, list_elem_of_omap.
  split.
  - intros (v & Hv & Hs). by destruct v; simplify_eq.
  - intros Hin. by exists (VString s).
Qed.

(** C10. A configuration key that holds a value of the wrong type is
    read like an absent key: [GetConfigBool] gives [false] for a value
    that is not a boolean (such as the string ["true"]), [GetConfigInt]
    gives 0 for a value that is not a number, [GetConfigString] gives the
    empty string for a value that is not a string,
    [GetConfigStringSlice] gives no element for a value that is not a
    sequence, and from a sequence it keeps exactly the string elements,
    in order. *)
Theorem GetConfig_wrong_type_is_absent
    (r : Rule) (cfg : gmap string Value) (key : string) (val : Value) :
  Config r = Some cfg ->
  cfg !! key = Some val ->
  (is_bool val = false ->
   GetConfigBool r key = false /\
   GetConfigBool r key = GetConfigBool (without_key r key) key) /\
  (is_number val = false ->
   GetConfigInt r key = 0 /\
   GetConfigInt r key = GetConfigInt (without_key r key) key) /\
  (is_string val = false ->
   GetConfigString r key = "" /\
   GetConfigString r key = GetConfigString (without_key r key) key) /\
  (is_sequence val = false ->
   GetConfigStringSlice r key = [] /\
   GetConfigStringSlice r key
   = GetConfigStringSlice (without_key r key) key) /\
  (val = VString "true" -> GetConfigBool r key = false) /\
  (forall items, val = VSlice items ->
     GetConfigStringSlice r key = string_items items /\
     (forall s, In s (GetConfigStringSlice r key) <-> In (VString s) items)).
Proof.
  intros Hcfg Hkey.
  unfold GetConfigBool, GetConfigInt, GetConfigString, GetConfigStringSlice,
    without_key; simpl.
  rewrite Hcfg; simpl. rewrite Hkey, lookup_delete_eq.
  split; [by destruct val|]. split; [by destruct val|].
  split; [by destruct val|]. split; [by destruct val|].
  split; [by intros ->|].
  intros items ->. rewrite GetConfigStringSlice_loop_spec. simpl.
  split; [done|]. apply string_items_In.
Qed.

End config.

(** Witness of C10: [allow_root: "true"], a string where a boolean is
    expected. *)
Lemma GetConfig_wrong_type_is_absent_witness :
  policy.Config examples.r_wrong_types
  = Some {[ "allow_root" := policy.VString "true" ]} /\
  ({[ "allow_root" := policy.VString "true" ]} : gmap string policy.Value)
    !! "allow_root" = Some (policy.VString "true") /\
  spec.is_bool (policy.VString "true") = false /\
  policy.GetConfigBool examples.r_wrong_types "allow_root" = false /\
  policy.GetConfigBool examples.r_wrong_types "allow_root"
  = policy.GetConfigBool
      (spec.without_key examples.r_wrong_types "allow_root") "allow_root".
Proof.
  split; [reflexivity|]. split; [reflexivity|]. split; [reflexivity|].
  exact (proj1 (GetConfig_wrong_type_is_absent examples.r_wrong_types
                  {[ "allow_root" := policy.VString "true" ]} "allow_root"
                  (policy.VString "true") eq_refl eq_refl) eq_refl).
Defined.

(** ** Validation and loading *)

Section validation.
Import policy spec.

Lemma validate_rule_ok i rule :
  validate_rule i rule = None <-> rule_well_formed rule.
Proof.
  unfold validate_rule, rule_well_formed, five_severities.
  destruct (String.eqb_spec (ID rule) ""); [by intuition|].
  destruct (String.eqb_spec (Name rule) ""); [by intuition|].
  destruct (String.eqb_spec (Kind rule) ""); [by intuition|].
  destruct (String.eqb_spec (policy.Severity rule) "critical") as [->|];
    [simpl; by intuition|].
  destruct (String.eqb_spec (policy.Severity rule) "high") as [->|];
    [simpl; by intuition|].
  destruct (String.eqb_spec (policy.Severity rule) "medium") as [->|];
    [simpl; by intuition|].
  destruct (String.eqb_spec (policy.Severity rule) "low") as [->|];
    [simpl; by intuition|].
  destruct (String.eqb_spec (policy.Severity rule) "info") as [->|];
    [simpl; by intuition|].
  simpl. split; [done|]. intros (_ & _ & _ & Hs).
  destruct Hs as [?|[?|[?|[?|[?|[]]]]]]; congruence.
Qed.

Lemma Validate_loop_ok i rules :
  Validate_loop i rules = None <-> Forall rule_well_formed rules.
Proof.
  revert i. induction rules as [|rule rest IH]; intros i; simpl.
  - split; [constructor|done].
  - rewrite Forall_cons, <- (validate_rule_ok i rule), <- (IH (i + 1)).
    destruct (validate_rule i rule); [|by intuition].
    split; [done|]. by intros [? _].
Qed.

(** [Validate] accepts exactly the policies with a name, at least one
    rule, and rules that all have an id, a name, a kind and one of the
    five severities. *)
Lemma Validate_ok p :
  Validate p = None <->
  PName p <> "" /\ Rules p <> [] /\ Forall rule_well_formed (Rules p).
Proof.
  unfold Validate.
  destruct (String.eqb_spec (PName p) ""); [by intuition|].
  destruct (Rules p) as [|rule rest]; [simpl; by intuition|].
  change (Nat.eqb (length (rule :: rest)) 0) with false. cbv iota.
  rewrite Validate_loop_ok. by intuition.
Qed.

(** A rule error comes from the first rule, in declaration order, that
    is not well formed, and names it by its index (when the id is
    missing) or by its id, together with the failing field. *)
Lemma Validate_loop_error i rules err :
  Validate_loop i rules = Some err ->
  exists (k : nat) (rule : Rule),
    rules !! k = Some rule /\
    Forall rule_well_formed (take k rules) /\
    validate_rule (i + Z.of_nat k) rule = Some err /\
    (err = "rule " +:+ gostrings.fmt_d (i + Z.of_nat k) +:+ " missing ID" \/
     err = "rule " +:+ ID rule +:+ " missing name" \/
     err = "rule " +:+ ID rule +:+ " missing kind" \/
     err = "rule " +:+ ID rule +:+ " has invalid severity: "
           +:+ policy.Severity rule).
Proof.
  revert i. induction rules as [|rule rest IH]; intros i; simpl; [done|].
  destruct (validate_rule i rule) as [e|] eqn:He.
  - intros [= ->]. exists 0%nat, rule. simpl.
    rewrite Z.add_0_r. repeat split; [constructor|done|].
    unfold validate_rule in He.
    repeat case_match; simplify_eq; tauto.
  - intros H. destruct (IH _ H) as (k & r & Hk & Hpre & Hv & Hshape).
    exists (S k), r.
    replace (i + Z.of_nat (S k)) with (i + 1 + Z.of_nat k) by lia.
    split; [done|]. split; [|done]. simpl.
    constructor; [by apply (validate_rule_ok i)|done].
Qed.

Section loaders.
Variable os_ReadFile : string -> string + string.
Variable defaultPolicyFS_ReadFile : string -> string + string.
Variable yaml_Unmarshal : string -> Policy + string.

(** [LoadFromFile] validates exactly once, right after decoding, and
    returns only policies that pass. *)
Lemma LoadFromFile_validates_once path :
  let '(steps, res) := LoadFromFile os_ReadFile yaml_Unmarshal path in
  (forall p, res = inl p ->
     Validate p = None /\
     steps = [StepReadFile path; StepUnmarshal; StepValidate]) /\
  (In StepUnmarshal steps ->
   (exists err, res = inr ("failed to parse policy YAML: " +:+ err)) \/
   exists pre, steps = pre ++ [StepUnmarshal; StepValidate]) /\
  (validations steps <= 1)%nat.
Proof.
  unfold LoadFromFile, validations.
  destruct (os_ReadFile path) as [data|err]; simpl.
  2: { repeat split; try done; [|lia]. intros [?|[]]; done. }
  destruct (yaml_Unmarshal data) as [p|err]; simpl.
  2: { repeat split; try done; [|lia]. by left; eexists. }
  destruct (Validate p) as [err|] eqn:Hv; simpl.
  - repeat split; try done. right. by exists [StepReadFile path].
  - repeat split; try (intros; simplify_eq; done).
    right. by exists [StepReadFile path].
Qed.

(** [LoadDefault] never validates: what the decoder returns is
    returned as it is. *)
Lemma LoadDefault_never_validates :
  ~ In StepValidate
       (fst (LoadDefault defaultPolicyFS_ReadFile yaml_Unmarshal)) /\
  forall data p,
    defaultPolicyFS_ReadFile "defaults/default.yaml" = inl data ->
    yaml_Unmarshal data = inl p ->
    snd (LoadDefault defaultPolicyFS_ReadFile yaml_Unmarshal) = inl p.
Proof.
  unfold LoadDefault. split.
  - destruct (defaultPolicyFS_ReadFile _) as [data|err]; simpl;
      [destruct (yaml_Unmarshal data); simpl|]; intuition congruence.
  - intros data p -> ->. done.
Qed.
End loaders.

End validation.

(** C5 (the code departs from the claim on the embedded default).  The
    same document, one that decodes to a policy without a name, is
    rejected by [LoadFromFile], whose steps end with the validation, and
    is returned by [LoadDefault], whose steps hold no validation. *)
Theorem LoadDefault_returns_unvalidated_policy :
  policy.LoadDefault examples.embedded examples.decode
  = ([policy.StepReadEmbedded "defaults/default.yaml"; policy.StepUnmarshal],
     inl examples.zero_policy) /\
  spec.validations
    (fst (policy.LoadDefault examples.embedded examples.decode)) = 0%nat /\
  policy.Validate examples.zero_policy = Some "policy must have a name" /\
  policy.LoadFromFile examples.disk examples.decode "policy.yaml"
  = ([policy.StepReadFile "policy.yaml"; policy.StepUnmarshal;
      policy.StepValidate],
     inr "invalid policy: policy must have a name") /\
  spec.validations
    (fst (policy.LoadFromFile examples.disk examples.decode "policy.yaml"))
  = 1%nat.
Proof. repeat split. Qed.

(** * Further properties of the code *)

Section registry.
Context `{L : GoLib}.
Import facts policy rules report spec spec2.

(** X1.  [Register] changes the dispatch of one kind only: rules of any
    other kind are evaluated as before, and so is a whole policy with no
    rule of that kind; for rules of the registered kind the outcome does
    not depend on what the engine held before; registering twice under one
    kind keeps the last evaluator. *)
Theorem Register_dispatch (e : Engine) (kind : string) (ev : Evaluator)
    (f : Facts) :
  (forall rule, Kind rule <> kind ->
     Evaluate_rule (Register e kind ev) f rule = Evaluate_rule e f rule) /\
  (forall e' rule, Kind rule = kind ->
     Evaluate_rule (Register e kind ev) f rule
     = Evaluate_rule (Register e' kind ev) f rule) /\
  (forall p, Forall (fun rule => Kind rule <> kind) (Rules p) ->
     Evaluate (Register e kind ev) f p = Evaluate e f p) /\
  (forall ev', Register (Register e kind ev') kind ev = Register e kind ev).
Proof.
  assert (forall rule, Kind rule <> kind ->
            Evaluate_rule (Register e kind ev) f rule = Evaluate_rule e f rule)
    as Hother.
  { intros rule Hne. unfold Evaluate_rule, Register; simpl.
    by rewrite lookup_insert_ne. }
  split; [exact Hother|]. split; [|split].
  - intros e' rule <-. unfold Evaluate_rule, Register; simpl.
    by rewrite !lookup_insert_eq.
  - intros p Hall. unfold Evaluate. rewrite !Evaluate_loop_mapM.
    induction Hall as [|rule rest Hrule _ IH]; [done|].
    simpl. by rewrite (Hother rule Hrule), IH.
  - intros ev'. unfold Register; simpl. by rewrite insert_insert_eq.
Qed.

(** X2.  [NewEngine] registers the six built-in evaluators under the kinds
    user, size, label, env, base and layers, and nothing else: a rule of
    any other kind gets the failing result with the message
    [unknown rule kind: <kind>], the rule's id, name and severity, and an
    empty description. *)
Theorem NewEngine_kinds (f : Facts) (rule : Rule) :
  (evaluators NewEngine !! "user" = Some UserEvaluator /\
   evaluators NewEngine !! "size" = Some SizeEvaluator /\
   evaluators NewEngine !! "label" = Some LabelEvaluator /\
   evaluators NewEngine !! "env" = Some EnvEvaluator /\
   evaluators NewEngine !! "base" = Some BaseEvaluator /\
   evaluators NewEngine !! "layers" = Some LayersEvaluator) /\
  (evaluators NewEngine !! Kind rule = None <-> ~ In (Kind rule) builtin_kinds) /\
  (~ In (Kind rule) builtin_kinds ->
   Evaluate_rule NewEngine f rule = Some (unknown_kind_result rule)).
Proof.
  assert (evaluators NewEngine !! Kind rule = None
          <-> ~ In (Kind rule) builtin_kinds) as Hnone.
  { unfold NewEngine, Register, builtin_kinds; simpl.
    rewrite !lookup_insert_None, lookup_empty. simpl. intuition congruence. }
  split; [repeat split|]. split; [exact Hnone|].
  intros Hk. apply Hnone in Hk. unfold Evaluate_rule. by rewrite Hk.
Qed.

End registry.

Section aggregates.
Context `{L : GoLib}.
Import facts policy rules report spec spec2.

Lemma CountFailures_loop_spec results count :
  CountFailures_loop results count
  = count + Z.of_nat (length (List.filter (fun x => negb (Passed x)) results)).
Proof.
  revert count. induction results as [|r rest IH]; intros count; simpl.
  - lia.
  - destruct (Passed r); simpl; rewrite IH; lia.
Qed.

Lemma failed_none_iff (results : list Result) :
  length (List.filter (fun x => negb (Passed x)) results) = 0%nat <->
  Forall (fun r => Passed r = true) results.
Proof.
  induction results as [|r rest IH]; simpl.
  - split; [constructor|done].
  - rewrite Forall_cons. destruct (Passed r); simpl; [by intuition|].
    split; [done|]. by intros [? _].
Qed.

(** X3.  [CountFailures] is the number of results that did not pass: it is
    the [Failed] count of the report built from the same results, it lies
    between zero and the number of results, it is zero exactly when every
    result passed, and it is additive over concatenation. *)
Theorem CountFailures_agrees (results : list Result) :
  (forall now img f p, CountFailures results = RFailed (New now img f results p)) /\
  0 <= CountFailures results <= Z.of_nat (length results) /\
  (CountFailures results = 0 <-> Forall (fun r => Passed r = true) results) /\
  (forall more, CountFailures (results ++ more)
                = CountFailures results + CountFailures more).
Proof.
  unfold CountFailures. rewrite CountFailures_loop_spec.
  pose proof (filter_length_split results) as Hsplit.
  split; [|split; [lia|split]].
  - intros now img f p. unfold New. rewrite New_loop_counts. simpl. lia.
  - rewrite <- failed_none_iff. lia.
  - intros more. rewrite !CountFailures_loop_spec, List.filter_app, length_app.
    lia.
Qed.

Lemma failed_with_length_pos sev (results : list Result) :
  (0 < length (failed_with sev results))%nat <->
  Exists (fun r => Passed r = false /\ Severity r = sev) results.
Proof.
  unfold failed_with. induction results as [|r rest IH]; simpl.
  - split; [lia|by intros ?%Exists_nil].
  - rewrite Exists_cons, <- IH.
    destruct (Passed r); simpl; [intuition congruence|].
    destruct (String.eqb_spec (Severity r) sev); simpl; [|intuition congruence].
    split; [by left|lia].
Qed.

(** X4.  [HasCriticalFailures] holds exactly when [CountBySeverity] counts
    a positive number under critical, that is when some failed result has
    the severity critical; it implies a positive [CountFailures]. *)
Theorem HasCriticalFailures_agrees (results : list Result) :
  (HasCriticalFailures results = true <->
   0 < index (CountBySeverity results) "critical") /\
  (HasCriticalFailures results = true <->
   Exists (fun r => Passed r = false /\ Severity r = "critical") results) /\
  (HasCriticalFailures results = true -> 0 < CountFailures results).
Proof.
  assert (HasCriticalFailures results = true <->
          Exists (fun r => Passed r = false /\ Severity r = "critical") results)
    as Hex.
  { unfold HasCriticalFailures. rewrite existsb_exists, Exists_exists.
    setoid_rewrite list_elem_of_In.
    split; intros (r & Hin & Hr); exists r; (split; [done|]).
    - apply andb_true_iff in Hr as [Hp Hs]. apply negb_true_iff in Hp.
      by apply String.eqb_eq in Hs.
    - destruct Hr as [-> ->]. done. }
  assert (index (CountBySeverity results) "critical"
          = Z.of_nat (length (failed_with "critical" results))) as Hidx.
  { unfold CountBySeverity. by rewrite CountBySeverity_loop_index. }
  split; [|split; [exact Hex|]].
  - rewrite Hex, Hidx, <- failed_with_length_pos. lia.
  - intros H. apply Hex in H. unfold CountFailures.
    rewrite CountFailures_loop_spec.
    apply Exists_exists in H as (r & Hin & Hp & _).
    apply list_elem_of_In in Hin.
    assert (In r (List.filter (fun x => negb (Passed x)) results)) as Hf.
    { apply filter_In. by rewrite Hp. }
    destruct (List.filter _ results); [done|]. simpl. lia.
Qed.

Lemma five_sum_failed (results : list Result) :
  Forall (fun r => Passed r = false -> In (Severity r) five_severities) results ->
  (length (failed_with "critical" results)
   + length (failed_with "high" results)
   + length (failed_with "medium" results)
   + length (failed_with "low" results)
   + length (failed_with "info" results))%nat
  = length (List.filter (fun x => negb (Passed x)) results).
Proof.
  unfold failed_with.
  induction 1 as [|r rest Hr _ IH]; [done|]. simpl.
  destruct (Passed r); simpl; [exact IH|].
  destruct (Hr eq_refl) as [<-|[<-|[<-|[<-|[<-|[]]]]]]; simpl; lia.
Qed.

(** X5.  For the results of evaluating a policy that [Validate] accepts,
    the counts of [CountBySeverity] under the five severities add up to
    [CountFailures]: no failure escapes the breakdown by severity. *)
Theorem CountBySeverity_sums_to_CountFailures
    (e : Engine) (f : Facts) (p : Policy) (results : list Result) :
  Validate p = None ->
  Evaluate e f p = Some results ->
  five_sum (CountBySeverity results) = CountFailures results.
Proof.
  intros Hv Hev.
  assert (Forall (fun r => Passed r = false -> In (Severity r) five_severities)
            results) as Hsev.
  { unfold Evaluate in Hev. rewrite Evaluate_loop_mapM in Hev.
    apply mapM_Some in Hev.
    assert (Forall rule_well_formed (Rules p)) as Hwf.
    { unfold Validate in Hv.
      destruct (String.eqb (PName p) ""); [done|].
      destruct (Nat.eqb (length (Rules p)) 0); [done|].
      by apply (Validate_loop_ok 0). }
    induction Hev as [|rule res rules rs Hres _ IH]; [constructor|].
    apply Forall_cons in Hwf as [(_ & _ & _ & Hs) Hwf].
    constructor; [|by apply IH].
    intros _. destruct (Evaluate_rule_metadata _ _ _ _ Hres) as (_ & _ & -> & _).
    exact Hs. }
  unfold five_sum, CountBySeverity, CountFailures.
  rewrite !CountBySeverity_loop_index, CountFailures_loop_spec.
  pose proof (five_sum_failed results Hsev) as Hsum.
  change (index _ "critical") with 0. change (index _ "high") with 0.
  change (index _ "medium") with 0. change (index _ "low") with 0.
  change (index _ "info") with 0. lia.
Qed.

End aggregates.

Section more_evaluators.
Context `{L : GoLib}.
Import facts policy rules report spec spec2.

Lemma LabelEvaluator_loop_spec f required missing :
  LabelEvaluator_loop f required missing
  = missing ++ List.filter (fun l => negb (HasLabel f l)) required.
Proof.
  revert missing. induction required as [|l rest IH]; intros missing; simpl.
  - by rewrite app_nil_r.
  - destruct (HasLabel f l); simpl; rewrite IH; [done|].
    by rewrite <- app_assoc.
Qed.

Lemma HasLabel_false f l : HasLabel f l = false <-> Labels f !! l = None.
Proof.
  unfold HasLabel. rewrite bool_decide_eq_false, <- eq_None_not_Some. done.
Qed.

(** X6.  The label evaluator always returns a result and no error.  It
    fails exactly when some required label is absent from the image's
    labels; the message then lists the absent labels, in the order of the
    rule's list (a label listed twice is reported twice), joined by a comma
    and a space, and so names each of them; when it passes the message
    gives the number of labels of the image. *)
Theorem LabelEvaluator_reports_missing (f : Facts) (r : Rule) :
  let required := GetConfigStringSlice r "required" in
  let missing := List.filter (fun l => negb (HasLabel f l)) required in
  exists res,
    LabelEvaluator f r = (Some res, None) /\
    (Passed res = false <->
     exists l, In l required /\ Labels f !! l = None) /\
    (Passed res = false ->
     Message res = "missing required labels: " +:+ gostrings.Join missing ", ") /\
    (forall l, In l missing <-> In l required /\ Labels f !! l = None) /\
    (forall l, In l required -> Labels f !! l = None ->
       gostrings.Contains (Message res) l = true) /\
    (Passed res = true ->
     Message res = "all required labels present ("
                   +:+ gostrings.fmt_d (Z.of_nat (size (Labels f)))
                   +:+ " total labels)").
Proof.
  intros required missing.
  assert (forall l, In l missing <-> In l required /\ Labels f !! l = None)
    as Hmissing.
  { intros l. unfold missing. rewrite filter_In, negb_true_iff.
    by rewrite HasLabel_false. }
  unfold LabelEvaluator. fold required.
  rewrite LabelEvaluator_loop_spec. simpl. fold missing.
  destruct (0 <? Z.of_nat (length missing)) eqn:Hlen.
  - apply Z.ltb_lt in Hlen. eexists. split; [reflexivity|].
    cbn [Passed Message mkResult].
    split.
    { split; [intros _|done]. destruct missing as [|l rest] eqn:Hm;
        [simpl in Hlen; lia|].
      exists l. apply Hmissing. by left. }
    split; [done|]. split; [exact Hmissing|]. split; [|done].
    intros l Hin Hnone.
    destruct (Join_In l missing ", " (proj2 (Hmissing l) (conj Hin Hnone)))
      as (a & c & ->).
    rewrite <- append_assoc. apply Contains_append.
  - apply Z.ltb_ge in Hlen.
    assert (missing = []) as Hnil
      by (destruct missing; [done|simpl in Hlen; lia]).
    eexists. split; [reflexivity|].
    cbn [Passed Message mkResult].
    split.
    { split; [done|]. intros (l & Hin & Hnone).
      pose proof (proj2 (Hmissing l) (conj Hin Hnone)) as Hl.
      by rewrite Hnil in Hl. }
    split; [done|]. split; [exact Hmissing|]. split; [|done].
    intros l Hin Hnone.
    pose proof (proj2 (Hmissing l) (conj Hin Hnone)) as Hl.
    by rewrite Hnil in Hl.
Qed.

(** X7.  The base-image evaluator always returns a result and no error.
    With [allow_unknown] set it never fails.  Without it, it passes exactly
    when the base image is known (neither empty nor [unknown]) and some
    allowed prefix is a prefix of it, both in lower case; so an empty
    allowlist fails every image.  A known image with a matching prefix
    passes with the message [base image: <image>] whatever the flag. *)
Theorem BaseEvaluator_decision (f : Facts) (r : Rule) :
  let allowed := GetConfigStringSlice r "allowed_prefixes" in
  let known := negb (String.eqb (BaseImage f) ""
                     || String.eqb (BaseImage f) "unknown") in
  let listed :=
    existsb (fun prefix =>
               gostrings.HasPrefix (strings_ToLower (BaseImage f))
                                   (strings_ToLower prefix)) allowed in
  exists res,
    BaseEvaluator f r = (Some res, None) /\
    (GetConfigBool r "allow_unknown" = true -> Passed res = true) /\
    (GetConfigBool r "allow_unknown" = false ->
     Passed res = known && listed) /\
    (GetConfigBool r "allow_unknown" = false -> allowed = [] ->
     Passed res = false) /\
    (known = true -> listed = true ->
     Passed res = true /\ Message res = "base image: " +:+ BaseImage f).
Proof.
  intros allowed known listed. unfold BaseEvaluator.
  fold allowed. unfold known, listed.
  destruct (String.eqb (BaseImage f) "" || String.eqb (BaseImage f) "unknown");
    destruct (GetConfigBool r "allow_unknown"); simpl;
    try (destruct (existsb _ allowed) eqn:Hl; simpl);
    eexists; (split; [reflexivity|]); simpl;
    repeat split; try done; intros; subst; simpl in *; try done.
  all: match goal with
       | H : _ = [] |- _ => rewrite H in *; simpl in *; done
       end.
Qed.

End more_evaluators.

Section thresholds.
Context `{L : GoLib}.
Import facts policy rules report spec spec2.

Lemma LayersEvaluator_fails f r :
  exists res,
    LayersEvaluator f r = (Some res, None) /\
    (Passed res = false <->
     0 < GetConfigInt r "max_layers" /\
     GetConfigInt r "max_layers" < LayerCount f).
Proof.
  unfold LayersEvaluator.
  destruct (0 <? GetConfigInt r "max_layers") eqn:H1;
    destruct (GetConfigInt r "max_layers" <? LayerCount f) eqn:H2; simpl;
    try (destruct (0 <? GetConfigInt r "warn_layers");
         destruct (GetConfigInt r "warn_layers" <? LayerCount f); simpl);
    eexists; (split; [reflexivity|]); simpl;
    rewrite ?Z.ltb_lt, ?Z.ltb_ge in *; split; try done; lia.
Qed.

(** X8.  The layer-count check is monotone: if an image fails a rule, so
    does every image with at least as many layers, and if an image passes,
    so does every image with at most as many layers.  A [max_layers] that is
    zero or negative disables the check. *)
Theorem LayersEvaluator_monotone (f f' : Facts) (r : Rule) :
  LayerCount f <= LayerCount f' ->
  exists res res',
    LayersEvaluator f r = (Some res, None) /\
    LayersEvaluator f' r = (Some res', None) /\
    (Passed res = false -> Passed res' = false) /\
    (Passed res' = true -> Passed res = true) /\
    (GetConfigInt r "max_layers" <= 0 -> Passed res = true /\ Passed res' = true).
Proof.
  intros Hle.
  destruct (LayersEvaluator_fails f r) as (res & Hres & Hfail).
  destruct (LayersEvaluator_fails f' r) as (res' & Hres' & Hfail').
  exists res, res'. split; [done|]. split; [done|].
  assert (Passed res = false -> Passed res' = false) as Hmono.
  { intros Hp. apply Hfail'. apply Hfail in Hp. lia. }
  split; [exact Hmono|]. split.
  - destruct (Passed res); [done|]. intros Hp'. rewrite Hmono in Hp'; done.
  - intros Hmax. split.
    + destruct (Passed res); [done|]. destruct (proj1 Hfail eq_refl). lia.
    + destruct (Passed res'); [done|]. destruct (proj1 Hfail' eq_refl). lia.
Qed.

Lemma SizeEvaluator_fails f r :
  exists res,
    SizeEvaluator f r = (Some res, None) /\
    (Passed res = false <->
     0 < GetConfigInt r "max_mb" /\
     GetConfigInt r "max_mb" < float64.to_int (SizeMB f)).
Proof.
  unfold SizeEvaluator.
  destruct (0 <? GetConfigInt r "max_mb") eqn:H1;
    destruct (GetConfigInt r "max_mb" <? float64.to_int (SizeMB f)) eqn:H2;
    simpl;
    try (destruct (0 <? GetConfigInt r "warn_mb");
         destruct (GetConfigInt r "warn_mb" <? float64.to_int (SizeMB f));
         simpl);
    eexists; (split; [reflexivity|]); simpl;
    rewrite ?Z.ltb_lt, ?Z.ltb_ge in *; split; try done; lia.
Qed.

(** X9.  The size check is monotone for sizes below 2^53 bytes: if an
    image fails a rule so does every image at least as large, and if an
    image passes so does every smaller one.  An image whose size is below
    [max_mb + 1] mebibytes passes: the part of a mebibyte above the limit
    is not counted. *)
Theorem SizeEvaluator_monotone (f f' : Facts) (r : Rule) :
  0 <= Size f -> Size f <= Size f' -> Size f' < 2 ^ 53 ->
  exists res res',
    SizeEvaluator f r = (Some res, None) /\
    SizeEvaluator f' r = (Some res', None) /\
    (Passed res = false -> Passed res' = false) /\
    (Passed res' = true -> Passed res = true) /\
    (Size f' < 1048576 * (GetConfigInt r "max_mb" + 1) -> Passed res' = true).
Proof.
  intros H0 Hle Hhi.
  destruct (SizeEvaluator_fails f r) as (res & Hres & Hfail).
  destruct (SizeEvaluator_fails f' r) as (res' & Hres' & Hfail').
  unfold SizeMB in Hfail, Hfail'.
  change (1024 * 1024) with 1048576 in Hfail, Hfail'.
  rewrite to_int_div_two_20 in Hfail by lia.
  rewrite to_int_div_two_20 in Hfail' by lia.
  rewrite Z.quot_div_nonneg in Hfail by lia.
  rewrite Z.quot_div_nonneg in Hfail' by lia.
  pose proof (Z.div_le_mono (Size f) (Size f') 1048576 ltac:(lia) Hle) as Hdiv.
  exists res, res'. split; [done|]. split; [done|].
  assert (Passed res = false -> Passed res' = false) as Hmono.
  { intros Hp. apply Hfail'. apply Hfail in Hp. lia. }
  split; [exact Hmono|]. split.
  - destruct (Passed res); [done|]. intros Hp'. rewrite Hmono in Hp'; done.
  - intros Hsmall. destruct (Passed res'); [done|].
    destruct (proj1 Hfail' eq_refl) as [Hpos Hlt].
    assert (Size f' / 1048576 < GetConfigInt r "max_mb" + 1); [|lia].
    apply Z.div_lt_upper_bound; lia.
Qed.

Lemma to_int_of_int n :
  - 2 ^ 53 < n < 2 ^ 53 -> float64.to_int (float64.of_int n) = n.
Proof.
  intros Hn. destruct n as [|p|p]; [done| |].
  - unfold float64.of_int, float64.prec, float64.emax, binary_normalize.
    destruct (round_small false p) as (m & e & -> & Hd & He & Hm); [lia|].
    unfold float64.to_int, float64.int_indefinite. rewrite Hm.
    assert ((if 0 <=? e then Z.pos p * 2 ^ (- e) * 2 ^ e
             else Z.pos p * 2 ^ (- e) / 2 ^ (- e)) = Z.pos p) as ->.
    { destruct (Z.leb_spec 0 e).
      - replace e with 0 by lia. simpl. lia.
      - apply Z.div_mul. lia. }
    destruct (Z.leb_spec (- 2 ^ 63) (Z.pos p));
      destruct (Z.ltb_spec (Z.pos p) (2 ^ 63)); simpl; lia.
  - unfold float64.of_int, float64.prec, float64.emax, binary_normalize.
    destruct (round_small true p) as (m & e & -> & Hd & He & Hm); [lia|].
    unfold float64.to_int, float64.int_indefinite. rewrite Hm.
    assert ((if 0 <=? e then Z.pos p * 2 ^ (- e) * 2 ^ e
             else Z.pos p * 2 ^ (- e) / 2 ^ (- e)) = Z.pos p) as ->.
    { destruct (Z.leb_spec 0 e).
      - replace e with 0 by lia. simpl. lia.
      - apply Z.div_mul. lia. }
    destruct (Z.leb_spec (- 2 ^ 63) (- Z.pos p));
      destruct (Z.ltb_spec (- Z.pos p) (2 ^ 63)); simpl; lia.
Qed.

(** X10.  [GetConfigInt] reads the same number from the three encodings
    the decoder can produce: an [int], an [int64] and a [float64] holding
    an integer below 2^53 in absolute value. *)
Theorem GetConfigInt_number_encodings
    (r : Rule) (cfg : gmap string Value) (key : string) (val : Value) (n : Z) :
  Config r = Some cfg ->
  cfg !! key = Some val ->
  - 2 ^ 53 < n < 2 ^ 53 ->
  val = VInt n \/ val = VInt64 n \/ val = VFloat64 (float64.of_int n) ->
  GetConfigInt r key = n.
Proof.
  intros Hcfg Hkey Hn Hval. unfold GetConfigInt. rewrite Hcfg, Hkey.
  destruct Hval as [->|[->| ->]]; try done. by apply to_int_of_int.
Qed.

End thresholds.

Section env_access.
Context `{L : GoLib}.
Import facts policy rules report spec spec2.

Lemma drop_bytes_append p v : drop_bytes (String.length p) (p +:+ v) = v.
Proof. induction p as [|c p IH]; [by destruct v|exact IH]. Qed.

Lemma SplitN2_eq_join e v :
  gostrings.SplitN2_eq_1 e = Some v ->
  e = gostrings.SplitN2_eq_0 e +:+ "=" +:+ v.
Proof.
  induction e as [|c e IH]; simpl; [done|].
  destruct (Ascii.eqb_spec c "="%char) as [->|Hne].
  - by intros [= ->].
  - intros Hv. change (String c e = String c (gostrings.SplitN2_eq_0 e +:+ "=" +:+ v)).
    f_equal. by apply IH.
Qed.

Lemma SplitN2_eq_0_no_eq e :
  gostrings.Contains (gostrings.SplitN2_eq_0 e) "=" = false.
Proof.
  induction e as [|c e IH]; simpl; [done|].
  destruct (Ascii.eqb_spec c "="%char) as [->|Hne]; [done|].
  rewrite Contains_unfold, IH. unfold String.prefix.
  destruct (Ascii.ascii_dec "=" c) as [<-|]; [done|]. done.
Qed.

Lemma HasEnvVar_false_iff f key :
  HasEnvVar f key = false <->
  Forall (fun e => gostrings.HasPrefix e (key +:+ "=") = false) (Env f).
Proof.
  unfold HasEnvVar. induction (Env f) as [|e rest IH]; simpl.
  - split; [constructor|done].
  - rewrite Forall_cons, orb_false_iff, IH. done.
Qed.

(** X11.  [HasEnvVar] is false exactly when no entry of the environment
    starts with the key followed by [=], and [GetEnvVar] then returns the
    empty string.  Otherwise the first such entry decides: [GetEnvVar]
    returns what follows the [=] in it, whatever later entries hold. *)
Theorem GetEnvVar_first_match (f : Facts) (key : string) :
  (HasEnvVar f key = false <->
   Forall (fun e => gostrings.HasPrefix e (key +:+ "=") = false) (Env f)) /\
  (HasEnvVar f key = false -> GetEnvVar f key = "") /\
  (forall pre v post,
     Env f = pre ++ (key +:+ "=" +:+ v) :: post ->
     Forall (fun e => gostrings.HasPrefix e (key +:+ "=") = false) pre ->
     HasEnvVar f key = true /\ GetEnvVar f key = v).
Proof.
  split; [apply HasEnvVar_false_iff|]. split.
  - rewrite HasEnvVar_false_iff. unfold GetEnvVar.
    induction 1 as [|e rest He _ IH]; simpl; [done|]. by rewrite He.
  - intros pre v post Henv Hpre. split.
    + destruct (HasEnvVar f key) eqn:Hhas; [done|].
      apply HasEnvVar_false_iff in Hhas. rewrite Henv in Hhas.
      apply Forall_app in Hhas as [_ Hhas].
      apply Forall_cons in Hhas as [Hhas _].
      unfold gostrings.HasPrefix in Hhas.
      rewrite <- append_assoc, prefix_append in Hhas. done.
    + unfold GetEnvVar. rewrite Henv. clear Henv.
      induction Hpre as [|e rest He _ IH]; simpl.
      * unfold gostrings.HasPrefix.
        rewrite <- append_assoc, prefix_append.
        apply drop_bytes_append.
      * by rewrite He.
Qed.

(** X12.  Splitting an environment entry at its first [=], as the
    environment evaluator does, gives a key that holds no [=] and a value
    such that the entry is the key, [=] and the value; [HasEnvVar] finds
    that key. *)
Theorem env_entry_key_value (f : Facts) (e v : string) :
  In e (Env f) ->
  gostrings.SplitN2_eq_1 e = Some v ->
  e = gostrings.SplitN2_eq_0 e +:+ "=" +:+ v /\
  gostrings.Contains (gostrings.SplitN2_eq_0 e) "=" = false /\
  HasEnvVar f (gostrings.SplitN2_eq_0 e) = true.
Proof.
  intros Hin Hv. pose proof (SplitN2_eq_join e v Hv) as Hjoin.
  split; [exact Hjoin|]. split; [apply SplitN2_eq_0_no_eq|].
  remember (gostrings.SplitN2_eq_0 e) as key eqn:Hkey. clear Hkey Hv.
  destruct (HasEnvVar f key) eqn:Hhas; [done|].
  apply HasEnvVar_false_iff in Hhas.
  rewrite Forall_forall in Hhas.
  specialize (Hhas e (proj2 (list_elem_of_In _ _) Hin)).
  unfold gostrings.HasPrefix in Hhas.
  rewrite Hjoin, <- append_assoc, prefix_append in Hhas. done.
Qed.

End env_access.

Section extract.
Context `{L : GoLib}.
Import facts policy rules spec2.
Variable fromRegex_FindStringSubmatch : string -> list string.
Variable strings_Fields : string -> list string.

Local Abbreviation Extract := (extraction.Extract fromRegex_FindStringSubmatch strings_Fields).
Local Abbreviation inferBaseImage := (extraction.inferBaseImage fromRegex_FindStringSubmatch strings_Fields).
Local Abbreviation candidate := (history_candidate fromRegex_FindStringSubmatch strings_Fields).

Lemma wrap64_range x : - 2 ^ 63 <= image.wrap64 x < 2 ^ 63.
Proof.
  unfold image.wrap64.
  pose proof (Z.mod_pos_bound (x + 2 ^ 63) (2 ^ 64) ltac:(lia)). lia.
Qed.

Lemma wrap64_small x : - 2 ^ 63 <= x < 2 ^ 63 -> image.wrap64 x = x.
Proof.
  intros Hx. unfold image.wrap64.
  rewrite Z.mod_small by lia. lia.
Qed.

Lemma wrap64_add x y : image.wrap64 (image.wrap64 x + y) = image.wrap64 (x + y).
Proof.
  unfold image.wrap64.
  replace ((x + 2 ^ 63) mod 2 ^ 64 - 2 ^ 63 + y + 2 ^ 63)
    with ((x + 2 ^ 63) mod 2 ^ 64 + y) by lia.
  replace (x + y + 2 ^ 63) with ((x + 2 ^ 63) + y) by lia.
  by rewrite Zplus_mod_idemp_l.
Qed.

Lemma Extract_layers_spec layers acc :
  extraction.Extract_layers layers acc
  = acc ++ map (fun layer =>
                  {| Digest := image.Hash_String (fst (image.Layer_Digest layer));
                     LayerSize := fst (image.Layer_Size layer);
                     CreatedBy := "" |}) layers.
Proof.
  revert acc. induction layers as [|layer rest IH]; intros acc; simpl.
  - by rewrite app_nil_r.
  - by rewrite IH, <- app_assoc.
Qed.

Lemma Size_loop_ok layers total t :
  image.Size_loop layers total = inl t ->
  Forall (fun l => snd (image.Layer_Size l) = None) layers /\
  image.wrap64 t = image.wrap64 (total + sum_sizes (extraction.Extract_layers layers [])).
Proof.
  rewrite Extract_layers_spec. simpl.
  revert total. induction layers as [|layer rest IH]; intros total; simpl.
  - intros [= ->]. split; [constructor|]. f_equal. lia.
  - destruct (image.Layer_Size layer) as [size [err|]] eqn:Hsize; [done|].
    intros Hloop. apply IH in Hloop as [Hall Ht]. split.
    + constructor; [by rewrite Hsize|done].
    + rewrite Ht, wrap64_add. simpl. f_equal. lia.
Qed.

Lemma Size_loop_range layers total t :
  - 2 ^ 63 <= total < 2 ^ 63 ->
  image.Size_loop layers total = inl t -> - 2 ^ 63 <= t < 2 ^ 63.
Proof.
  revert total. induction layers as [|layer rest IH]; intros total Htotal; simpl.
  - by intros [= <-].
  - destruct (image.Layer_Size layer) as [size [err|]]; [done|].
    apply IH, wrap64_range.
Qed.

Lemma Size_loop_error layers total :
  (exists err, image.Size_loop layers total = inr err) <->
  Exists layer_fails layers.
Proof.
  revert total. induction layers as [|layer rest IH]; intros total; simpl.
  - split; [by intros [? ?]|by rewrite Exists_nil].
  - rewrite Exists_cons. unfold layer_fails at 1.
    destruct (image.Layer_Size layer) as [size [err|]]; simpl.
    + split; [by left|by exists err].
    + rewrite IH. split; [by right|]. by intros [?|?].
Qed.

(** X13.  Facts that [Extract] returns are consistent: [LayerCount] is the
    number of layer facts, one per layer of the image; [RunsAsRoot] holds
    exactly when the user is empty, [root] or [0]; [Size] is what
    [Image.Size] returns, the sum of the layer sizes wrapped to 64 bits,
    and the sum itself when the sizes are not negative and the sum is below
    2^63; no layer fact has a [CreatedBy]. *)
Theorem Extract_facts (img : image.Image) (f : Facts) :
  Extract img = inl f ->
  LayerCount f = Z.of_nat (length (Layers f)) /\
  length (Layers f) = length (image.Layers img) /\
  (RunsAsRoot f = true <-> User f = "" \/ User f = "root" \/ User f = "0") /\
  image.Size img = inl (Size f) /\
  Size f = image.wrap64 (sum_sizes (Layers f)) /\
  (Forall (fun l => 0 <= LayerSize l) (Layers f) ->
   sum_sizes (Layers f) < 2 ^ 63 -> Size f = sum_sizes (Layers f)) /\
  Forall (fun l => CreatedBy l = "") (Layers f).
Proof.
  unfold extraction.Extract.
  destruct (image.Config img) as [cfg|]; [|done].
  destruct (image.Size img) as [size|err] eqn:Hsize; [|done].
  intros [= <-]; simpl.
  pose proof Hsize as Hloop. unfold image.Size in Hloop.
  pose proof (Size_loop_range _ 0 _ ltac:(lia) Hloop) as Hrange.
  apply Size_loop_ok in Hloop as [_ Hsum].
  rewrite wrap64_small in Hsum by done. simpl in Hsum.
  rewrite Extract_layers_spec in *. simpl in *.
  rewrite length_map.
  split; [done|]. split; [done|]. split; [|split; [done|split; [done|split]]].
  - rewrite !orb_true_iff, !String.eqb_eq. tauto.
  - intros Hpos Hlt. rewrite Hsum. apply wrap64_small.
    split; [|done].
    assert (0 <= sum_sizes (map (fun layer =>
                  {| Digest := image.Hash_String (fst (image.Layer_Digest layer));
                     LayerSize := fst (image.Layer_Size layer);
                     CreatedBy := "" |}) (image.Layers img))); [|lia].
    clear -Hpos. induction Hpos as [|l rest Hl _ IH]; simpl; lia.
  - apply Forall_map. by apply Forall_true.
Qed.

(** X14.  [Extract] fails in two cases only: the image has no config
    (error [image has no config]), or it has one and the [Size()] of some
    layer fails (error [failed to calculate size: ...]).  An error of a
    layer's [Digest()] never makes it fail. *)
Theorem Extract_errors (img : image.Image) :
  (image.Config img = None -> Extract img = inr "image has no config") /\
  (is_Some (image.Config img) ->
   (exists err, Extract img = inr ("failed to calculate size: " +:+ err)) <->
   Exists layer_fails (image.Layers img)) /\
  ((exists f, Extract img = inl f) <->
   is_Some (image.Config img) /\ ~ Exists layer_fails (image.Layers img)).
Proof.
  unfold extraction.Extract.
  pose proof (Size_loop_error (image.Layers img) 0) as Herr.
  fold (image.Size img) in Herr.
  destruct (image.Config img) as [cfg|].
  - split; [done|]. destruct (image.Size img) as [size|err].
    + split.
      * intros _. rewrite <- Herr. split; [by intros [? ?]|by intros [? ?]].
      * split; [|by eexists]. intros _. split; [by eexists|].
        rewrite <- Herr. by intros [? ?].
    + split.
      * intros _. rewrite <- Herr. split; by exists err.
      * split; [by intros [? ?]|]. intros [_ Hno]. destruct Hno.
        apply Herr. by exists err.
  - split; [done|]. split; [by intros [? ?]|].
    split; [by intros [? ?]|]. by intros [[? ?] _].
Qed.

Lemma inferBaseImage_loop_spec history :
  extraction.inferBaseImage_loop fromRegex_FindStringSubmatch strings_Fields history
  = default "unknown" (head (omap candidate history)).
Proof.
  induction history as [|h rest IH]; [done|].
  simpl. unfold history_candidate.
  destruct (String.eqb (HCreatedBy h) ""); [exact IH|].
  destruct (1 <? length (fromRegex_FindStringSubmatch (HCreatedBy h)))%nat; [done|].
  destruct (gostrings.Contains (strings_ToLower (HCreatedBy h)) "from"); [|exact IH].
  destruct (extraction.inferBaseImage_parts (strings_Fields (HCreatedBy h))); [done|exact IH].
Qed.

Lemma inferBaseImage_parts_Some parts base :
  extraction.inferBaseImage_parts parts = Some base ->
  exists pre word post,
    parts = pre ++ word :: base :: post /\ strings_ToLower word = "from" /\
    Forall (fun w => strings_ToLower w <> "from") pre.
Proof.
  induction parts as [|part rest IH]; [done|]. simpl.
  destruct (String.eqb_spec (strings_ToLower part) "from") as [Heq|Hne].
  - destruct rest as [|next rest']; [done|]. intros [= ->].
    by exists [], part, rest'.
  - intros Hrest. destruct (IH Hrest) as (pre & word & post & -> & Hword & Hpre).
    exists (part :: pre), word, post. split; [done|]. split; [done|].
    by constructor.
Qed.

(** X15.  [inferBaseImage] returns what the first history entry that
    yields a candidate yields, and [unknown] when none does (in particular
    for an empty history).  Entries with an empty [CreatedBy] can be left
    out.  A candidate is the group of the pattern's match in [CreatedBy],
    or, when the pattern does not match, the field that follows the first
    field equal to [from] up to case. *)
Theorem inferBaseImage_first_candidate (history : list History) :
  inferBaseImage history = default "unknown" (head (omap candidate history)) /\
  inferBaseImage history
  = inferBaseImage (List.filter (fun h => negb (String.eqb (HCreatedBy h) "")) history) /\
  (forall pre h post base,
     history = pre ++ h :: post ->
     Forall (fun h' => candidate h' = None) pre ->
     candidate h = Some base -> inferBaseImage history = base) /\
  (Forall (fun h => candidate h = None) history -> inferBaseImage history = "unknown") /\
  (forall h base,
     candidate h = Some base ->
     HCreatedBy h <> "" /\
     (nth_error (fromRegex_FindStringSubmatch (HCreatedBy h)) 1 = Some base \/
      (length (fromRegex_FindStringSubmatch (HCreatedBy h)) <= 1)%nat /\
      exists pre word post,
        strings_Fields (HCreatedBy h) = pre ++ word :: base :: post /\
        strings_ToLower word = "from" /\
        Forall (fun w => strings_ToLower w <> "from") pre)).
Proof.
  assert (forall hs, inferBaseImage hs = default "unknown" (head (omap candidate hs))) as Hspec.
  { intros hs. unfold extraction.inferBaseImage.
    destruct hs as [|h rest]; [done|]. apply inferBaseImage_loop_spec. }
  split; [apply Hspec|]. split; [|split; [|split]].
  - rewrite !Hspec. f_equal. f_equal.
    induction history as [|h rest IH]; [done|].
    change (omap candidate (h :: rest))
      with (match candidate h with
            | Some b => b :: omap candidate rest
            | None => omap candidate rest
            end).
    cbn [List.filter].
    destruct (String.eqb (HCreatedBy h) "") eqn:Hempty; cbn [negb].
    + unfold history_candidate at 1. by rewrite Hempty.
    + change (omap candidate (h :: List.filter (fun h0 => negb (String.eqb (HCreatedBy h0) "")) rest))
        with (match candidate h with
              | Some b => b :: omap candidate (List.filter (fun h0 => negb (String.eqb (HCreatedBy h0) "")) rest)
              | None => omap candidate (List.filter (fun h0 => negb (String.eqb (HCreatedBy h0) "")) rest)
              end).
      by rewrite IH.
  - intros pre h post base -> Hpre Hh. rewrite Hspec.
    induction Hpre as [|h' rest Hh' _ IH]; simpl.
    + by rewrite Hh.
    + by rewrite Hh'.
  - intros Hall. rewrite Hspec.
    induction Hall as [|h rest Hh _ IH]; [done|]. simpl. by rewrite Hh.
  - intros h base. unfold history_candidate.
    destruct (String.eqb_spec (HCreatedBy h) "") as [|Hne]; [done|].
    destruct (1 <? length (fromRegex_FindStringSubmatch (HCreatedBy h)))%nat eqn:Hlen.
    + intros [= <-]. split; [done|]. left.
      apply Nat.ltb_lt in Hlen.
      destruct (fromRegex_FindStringSubmatch (HCreatedBy h)) as [|m0 [|m1 ms]]; simpl in *; [lia|lia|done].
    + apply Nat.ltb_ge in Hlen.
      destruct (gostrings.Contains (strings_ToLower (HCreatedBy h)) "from"); [|done].
      intros Hparts. split; [done|]. right. split; [done|].
      by apply inferBaseImage_parts_Some.
Qed.

(** X16.  Extraction followed by the user rule of the built-in engine: the
    rule fails exactly when [allow_root] is not set and the user of the
    image's config is empty, [root] or [0], and the message then quotes
    that user.  A user such as [0:0] or [root:root] is not taken for
    root. *)
Theorem Extract_then_user_rule (img : image.Image) (f : Facts) (rule : Rule) :
  Extract img = inl f -> Kind rule = "user" ->
  exists cfg res,
    image.Config img = Some cfg /\
    Evaluate_rule NewEngine f rule = Some res /\
    RuleID res = ID rule /\
    (Passed res = false <->
     GetConfigBool rule "allow_root" = false /\
     (image.CUser (image.CFConfig cfg) = "" \/
      image.CUser (image.CFConfig cfg) = "root" \/
      image.CUser (image.CFConfig cfg) = "0")) /\
    (Passed res = false ->
     Message res = "image runs as root (user=" +:+ image.CUser (image.CFConfig cfg) +:+ ")").
Proof.
  unfold extraction.Extract.
  destruct (image.Config img) as [cfg|]; [|done].
  destruct (image.Size img) as [size|err]; [|done].
  intros [= <-] Hkind. exists cfg.
  unfold Evaluate_rule. rewrite Hkind.
  change (evaluators NewEngine !! "user") with (Some UserEvaluator).
  unfold UserEvaluator; simpl.
  set (user := image.CUser (image.CFConfig cfg)).
  destruct (GetConfigBool rule "allow_root") eqn:Hallow; simpl.
  - rewrite andb_false_r. eexists. split; [done|]. split; [done|]. simpl.
    split; [done|]. split; [|done]. split; [done|]. by intros [? _].
  - rewrite andb_true_r.
    destruct (String.eqb_spec user "") as [->|H1]; simpl.
    { eexists. split; [done|]. split; [done|]. simpl. split; [done|].
      split; [|done]. split; [|done]. intros _. split; [done|]. by left. }
    destruct (String.eqb_spec user "root") as [->|H2]; simpl.
    { eexists. split; [done|]. split; [done|]. simpl. split; [done|].
      split; [|done]. split; [|done]. intros _. split; [done|]. right; by left. }
    destruct (String.eqb_spec user "0") as [->|H3]; simpl.
    { eexists. split; [done|]. split; [done|]. simpl. split; [done|].
      split; [|done]. split; [|done]. intros _. split; [done|]. right; by right. }
    eexists. split; [done|]. split; [done|]. simpl. split; [done|].
    split; [|done]. split; [done|]. intros [_ [?|[?|?]]]; done.
Qed.

End extract.

Section image_size.
Context `{L : GoLib}.
Import spec2.

Lemma Size_loop_sum layers total :
  Forall (fun l => snd (image.Layer_Size l) = None) layers ->
  image.Size_loop layers total
  = inl (match layers with
         | [] => total
         | _ => image.wrap64 (total + layer_sizes layers)
         end).
Proof.
  intros Hall. revert total.
  induction Hall as [|layer rest Hl Hrest IH]; intros total; [done|].
  simpl. destruct (image.Layer_Size layer) as [size err]; simpl in *.
  subst err. rewrite IH. destruct rest as [|l' rest']; simpl.
  - f_equal. f_equal. lia.
  - f_equal. rewrite wrap64_add. f_equal. lia.
Qed.

Lemma Size_loop_first_error pre layer post total err :
  Forall (fun l => snd (image.Layer_Size l) = None) pre ->
  snd (image.Layer_Size layer) = Some err ->
  image.Size_loop (pre ++ layer :: post) total = inr err.
Proof.
  intros Hpre Herr. revert total.
  induction Hpre as [|l rest Hl _ IH]; intros total; simpl.
  - destruct (image.Layer_Size layer) as [size e]; simpl in *. by subst e.
  - destruct (image.Layer_Size l) as [size e]; simpl in *. subst e. apply IH.
Qed.

Lemma layer_sizes_Permutation l1 l2 :
  Permutation l1 l2 -> layer_sizes l1 = layer_sizes l2.
Proof. induction 1; simpl; lia. Qed.

(** X17.  [Image.Size]: when every layer reports its size, the result is
    the sum of the sizes wrapped to 64 bits (the sum itself when the sizes
    are not negative and the sum is below 2^63), and it does not depend on
    the order of the layers; otherwise the result is the error of the first
    layer that fails; an image without layers has size 0. *)
Theorem Size_sums_layers (img img' : image.Image) :
  (Forall (fun l => snd (image.Layer_Size l) = None) (image.Layers img) ->
   image.Size img = inl (image.wrap64 (layer_sizes (image.Layers img))) /\
   (Forall (fun l => 0 <= fst (image.Layer_Size l)) (image.Layers img) ->
    layer_sizes (image.Layers img) < 2 ^ 63 ->
    image.Size img = inl (layer_sizes (image.Layers img))) /\
   (Permutation (image.Layers img) (image.Layers img') ->
    image.Size img' = image.Size img)) /\
  (forall pre layer post err,
     image.Layers img = pre ++ layer :: post ->
     Forall (fun l => snd (image.Layer_Size l) = None) pre ->
     snd (image.Layer_Size layer) = Some err ->
     image.Size img = inr err) /\
  (image.Layers img = [] -> image.Size img = inl 0).
Proof.
  assert (forall i : image.Image,
            Forall (fun l => snd (image.Layer_Size l) = None) (image.Layers i) ->
            image.Size i = inl (image.wrap64 (layer_sizes (image.Layers i)))) as Hsum.
  { intros i Hall. unfold image.Size. rewrite (Size_loop_sum _ 0 Hall).
    destruct (image.Layers i); [done|]. done. }
  split; [|split].
  - intros Hall. split; [by apply Hsum|]. split.
    + intros Hpos Hlt. rewrite (Hsum img Hall). f_equal. apply wrap64_small.
      split; [|done].
      assert (0 <= layer_sizes (image.Layers img)); [|lia].
      clear -Hpos. induction Hpos; simpl; lia.
    + intros Hperm. rewrite (Hsum img Hall), Hsum.
      * by rewrite (layer_sizes_Permutation _ _ Hperm).
      * by rewrite <- Hperm.
  - intros pre layer post err Hlayers Hpre Herr. unfold image.Size.
    rewrite Hlayers. by apply Size_loop_first_error.
  - intros Hnil. unfold image.Size. by rewrite Hnil.
Qed.

End image_size.

Section sarif_findings.
Context `{L : GoLib}.
Import facts policy rules report spec sarif.

Lemma buildSarifResults_loop_spec imageName results acc :
  buildSarifResults_loop imageName results acc
  = acc ++ map (sarifResult imageName)
               (List.filter (fun x => negb (Passed x)) results).
Proof.
  revert acc. induction results as [|res rest IH]; intros acc; simpl.
  - by rewrite app_nil_r.
  - destruct (Passed res); simpl; [apply IH|].
    by rewrite IH, <- app_assoc.
Qed.

Lemma buildSarifRules_loop_spec rs acc :
  buildSarifRules_loop rs acc = acc ++ map sarifRule rs.
Proof.
  revert acc. induction rs as [|rule rest IH]; intros acc; simpl.
  - by rewrite app_nil_r.
  - by rewrite IH, <- app_assoc.
Qed.

(** X18.  The SARIF findings are the failed results, in order, and only
    they: as many as the report's [Failed] count, none when every result
    passed; each finding carries the id, the level of the severity and the
    message of its result. *)
Theorem buildSarifResults_failed_only (r : Report) :
  buildSarifResults r
  = map (sarifResult (ImageName r))
        (List.filter (fun x => negb (Passed x)) (Results r)) /\
  (forall now img f results p,
     Z.of_nat (length (buildSarifResults (New now img f results p)))
     = RFailed (New now img f results p)) /\
  (Forall (fun res => Passed res = true) (Results r) -> buildSarifResults r = []) /\
  (forall item, In item (buildSarifResults r) ->
     exists res,
       In res (Results r) /\ Passed res = false /\
       get "ruleId" item = Some (JString (RuleID res)) /\
       get "level" item = Some (JString (severityToLevel (Severity res))) /\
       get "message" item = Some (JObject [("text", JString (Message res))])) /\
  (forall res, In res (Results r) -> Passed res = false ->
     In (sarifResult (ImageName r) res) (buildSarifResults r)).
Proof.
  assert (forall r', buildSarifResults r'
          = map (sarifResult (ImageName r'))
                (List.filter (fun x => negb (Passed x)) (Results r'))) as Hspec.
  { intros r'. unfold buildSarifResults. by rewrite buildSarifResults_loop_spec. }
  split; [apply Hspec|]. split; [|split; [|split]].
  - intros now img f results p. rewrite Hspec, length_map.
    unfold New. rewrite New_loop_counts. simpl. lia.
  - rewrite Hspec. intros Hall.
    induction Hall as [|res rest Hres _ IH]; [done|]. simpl. by rewrite Hres.
  - intros item. rewrite Hspec, in_map_iff.
    intros (res & <- & Hin). apply filter_In in Hin as [Hin Hfailed].
    exists res. split; [done|]. split; [by destruct (Passed res)|]. done.
  - intros res Hin Hfailed. rewrite Hspec. apply in_map, filter_In.
    split; [done|]. by rewrite Hfailed.
Qed.

Lemma severityToLevel_cases sev :
  In sev five_severities ->
  (severityToLevel sev = "error" <-> sev = "critical" \/ sev = "high") /\
  (severityToLevel sev = "warning" <-> sev = "medium") /\
  (severityToLevel sev = "note" <-> sev = "low") /\
  (severityToLevel sev = "none" <-> sev = "info").
Proof.
  unfold five_severities. simpl.
  intros [<-|[<-|[<-|[<-|[<-|[]]]]]]; vm_compute; intuition congruence.
Qed.

(** X19.  In the SARIF rendering of a report built from the results of
    evaluating its policy, there is one rule descriptor per rule of the
    policy, and every finding refers to a descriptor: one with the
    finding's rule id and the finding's level.  When [Validate] accepts the
    policy, a finding has the level [none] only for a failed result of
    severity info. *)
Theorem SARIF_findings_reference_rules (e : Engine) (f : Facts) (p : Policy)
    (results : list Result) now img :
  Evaluate e f p = Some results ->
  let r := New now img f results p in
  length (buildSarifRules r) = length (Rules p) /\
  (length (buildSarifResults r) <= length (buildSarifRules r))%nat /\
  (forall item, In item (buildSarifResults r) ->
     exists descriptor ruleId level,
       In descriptor (buildSarifRules r) /\
       get "ruleId" item = Some (JString ruleId) /\
       get "id" descriptor = Some (JString ruleId) /\
       get "level" item = Some (JString level) /\
       get "defaultConfiguration" descriptor
       = Some (JObject [("level", JString level)])) /\
  (Validate p = None ->
   forall item, In item (buildSarifResults r) ->
     get "level" item = Some (JString "none") ->
     exists res, In res results /\ Passed res = false /\ Severity res = "info" /\
                 item = sarifResult img res).
Proof.
  intros Hev r.
  assert (Results r = results /\ RPolicy r = p /\ ImageName r = img) as (HR & HP & HI).
  { unfold r, New. by destruct (New_loop results 0 0). }
  unfold Evaluate in Hev. rewrite Evaluate_loop_mapM in Hev.
  apply mapM_Some in Hev.
  unfold buildSarifRules, buildSarifResults.
  rewrite buildSarifRules_loop_spec, buildSarifResults_loop_spec, HR, HP, HI.
  simpl. rewrite !length_map.
  split; [done|]. split; [|split].
  - rewrite (Forall2_length _ _ _ Hev).
    pose proof (filter_length_split results). lia.
  - intros item. rewrite in_map_iff.
    intros (res & <- & Hin). apply filter_In in Hin as [Hin _].
    apply list_elem_of_In in Hin.
    destruct (proj1 (list_elem_of_lookup _ _) Hin) as [k Hk].
    destruct (Forall2_lookup_r _ _ _ _ _ Hev Hk) as (rule & Hrule & Hres).
    apply Evaluate_rule_metadata in Hres as (Hid & _ & Hsev & _).
    exists (sarifRule rule), (RuleID res), (severityToLevel (Severity res)).
    split; [|split; [done|split; [by rewrite Hid|split; [done|by rewrite Hsev]]]].
    apply in_map, list_elem_of_In. by eapply list_elem_of_lookup_2.
  - intros Hvalid item. rewrite in_map_iff.
    intros (res & <- & Hin). apply filter_In in Hin as [Hin Hfailed].
    pose proof Hin as Hin'. apply list_elem_of_In in Hin'.
    destruct (proj1 (list_elem_of_lookup _ _) Hin') as [k Hk].
    destruct (Forall2_lookup_r _ _ _ _ _ Hev Hk) as (rule & Hrule & Hres).
    apply Evaluate_rule_metadata in Hres as (_ & _ & Hsev & _).
    apply Validate_ok in Hvalid as (_ & _ & Hwf).
    rewrite Forall_forall in Hwf.
    specialize (Hwf rule (list_elem_of_lookup_2 _ _ _ Hrule)).
    assert (In (Severity res) five_severities) as Hfive.
    { rewrite Hsev. apply Hwf. }
    destruct (severityToLevel_cases _ Hfive) as (_ & _ & _ & Hnone).
    simpl. intros [= Hlevel]. apply Hnone in Hlevel.
    exists res. split; [done|]. split; [by destruct (Passed res)|done].
Qed.

End sarif_findings.

Section text_rendering.
Context `{L : GoLib}.
Import facts policy rules report spec.

Lemma Contains_inside s a b c : s = a +:+ b +:+ c -> gostrings.Contains s b = true.
Proof. intros ->. apply Contains_append. Qed.

Lemma Text_failures_loop_In results res :
  In res results -> Passed res = false ->
  exists a c, Text_failures_loop results = a +:+ Text_failure res +:+ c.
Proof.
  intros Hin Hfailed. induction results as [|x rest IH]; [done|].
  destruct Hin as [->|Hin].
  - exists "", (Text_failures_loop rest). cbn [Text_failures_loop].
    by rewrite Hfailed.
  - destruct (IH Hin) as (a & c & Heq).
    exists ((if negb (Passed x) then Text_failure x else "") +:+ a), c.
    cbn [Text_failures_loop]. rewrite Heq. symmetry. apply append_assoc.
Qed.

Lemma Text_passed_loop_In results res :
  In res results -> Passed res = true ->
  exists a c,
    Text_passed_loop results
    = a +:+ ("✓ " +:+ RuleName res +:+ ": " +:+ Message res +:+ nl) +:+ c.
Proof.
  intros Hin Hpassed. induction results as [|x rest IH]; [done|].
  destruct Hin as [->|Hin].
  - exists "", (Text_passed_loop rest). cbn [Text_passed_loop].
    by rewrite Hpassed.
  - destruct (IH Hin) as (a & c & Heq).
    exists ((if Passed x
             then "✓ " +:+ RuleName x +:+ ": " +:+ Message x +:+ nl
             else "") +:+ a), c.
    cbn [Text_passed_loop]. rewrite Heq. symmetry. apply append_assoc.
Qed.

Lemma New_fields now img f results p :
  let r := New now img f results p in
  Results r = results /\
  RPassed r = Z.of_nat (length (List.filter Passed results)) /\
  RFailed r = Z.of_nat (length (List.filter (fun x => negb (Passed x)) results)).
Proof. unfold New. rewrite New_loop_counts. simpl. done. Qed.

Lemma filter_length_pos {A} (P : A -> bool) (l : list A) x :
  In x l -> P x = true -> 0 < Z.of_nat (length (List.filter P l)).
Proof.
  intros Hin HP.
  assert (In x (List.filter P l)) as Hx by (by apply filter_In).
  destruct (List.filter P l); [done|]. simpl. lia.
Qed.

(** X20.  The text rendering of a report built by [New] lists every
    result: for a failed one the header line with the severity in upper
    case and the name, the id line and the message line; for a passed one
    the line with its name and message.  It ends with the line
    [All checks passed] when every result passed, and with the number of
    failures otherwise. *)
Theorem Text_lists_every_result now img (f : Facts) (results : list Result) (p : Policy) :
  let r := New now img f results p in
  (forall res, In res results -> Passed res = false ->
     gostrings.Contains (Text r)
       ("[" +:+ strings_ToUpper (Severity res) +:+ "] " +:+ RuleName res +:+ nl
        +:+ "  ID:      " +:+ RuleID res +:+ nl
        +:+ "  Message: " +:+ Message res +:+ nl) = true) /\
  (forall res, In res results -> Passed res = true ->
     gostrings.Contains (Text r)
       ("✓ " +:+ RuleName res +:+ ": " +:+ Message res +:+ nl) = true) /\
  (Forall (fun res => Passed res = true) results ->
   exists body, Text r = body +:+ "✓ All checks passed" +:+ nl) /\
  (Exists (fun res => Passed res = false) results ->
   exists body,
     Text r = body +:+ "✗ " +:+ gostrings.fmt_d (CountFailures results)
                   +:+ " check(s) failed" +:+ nl).
Proof.
  intros r. destruct (New_fields now img f results p) as (HR & HP & HF).
  fold r in HR, HP, HF.
  split; [|split; [|split]].
  - intros res Hin Hfailed.
    destruct (Text_failures_loop_In results res Hin Hfailed) as (a & c & Heq).
    assert ((0 <? RFailed r) = true) as Hpos.
    { apply Z.ltb_lt. rewrite HF.
      apply (filter_length_pos _ _ res); [done|by rewrite Hfailed]. }
    apply (Contains_inside _
             (Text_header r +:+ Text_summary r +:+ Text_severity r
              +:+ "Failures" +:+ nl +:+ "--------" +:+ nl +:+ a)
             _
             ((if negb (String.eqb (Description res) "")
               then "  Detail:  " +:+ Description res +:+ nl
               else "") +:+ nl +:+ c +:+ Text_passed r +:+ Text_verdict r)).
    unfold Text, Text_failures. rewrite Hpos, HR, Heq. unfold Text_failure.
    by rewrite !append_assoc.
  - intros res Hin Hpassed.
    destruct (Text_passed_loop_In results res Hin Hpassed) as (a & c & Heq).
    assert ((0 <? RPassed r) = true) as Hpos.
    { apply Z.ltb_lt. rewrite HP. by apply (filter_length_pos _ _ res). }
    apply (Contains_inside _
             (Text_header r +:+ Text_summary r +:+ Text_severity r
              +:+ Text_failures r
              +:+ "Passed Checks" +:+ nl +:+ "-------------" +:+ nl +:+ a)
             _
             (c +:+ nl +:+ Text_verdict r)).
    unfold Text, Text_passed. rewrite Hpos, HR, Heq.
    by rewrite !append_assoc.
  - intros Hall.
    exists (Text_header r +:+ Text_summary r +:+ Text_severity r
            +:+ Text_failures r +:+ Text_passed r).
    assert (RFailed r = 0) as HF0.
    { rewrite HF. clear -Hall.
      induction Hall as [|res rest Hres _ IH]; [done|]. simpl. by rewrite Hres. }
    unfold Text, Text_verdict. rewrite HF0.
    change (0 =? 0) with true. cbv iota. by rewrite !append_assoc.
  - intros Hex.
    exists (Text_header r +:+ Text_summary r +:+ Text_severity r
            +:+ Text_failures r +:+ Text_passed r).
    assert (RFailed r = CountFailures results) as HFC.
    { unfold CountFailures. rewrite CountFailures_loop_spec, HF. lia. }
    assert ((RFailed r =? 0) = false) as Hne.
    { apply Z.eqb_neq. rewrite HF.
      apply Exists_exists in Hex as (res & Hin & Hfailed).
      apply list_elem_of_In in Hin.
      assert (negb (Passed res) = true) as Hneg by (by rewrite Hfailed).
      pose proof (filter_length_pos (fun x => negb (Passed x)) results res Hin Hneg).
      lia. }
    unfold Text, Text_verdict. rewrite Hne, HFC. by rewrite !append_assoc.
Qed.

End text_rendering.

Section validation_more.
Context `{L : GoLib}.
Import facts policy rules report spec.

Lemma Validate_loop_first_bad i rules (k : nat) rule :
  rules !! k = Some rule ->
  Forall rule_well_formed (take k rules) ->
  Validate_loop i rules
  = match validate_rule (i + Z.of_nat k) rule with
    | Some err => Some err
    | None => Validate_loop (i + Z.of_nat k + 1) (drop (S k) rules)
    end.
Proof.
  revert i k. induction rules as [|x rest IH]; intros i k Hk Hpre; [done|].
  destruct k as [|k]; simpl in *.
  - injection Hk as ->. replace (i + Z.of_nat 0) with i by lia. done.
  - apply Forall_cons in Hpre as [Hx Hpre].
    apply (validate_rule_ok i) in Hx. rewrite Hx.
    rewrite (IH (i + 1) k Hk Hpre).
    replace (i + Z.of_nat (S k)) with (i + 1 + Z.of_nat k) by lia.
    done.
Qed.

Lemma prefix_append_both a b c :
  String.prefix (a +:+ b) (a +:+ c) = String.prefix b c.
Proof.
  induction a as [|x a IH]; [done|].
  change (String.prefix (String x (a +:+ b)) (String x (a +:+ c)) = String.prefix b c).
  simpl. destruct (Ascii.ascii_dec x x); [done|congruence].
Qed.

(** X21.  For a policy with a name, [Validate] reports the first rule that
    is not well formed: the error names that rule by its index when its id
    is empty, and by its id otherwise. *)
Theorem Validate_reports_first_bad_rule (p : Policy) (k : nat) (rule : Rule) :
  PName p <> "" ->
  Rules p !! k = Some rule ->
  Forall rule_well_formed (take k (Rules p)) ->
  ~ rule_well_formed rule ->
  exists err,
    Validate p = Some err /\
    validate_rule (Z.of_nat k) rule = Some err /\
    (ID rule = "" ->
     err = "rule " +:+ gostrings.fmt_d (Z.of_nat k) +:+ " missing ID") /\
    (ID rule <> "" ->
     gostrings.HasPrefix err ("rule " +:+ ID rule +:+ " ") = true).
Proof.
  intros Hname Hk Hpre Hbad. unfold Validate.
  destruct (String.eqb_spec (PName p) "") as [|_]; [done|].
  destruct (Rules p) as [|r0 rest] eqn:Hrules; [done|].
  change (Nat.eqb (length (r0 :: rest)) 0) with false. cbv iota.
  rewrite (Validate_loop_first_bad 0 _ k rule Hk Hpre).
  replace (0 + Z.of_nat k) with (Z.of_nat k) by lia.
  destruct (validate_rule (Z.of_nat k) rule) as [err|] eqn:Herr.
  2: { by apply validate_rule_ok in Herr. }
  exists err. split; [done|]. split; [done|].
  unfold validate_rule in Herr.
  destruct (String.eqb_spec (ID rule) "") as [Hid|Hid].
  { injection Herr as <-. split; [done|]. by intros ?. }
  split; [done|]. intros _. unfold gostrings.HasPrefix.
  rewrite <- (append_assoc "rule " (ID rule) " ").
  destruct (String.eqb (Name rule) "").
  { injection Herr as <-. rewrite <- append_assoc. by rewrite prefix_append_both. }
  destruct (String.eqb (Kind rule) "").
  { injection Herr as <-. rewrite <- append_assoc. by rewrite prefix_append_both. }
  destruct (_ || _); [done|].
  injection Herr as <-. rewrite <- append_assoc. by rewrite prefix_append_both.
Qed.

(** X22.  [Validate] looks at each rule on its own: a policy it accepts
    stays accepted when its rules are replaced by any non-empty list of
    rules taken from it, in any order and with repetitions.  In particular
    it accepts two rules with the same id. *)
Theorem Validate_ignores_order_and_duplicates (p : Policy) (rs : list Rule) :
  Validate p = None ->
  rs <> [] ->
  (forall rule, In rule rs -> In rule (Rules p)) ->
  Validate (set_rules p rs) = None /\
  Validate (set_rules p (rs ++ rs)) = None /\
  Validate (set_rules p (rev (Rules p))) = None.
Proof.
  intros Hvalid Hne Hsub.
  apply Validate_ok in Hvalid as (Hname & Hrules & Hwf).
  rewrite Forall_forall in Hwf.
  assert (forall rs', rs' <> [] -> (forall rule, In rule rs' -> In rule (Rules p)) ->
          Validate (set_rules p rs') = None) as Hgen.
  { intros rs' Hne' Hsub'. apply Validate_ok. simpl.
    split; [done|]. split; [done|].
    apply Forall_forall. intros rule Hin. apply Hwf, list_elem_of_In, Hsub'.
    by apply list_elem_of_In. }
  split; [by apply Hgen|]. split.
  - apply Hgen.
    + destruct rs; [done|]. done.
    + intros rule Hin. apply in_app_or in Hin. apply Hsub. tauto.
  - apply Hgen.
    + intros Hrev. apply Hrules. by rewrite <- (rev_involutive (Rules p)), Hrev.
    + intros rule Hin. by apply in_rev.
Qed.

End validation_more.

Section load_policy.
Import policy spec.
Variable os_ReadFile : string -> string + string.
Variable defaultPolicyFS_ReadFile : string -> string + string.
Variable yaml_Unmarshal : string -> Policy + string.
Variable os_Stat_ok : string -> bool.
Variable os_Getenv : string -> string.
Variable filepath_Join : list string -> string.

Local Abbreviation loadPolicy :=
  (main.loadPolicy os_ReadFile defaultPolicyFS_ReadFile yaml_Unmarshal
     os_Stat_ok os_Getenv filepath_Join).
Local Abbreviation loadPolicy_loop :=
  (main.loadPolicy_loop os_ReadFile defaultPolicyFS_ReadFile yaml_Unmarshal os_Stat_ok).
Local Abbreviation candidates := (main.candidates os_Getenv filepath_Join).
Local Abbreviation LoadFromFile := (LoadFromFile os_ReadFile yaml_Unmarshal).
Local Abbreviation LoadDefault := (LoadDefault defaultPolicyFS_ReadFile yaml_Unmarshal).

Lemma LoadFromFile_result path :
  (forall p, snd (LoadFromFile path) = inl p ->
     Validate p = None /\
     exists data, os_ReadFile path = inl data /\ yaml_Unmarshal data = inl p) /\
  (forall err, os_ReadFile path = inr err ->
     LoadFromFile path
     = ([StepReadFile path], inr ("failed to read policy file: " +:+ err))) /\
  ~ In (StepReadEmbedded "defaults/default.yaml") (fst (LoadFromFile path)).
Proof.
  unfold policy.LoadFromFile.
  destruct (os_ReadFile path) as [data|err] eqn:Hread.
  - destruct (yaml_Unmarshal data) as [p|err] eqn:Hyaml.
    + destruct (Validate p) as [err|] eqn:Hv; simpl.
      * split; [done|]. split; [done|]. intros [?|[?|[?|[]]]]; done.
      * split; [|split; [done|intros [?|[?|[?|[]]]]; done]].
        intros p' [= <-]. split; [done|]. by exists data.
    + simpl. split; [done|]. split; [done|]. intros [?|[?|[]]]; done.
  - simpl. split; [done|]. split; [by intros ? [= ->]|]. intros [?|[]]; done.
Qed.

Lemma loadPolicy_loop_first pre c post :
  Forall (fun c' => os_Stat_ok c' = false) pre ->
  os_Stat_ok c = true ->
  loadPolicy_loop (pre ++ c :: post) = LoadFromFile c.
Proof.
  induction 1 as [|c' rest Hc' _ IH]; intros Hc; simpl.
  - by rewrite Hc.
  - rewrite Hc'. by apply IH.
Qed.

Lemma loadPolicy_loop_none cs :
  Forall (fun c' => os_Stat_ok c' = false) cs ->
  loadPolicy_loop cs = LoadDefault.
Proof.
  induction 1 as [|c' rest Hc' _ IH]; simpl; [done|]. by rewrite Hc'.
Qed.

Lemma loadPolicy_loop_cases cs :
  (exists pre c post, cs = pre ++ c :: post /\
     Forall (fun c' => os_Stat_ok c' = false) pre /\ os_Stat_ok c = true) \/
  Forall (fun c' => os_Stat_ok c' = false) cs.
Proof.
  induction cs as [|c rest IH]; [by right|].
  destruct (os_Stat_ok c) eqn:Hc.
  - left. by exists [], c, rest.
  - destruct IH as [(pre & c' & post & -> & Hpre & Hc')|Hall].
    + left. exists (c :: pre), c', post. split; [done|]. split; [|done].
      by constructor.
    + right. by constructor.
Qed.

(** X23.  With no path given, the first candidate file that exists
    decides: [loadPolicy] is [LoadFromFile] on it, so a policy it returns
    is validated, an unreadable candidate is an error (no later candidate
    and no embedded default is tried), and no other file is read. *)
Theorem loadPolicy_first_candidate_decides (pre post : list string) (c : string) :
  candidates = pre ++ c :: post ->
  Forall (fun c' => os_Stat_ok c' = false) pre ->
  os_Stat_ok c = true ->
  loadPolicy "" = LoadFromFile c /\
  (forall p, snd (loadPolicy "") = inl p -> Validate p = None) /\
  (forall err, os_ReadFile c = inr err ->
     snd (loadPolicy "") = inr ("failed to read policy file: " +:+ err)) /\
  ~ In (StepReadEmbedded "defaults/default.yaml") (fst (loadPolicy "")) /\
  (forall c', In (StepReadFile c') (fst (loadPolicy "")) -> c' = c).
Proof.
  intros Hcs Hpre Hc.
  assert (loadPolicy "" = LoadFromFile c) as Heq.
  { unfold main.loadPolicy. change (String.eqb "" "") with true. cbn [negb].
    rewrite Hcs. by apply loadPolicy_loop_first. }
  rewrite Heq. destruct (LoadFromFile_result c) as (Hok & Herr & Hemb).
  split; [done|]. split; [|split; [|split; [done|]]].
  - intros p Hp. by apply Hok.
  - intros err Hread. by rewrite (Herr err Hread).
  - intros c'. unfold policy.LoadFromFile.
    destruct (os_ReadFile c) as [data|err]; [|simpl; intros [[= ?]|[]]; done].
    destruct (yaml_Unmarshal data) as [p|err].
    + destruct (Validate p); simpl; intros [[= ?]|[?|[?|[]]]]; done.
    + simpl; intros [[= ?]|[?|[]]]; done.
Qed.

(** X24.  A policy that [loadPolicy] returns has passed [Validate], unless
    no path was given and no candidate file exists: then it is the result
    of [LoadDefault], which never validates. *)
Theorem loadPolicy_validated_unless_embedded (path : string) (p : Policy) :
  snd (loadPolicy path) = inl p ->
  (Validate p = None /\
   ~ In (StepReadEmbedded "defaults/default.yaml") (fst (loadPolicy path))) \/
  (path = "" /\ Forall (fun c => os_Stat_ok c = false) candidates /\
   loadPolicy path = LoadDefault /\
   ~ In StepValidate (fst (loadPolicy path))).
Proof.
  unfold main.loadPolicy.
  destruct (String.eqb_spec path "") as [->|Hne]; cbn [negb].
  - destruct (loadPolicy_loop_cases candidates)
      as [(pre & c & post & Hcs & Hpre & Hc)|Hall].
    + rewrite Hcs, (loadPolicy_loop_first pre c post Hpre Hc).
      destruct (LoadFromFile_result c) as (Hok & _ & Hemb).
      intros Hp. left. split; [by apply Hok|done].
    + rewrite (loadPolicy_loop_none _ Hall). intros _. right.
      split; [done|]. split; [done|]. split; [done|].
      unfold policy.LoadDefault.
      destruct (defaultPolicyFS_ReadFile "defaults/default.yaml") as [data|err].
      * destruct (yaml_Unmarshal data); simpl; intros [?|[?|[]]]; done.
      * simpl. intros [?|[]]; done.
  - destruct (LoadFromFile_result path) as (Hok & _ & Hemb).
    intros Hp. left. split; [by apply Hok|done].
Qed.

(** X25.  With a path given, [loadPolicy] is [LoadFromFile] on that path:
    an unreadable file is an error, and neither a candidate nor the
    embedded default is read. *)
Theorem loadPolicy_explicit_path_never_falls_back (path : string) :
  path <> "" ->
  loadPolicy path = LoadFromFile path /\
  (forall err, os_ReadFile path = inr err ->
     loadPolicy path
     = ([StepReadFile path], inr ("failed to read policy file: " +:+ err))) /\
  Forall (fun s => s = StepReadFile path \/ s = StepUnmarshal \/ s = StepValidate)
         (fst (loadPolicy path)).
Proof.
  intros Hne. unfold main.loadPolicy.
  destruct (String.eqb_spec path "") as [|_]; [done|]. cbn [negb].
  destruct (LoadFromFile_result path) as (_ & Herr & _).
  split; [done|]. split; [done|].
  unfold policy.LoadFromFile.
  destruct (os_ReadFile path) as [data|err].
  - destruct (yaml_Unmarshal data) as [p|err].
    + destruct (Validate p); simpl; repeat constructor; tauto.
    + simpl; repeat constructor; tauto.
  - simpl; repeat constructor; tauto.
Qed.

End load_policy.

Lemma CountBySeverity_sums_to_CountFailures_witness :
  policy.Validate examples.p0 = None /\
  exists results,
    rules.Evaluate rules.NewEngine examples.f0 examples.p0 = Some results /\
    spec2.five_sum (rules.CountBySeverity results)
    = rules.CountFailures results.
Proof.
  split; [reflexivity|].
  destruct (rules.Evaluate rules.NewEngine examples.f0 examples.p0)
    as [results|] eqn:Hev.
  - exists results. split; [reflexivity|].
    exact (CountBySeverity_sums_to_CountFailures rules.NewEngine examples.f0
             examples.p0 results eq_refl Hev).
  - vm_compute in Hev. discriminate Hev.
Defined.

Lemma LayersEvaluator_monotone_witness :
  facts.LayerCount (scenario.facts_with 0 2)
  <= facts.LayerCount (scenario.facts_with 0 5) /\
  exists res res',
    rules.LayersEvaluator (scenario.facts_with 0 2) examples.r_layers
    = (Some res, None) /\
    rules.LayersEvaluator (scenario.facts_with 0 5) examples.r_layers
    = (Some res', None) /\
    rules.Passed res = true /\ rules.Passed res' = false.
Proof.
  assert (facts.LayerCount (scenario.facts_with 0 2)
          <= facts.LayerCount (scenario.facts_with 0 5)) as Hle
    by (simpl; lia).
  split; [exact Hle|].
  destruct (LayersEvaluator_monotone (scenario.facts_with 0 2)
              (scenario.facts_with 0 5) examples.r_layers Hle)
    as (res & res' & Hres & Hres' & _).
  exists res, res'. split; [exact Hres|]. split; [exact Hres'|].
  vm_compute in Hres, Hres'.
  injection Hres as <-. injection Hres' as <-. split; reflexivity.
Defined.

Lemma SizeEvaluator_monotone_witness :
  let f := scenario.facts_with (2000 * 1048576) 3 in
  let f' := scenario.facts_with (2100 * 1048576) 3 in
  (0 <= facts.Size f /\ facts.Size f <= facts.Size f' /\
   facts.Size f' < 2 ^ 53) /\
  exists res res',
    rules.SizeEvaluator f examples.r_size = (Some res, None) /\
    rules.SizeEvaluator f' examples.r_size = (Some res', None) /\
    (rules.Passed res = false -> rules.Passed res' = false) /\
    rules.Passed res = true /\ rules.Passed res' = false.
Proof.
  intros f f'.
  assert (0 <= facts.Size f) as H0 by (simpl; lia).
  assert (facts.Size f <= facts.Size f') as H1 by (simpl; lia).
  assert (facts.Size f' < 2 ^ 53) as H2 by (simpl; lia).
  split; [by repeat split|].
  destruct (SizeEvaluator_monotone f f' examples.r_size H0 H1 H2)
    as (res & res' & Hres & Hres' & Hmono & _).
  exists res, res'. split; [exact Hres|]. split; [exact Hres'|].
  split; [exact Hmono|].
  vm_compute in Hres, Hres'.
  injection Hres as <-. injection Hres' as <-. split; reflexivity.
Defined.

Lemma GetConfigInt_number_encodings_witness :
  let cfg : gmap string policy.Value :=
    {[ "max_layers" := policy.VFloat64 (float64.of_int 2) ]} in
  policy.Config examples.r_layers = Some cfg /\
  cfg !! "max_layers" = Some (policy.VFloat64 (float64.of_int 2)) /\
  - 2 ^ 53 < 2 < 2 ^ 53 /\
  policy.GetConfigInt examples.r_layers "max_layers" = 2.
Proof.
  intros cfg.
  assert (- 2 ^ 53 < 2 < 2 ^ 53) as Hrange by lia.
  split; [reflexivity|]. split; [reflexivity|]. split; [exact Hrange|].
  apply (GetConfigInt_number_encodings examples.r_layers cfg "max_layers"
           (policy.VFloat64 (float64.of_int 2)) 2 eq_refl eq_refl Hrange).
  right. right. reflexivity.
Defined.

Lemma env_entry_key_value_witness :
  let f := scenario.facts_with 0 1 in
  In "MODE=a=b" (facts.Env f) /\
  gostrings.SplitN2_eq_1 "MODE=a=b" = Some "a=b" /\
  gostrings.SplitN2_eq_0 "MODE=a=b" = "MODE" /\
  facts.HasEnvVar f "MODE" = true.
Proof.
  intros f.
  assert (In "MODE=a=b" (facts.Env f)) as Hin by (right; left; reflexivity).
  split; [exact Hin|]. split; [reflexivity|]. split; [reflexivity|].
  exact (proj2 (proj2 (env_entry_key_value f "MODE=a=b" "a=b" Hin eq_refl))).
Defined.

Lemma Extract_facts_witness :
  exists f,
    scenario.Extract (scenario.with_user "0:0") = inl f /\
    facts.LayerCount f = 3 /\ facts.Size f = 6234567 /\
    facts.RunsAsRoot f = false /\ facts.BaseImage f = "golang:1.22" /\
    facts.Size f = image.wrap64 (spec2.sum_sizes (facts.Layers f)).
Proof.
  eexists. split; [reflexivity|].
  split; [reflexivity|]. split; [reflexivity|]. split; [reflexivity|].
  split; [vm_compute; reflexivity|].
  exact (proj1 (proj2 (proj2 (proj2 (proj2
           (Extract_facts asciitext.FindStringSubmatch asciitext.Fields
              (scenario.with_user "0:0") _ eq_refl)))))).
Defined.

Lemma Extract_then_user_rule_witness :
  exists f,
    scenario.Extract (scenario.with_user "0:0") = inl f /\
    policy.Kind examples.r_user = "user" /\
    exists cfg res,
      image.Config (scenario.with_user "0:0") = Some cfg /\
      rules.Evaluate_rule rules.NewEngine f examples.r_user = Some res /\
      rules.RuleID res = policy.ID examples.r_user /\
      (rules.Passed res = false <->
       policy.GetConfigBool examples.r_user "allow_root" = false /\
       (image.CUser (image.CFConfig cfg) = "" \/
        image.CUser (image.CFConfig cfg) = "root" \/
        image.CUser (image.CFConfig cfg) = "0")) /\
      (rules.Passed res = false ->
       rules.Message res
       = "image runs as root (user=" +:+ image.CUser (image.CFConfig cfg)
         +:+ ")").
Proof.
  eexists. split; [reflexivity|]. split; [reflexivity|].
  exact (Extract_then_user_rule asciitext.FindStringSubmatch
           asciitext.Fields (scenario.with_user "0:0") _
           examples.r_user eq_refl eq_refl).
Defined.

Lemma SARIF_findings_reference_rules_witness :
  exists results,
    rules.Evaluate rules.NewEngine examples.f0 examples.p0 = Some results /\
    let r := report.New "2024-01-01T00:00:00Z" "img" examples.f0 results
               examples.p0 in
    length (sarif.buildSarifRules r) = 8%nat /\
    (length (sarif.buildSarifResults r) <= length (sarif.buildSarifRules r))%nat.
Proof.
  destruct (rules.Evaluate rules.NewEngine examples.f0 examples.p0)
    as [results|] eqn:Hev.
  - exists results. split; [reflexivity|].
    destruct (SARIF_findings_reference_rules rules.NewEngine examples.f0
                examples.p0 results "2024-01-01T00:00:00Z" "img" Hev)
      as (Hlen & Hle & _).
    split; [exact Hlen|exact Hle].
  - vm_compute in Hev. discriminate Hev.
Defined.

Lemma Validate_reports_first_bad_rule_witness :
  let bad := examples.rule "" "high" "user" None in
  let p := examples.with_rules [examples.r_user; bad; examples.r_unknown] in
  policy.PName p <> "" /\
  policy.Rules p !! 1%nat = Some bad /\
  Forall spec.rule_well_formed (take 1 (policy.Rules p)) /\
  ~ spec.rule_well_formed bad /\
  policy.Validate p = Some "rule 1 missing ID".
Proof.
  intros bad p.
  assert (policy.PName p <> "") as Hname by discriminate.
  assert (Forall spec.rule_well_formed (take 1 (policy.Rules p))) as Hpre.
  { constructor; [|constructor].
    split; [discriminate|]. split; [discriminate|]. split; [discriminate|].
    left. reflexivity. }
  assert (~ spec.rule_well_formed bad) as Hbad.
  { intros [Hid _]. apply Hid. reflexivity. }
  split; [exact Hname|]. split; [reflexivity|]. split; [exact Hpre|].
  split; [exact Hbad|].
  destruct (Validate_reports_first_bad_rule p 1 bad Hname eq_refl Hpre Hbad)
    as (err & Hv & _ & Hmsg & _).
  rewrite Hv. f_equal. exact (Hmsg eq_refl).
Defined.

Lemma Validate_ignores_order_and_duplicates_witness :
  let rs := [examples.r_layers; examples.r_user; examples.r_layers] in
  policy.Validate examples.p0 = None /\
  rs <> [] /\
  (forall rule, In rule rs -> In rule (policy.Rules examples.p0)) /\
  policy.Validate (spec.set_rules examples.p0 rs) = None /\
  policy.Validate (spec.set_rules examples.p0 (rs ++ rs)) = None /\
  policy.Validate
    (spec.set_rules examples.p0 (rev (policy.Rules examples.p0))) = None.
Proof.
  intros rs.
  assert (rs <> []) as Hne by discriminate.
  assert (forall rule, In rule rs -> In rule (policy.Rules examples.p0))
    as Hsub.
  { intros rule [<-|[<-|[<-|[]]]]; simpl; tauto. }
  split; [reflexivity|]. split; [exact Hne|]. split; [exact Hsub|].
  exact (Validate_ignores_order_and_duplicates examples.p0 rs eq_refl Hne Hsub).
Defined.

Lemma loadPolicy_first_candidate_decides_witness :
  let pre := ["policies/default.yaml"] in
  let c := "/etc/boltguard/default.yaml" in
  let post := ["/home/ops/.config/boltguard/default.yaml"] in
  main.candidates scenario.os_Getenv scenario.filepath_Join
  = pre ++ c :: post /\
  Forall (fun c' => scenario.os_Stat_ok c' = false) pre /\
  scenario.os_Stat_ok c = true /\
  scenario.loadPolicy ""
  = policy.LoadFromFile scenario.os_ReadFile scenario.yaml_Unmarshal c /\
  snd (scenario.loadPolicy "") = inl examples.p0.
Proof.
  intros pre c post.
  assert (Forall (fun c' => scenario.os_Stat_ok c' = false) pre) as Hpre
    by (constructor; [reflexivity|constructor]).
  split; [reflexivity|]. split; [exact Hpre|]. split; [reflexivity|].
  destruct (loadPolicy_first_candidate_decides scenario.os_ReadFile
              examples.embedded scenario.yaml_Unmarshal scenario.os_Stat_ok
              scenario.os_Getenv scenario.filepath_Join pre post c
              eq_refl Hpre eq_refl) as (Heq & _).
  split; [exact Heq|]. reflexivity.
Defined.

Lemma loadPolicy_validated_unless_embedded_witness :
  snd (scenario.loadPolicy "") = inl examples.p0 /\
  policy.Validate examples.p0 = None /\
  snd (main.loadPolicy examples.disk examples.embedded examples.decode
         (fun _ => false) scenario.os_Getenv scenario.filepath_Join "")
  = inl examples.zero_policy /\
  main.loadPolicy examples.disk examples.embedded examples.decode
    (fun _ => false) scenario.os_Getenv scenario.filepath_Join ""
  = policy.LoadDefault examples.embedded examples.decode.
Proof.
  split; [reflexivity|]. split; [reflexivity|]. split; [reflexivity|].
  destruct (loadPolicy_validated_unless_embedded examples.disk
              examples.embedded examples.decode (fun _ => false)
              scenario.os_Getenv scenario.filepath_Join ""
              examples.zero_policy eq_refl)
    as [[Hv _]|(_ & _ & Heq & _)].
  - vm_compute in Hv. discriminate Hv.
  - exact Heq.
Defined.

Lemma loadPolicy_explicit_path_never_falls_back_witness :
  "missing.yaml" <> "" /\
  scenario.loadPolicy "missing.yaml"
  = ([policy.StepReadFile "missing.yaml"],
     inr "failed to read policy file: open missing.yaml: no such file or directory").
Proof.
  assert ("missing.yaml" <> "") as Hne by discriminate.
  split; [exact Hne|].
  destruct (loadPolicy_explicit_path_never_falls_back scenario.os_ReadFile
              examples.embedded scenario.yaml_Unmarshal scenario.os_Stat_ok
              scenario.os_Getenv scenario.filepath_Join "missing.yaml" Hne)
    as (_ & Herr & _).
  exact (Herr _ eq_refl).
Defined.
